(** * talk2docs: a shallow embedding of the multi-tenant RAG backend

    The development follows the Python sources under [backend/]:
    - [store.py]: index naming, [clean_text];
    - [ollama_embeddings.py]: [_embed], [embed_documents], [embed_query];
    - [ingest_file.py]: [load_and_split], [ingest_file_bytes];
    - [main.py]: retrieval, prompt rendering, [stream_rag_response].

    Python [str] values are modelled by [string]; a character stands for the
    code point with the same number (code points below 256).  The character
    classes used by [str.split], [str.strip] and the [re] module follow
    CPython's tables on that range.

    Effectful code is written in a state-and-exception monad that also
    records, in order, what the code does to the outside world.  The
    services outside the repository (OpenSearch, the language model, the
    embedding service, the document loaders, the text splitter) are
    parameters: every statement holds for all their behaviours, unless it
    says otherwise. *)

From Stdlib Require Import Ascii String List ZArith Lia Bool.
From stdpp Require Import base tactics option list strings pretty gmap.

(** ** Text primitives of the Python runtime *)

Module Text.

Abbreviation chars := (list ascii).

Definition of_string (s : string) : chars := list_ascii_of_string s.
Definition to_string (l : chars) : string := string_of_list_ascii l.

Definition code (c : ascii) : N := N_of_ascii c.

Definition between (lo hi : N) (c : ascii) : bool :=
  ((lo <=? code c) && (code c <=? hi))%N.

(** [str.isspace], which is also the class [\s] of [re] on [str] patterns. *)
Definition is_space (c : ascii) : bool :=
  between 9 13 c || between 28 32 c || (code c =? 133)%N || (code c =? 160)%N.

(** The class [\w] of [re] on [str] patterns: alphanumeric or underscore. *)
Definition is_word (c : ascii) : bool :=
  between 48 57 c || between 65 90 c || between 97 122 c || (code c =? 95)%N
  || (code c =? 170)%N || between 178 179 c || (code c =? 181)%N
  || between 185 186 c || between 188 190 c || between 192 214 c
  || between 216 246 c || between 248 255 c.

Definition is_char (x : ascii) (c : ascii) : bool :=
  if decide (c = x) then true else false.

Definition one_of (s : string) (c : ascii) : bool :=
  existsb (is_char c) (of_string s).

Definition starts_with_space (s : chars) : bool :=
  match s with
  | c :: _ => is_space c
  | [] => true
  end.

(** [text.split()]: the maximal runs of non-whitespace characters. *)
Fixpoint split (s : chars) : list chars :=
  match s with
  | [] => []
  | c :: rest =>
      if is_space c then split rest
      else if starts_with_space rest then [c] :: split rest
      else match split rest with
           | w :: ws => (c :: w) :: ws
           | [] => [[c]]
           end
  end.

(** [sep.join(parts)]. *)
Fixpoint join (sep : chars) (parts : list chars) : chars :=
  match parts with
  | [] => []
  | [p] => p
  | p :: ps => p ++ sep ++ join sep ps
  end.

Fixpoint lstrip (s : chars) : chars :=
  match s with
  | c :: rest => if is_space c then lstrip rest else s
  | [] => []
  end.

(** [text.strip()]. *)
Definition strip (s : chars) : chars := rev (lstrip (rev (lstrip s))).

Definition space : chars := of_string " ".

(** [' '.join(text.split())]. *)
Definition collapse (s : chars) : chars := join space (split s).

Definition str_split (s : string) : list string := map to_string (split (of_string s)).
Definition str_join (sep : string) (parts : list string) : string :=
  String.concat sep parts.
Definition str_strip (s : string) : string := to_string (strip (of_string s)).
Definition str_collapse (s : string) : string := to_string (collapse (of_string s)).

(** [s.endswith(suffix)]. *)
Definition endswith (s suffix : string) : bool :=
  String.prefix (String.rev suffix) (String.rev s).

Definition nl : string := String "010"%char EmptyString.

(** Every character of a text belongs to a class. *)
Definition all_of (cls : ascii -> bool) (s : chars) : Prop :=
  Forall (fun c => cls c = true) s.

(** The word characters of a text, in order. *)
Definition keep_words (s : chars) : chars := List.filter is_word s.

End Text.

(** ** The fragment of [re] used by [clean_text] *)

Module Regex.
Import Text.

(** One element of a pattern: a character class matched once, a greedy
    [+] repetition of a class, or a negative lookahead on a class. *)
Inductive atom :=
| One (cls : ascii -> bool)
| Many (cls : ascii -> bool)
| NotBefore (cls : ascii -> bool).

(** A pattern is a sequence of atoms, each marked as a capturing group
    or not. *)
Definition pattern := list (bool * atom).

(** A match, decomposed atom by atom. *)
Definition segments := list (bool * chars).

Definition matched (segs : segments) : chars := concat (map snd segs).

Definition groups (segs : segments) : list chars :=
  map snd (List.filter (fun seg => fst seg) segs).

(** [cls+] followed by the continuation [k]: the longest run is tried
    first, shorter ones on backtracking. *)
Fixpoint many {R} (cls : ascii -> bool) (k : chars -> option R) (s : chars)
  : option (chars * R) :=
  match s with
  | c :: rest =>
      if cls c then
        match many cls k rest with
        | Some (run, r) => Some (c :: run, r)
        | None => match k rest with
                  | Some r => Some ([c], r)
                  | None => None
                  end
        end
      else None
  | [] => None
  end.

(** Match the pattern at the start of [s]. *)
Fixpoint match_here (p : pattern) (s : chars) : option (segments * chars) :=
  match p with
  | [] => Some ([], s)
  | (cap, One cls) :: p' =>
      match s with
      | c :: rest =>
          if cls c then
            match match_here p' rest with
            | Some (segs, r) => Some ((cap, [c]) :: segs, r)
            | None => None
            end
          else None
      | [] => None
      end
  | (cap, Many cls) :: p' =>
      match many cls (match_here p') s with
      | Some (run, (segs, r)) => Some ((cap, run) :: segs, r)
      | None => None
      end
  | (cap, NotBefore cls) :: p' =>
      match s with
      | c :: _ => if cls c then None
                  else match match_here p' s with
                       | Some (segs, r) => Some ((cap, []) :: segs, r)
                       | None => None
                       end
      | [] => match match_here p' s with
              | Some (segs, r) => Some ((cap, []) :: segs, r)
              | None => None
              end
      end
  end.

(** Replacement templates: literal text and group references [\n]. *)
Inductive piece :=
| Lit (text : chars)
| Group (n : nat).

Definition template := list piece.

Definition expand (t : template) (segs : segments) : chars :=
  concat (map (fun pc => match pc with
                         | Lit text => text
                         | Group n => nth (pred n) (groups segs) []
                         end) t).

(** [re.sub]: scan left to right; where the pattern matches, emit the
    expanded template and resume after the match; elsewhere copy the
    character.  The patterns of this program consume at least one
    character, so [length s] steps suffice. *)
Fixpoint sub_from (fuel : nat) (p : pattern) (t : template) (s : chars) : chars :=
  match fuel with
  | 0 => s
  | S fuel' =>
      match s with
      | [] => []
      | c :: rest =>
          match match_here p s with
          | Some (segs, r) => expand t segs ++ sub_from fuel' p t r
          | None => c :: sub_from fuel' p t rest
          end
      end
  end.

Definition sub (p : pattern) (t : template) (s : chars) : chars :=
  sub_from (length s) p t s.

(** What a segment of a match looks like, atom by atom. *)
Definition fits (pa : bool * atom) (seg : bool * chars) : Prop :=
  fst seg = fst pa /\
  match snd pa with
  | One cls => exists c, snd seg = [c] /\ cls c = true
  | Many cls => snd seg <> [] /\ Forall (fun c => cls c = true) (snd seg)
  | NotBefore _ => snd seg = []
  end.

End Regex.

(** ** [store.py]: the text normalizer *)

Module Normalizer.
Import Text Regex.

Definition punct : ascii -> bool := one_of ".,;:!?".

(** [(\w+)-\s+(\w+)] *)
Definition hyphen_wrap : pattern :=
  [(true, Many is_word); (false, One (is_char "-")); (false, Many is_space);
   (true, Many is_word)].

(** [[^\w\s.,;:!?\-]] *)
Definition not_basic : pattern :=
  [(false, One (fun c => negb (is_word c || is_space c || one_of ".,;:!?-" c)))].

(** [[^\w\s.,;:!?\-$%@#&+*=<>/]] *)
Definition not_technical : pattern :=
  [(false, One (fun c => negb (is_word c || is_space c
                               || one_of ".,;:!?-$%@#&+*=<>/" c)))].

(** [\s+([.,;:!?])] *)
Definition space_before_punct : pattern :=
  [(false, Many is_space); (true, One punct)].

(** [([.,;:!?])(?!\s)] *)
Definition punct_not_spaced : pattern :=
  [(true, One punct); (false, NotBefore is_space)].

(** [\s+] *)
Definition spaces : pattern := [(false, Many is_space)].

Definition clean_chars (preserve_special_chars : bool) (text : chars) : chars :=
  match text with
  | [] => []
  | _ =>
      let text := join space (split text) in
      let text := sub hyphen_wrap [Group 1; Group 2] text in
      let text := if preserve_special_chars
                  then sub not_technical [Lit space] text
                  else sub not_basic [Lit space] text in
      let text := sub space_before_punct [Group 1] text in
      let text := sub punct_not_spaced [Group 1; Lit space] text in
      let text := sub spaces [Lit space] text in
      strip text
  end.

Definition clean_text (text : string) (preserve_special_chars : bool) : string :=
  to_string (clean_chars preserve_special_chars (of_string text)).

End Normalizer.

(** ** Python values, dictionaries and exceptions *)

Module Py.

(** The metadata values that occur in this program. *)
Inductive value :=
| VNone
| VBool (b : bool)
| VInt (z : Z)
| VStr (s : string).

(** Truth value of an object, as tested by [or], [not] and [if]. *)
Definition truthy (v : value) : bool :=
  match v with
  | VNone => false
  | VBool b => b
  | VInt z => negb (z =? 0)%Z
  | VStr s => negb (String.eqb s "")
  end.

(** [str(v)], which is also what an f-string field prints. *)
Definition str (v : value) : string :=
  match v with
  | VNone => "None"
  | VBool true => "True"
  | VBool false => "False"
  | VInt z => pretty z
  | VStr s => s
  end.

(** [a or b]. *)
Definition or_else (a b : value) : value := if truthy a then a else b.

(** A [dict] with string keys: insertion-ordered, one entry per key. *)
Definition dict (V : Type) := list (string * V).

Fixpoint lookup {V} (d : dict V) (k : string) : option V :=
  match d with
  | [] => None
  | (k', v) :: rest => if decide (k' = k) then Some v else lookup rest k
  end.

(** [d.get(k, default)]. *)
Definition get {V} (d : dict V) (k : string) (default : V) : V :=
  match lookup d k with
  | Some v => v
  | None => default
  end.

(** [d[k] = v]: an existing key keeps its position. *)
Fixpoint set {V} (d : dict V) (k : string) (v : V) : dict V :=
  match d with
  | [] => [(k, v)]
  | (k', v') :: rest =>
      if decide (k' = k) then (k, v) :: rest else (k', v') :: set rest k v
  end.

(** [d.update(other)]. *)
Definition update {V} (d other : dict V) : dict V :=
  fold_left (fun acc kv => set acc (fst kv) (snd kv)) other d.

(** [enumerate(l)]. *)
Definition enumerate {A} (l : list A) : list (nat * A) :=
  combine (seq 0 (length l)) l.

Inductive exn :=
| ValueError (msg : string)
| TypeError (msg : string)
| RequestException (msg : string)
| HTTPException (status : Z) (detail : string)
| OtherError (msg : string).

(** [str(e)]. *)
Definition message (e : exn) : string :=
  match e with
  | ValueError msg | TypeError msg | RequestException msg | OtherError msg => msg
  | HTTPException status detail => pretty status +:+ ": " +:+ detail
  end.

Inductive result (A : Type) :=
| Ok (a : A)
| Raise (e : exn).
Arguments Ok {A} a.
Arguments Raise {A} e.

Definition dq : string := String "034"%char EmptyString.

End Py.

(** ** State, exceptions and an event log *)

Module Eff.
Import Py.

(** A computation over a state [S] that logs events [E] and may raise. *)
Definition M (S E A : Type) : Type := S -> result A * S * list E.

Section Ops.
Context {S E : Type}.

Definition ret {A} (a : A) : M S E A := fun s => (Ok a, s, []).

Definition raise {A} (e : exn) : M S E A := fun s => (Raise e, s, []).

Definition bind {A B} (m : M S E A) (f : A -> M S E B) : M S E B :=
  fun s =>
    match m s with
    | (Ok a, s1, ev1) =>
        match f a s1 with
        | (r, s2, ev2) => (r, s2, ev1 ++ ev2)
        end
    | (Raise e, s1, ev1) => (Raise e, s1, ev1)
    end.

(** [try: m  except Exception as e: h e]. *)
Definition try_except {A} (m : M S E A) (h : exn -> M S E A) : M S E A :=
  fun s =>
    match m s with
    | (Ok a, s1, ev1) => (Ok a, s1, ev1)
    | (Raise e, s1, ev1) =>
        match h e s1 with
        | (r, s2, ev2) => (r, s2, ev1 ++ ev2)
        end
    end.

Definition tell (e : E) : M S E unit := fun s => (Ok tt, s, [e]).

Definition get_state : M S E S := fun s => (Ok s, s, []).

Definition put_state (s' : S) : M S E unit := fun _ => (Ok tt, s', []).

Definition lift {A} (r : result A) : M S E A := fun s => (r, s, []).

End Ops.

Definition outcome {S E A} (x : result A * S * list E) : result A := fst (fst x).
Definition final {S E A} (x : result A * S * list E) : S := snd (fst x).
Definition events {S E A} (x : result A * S * list E) : list E := snd x.

End Eff.

Notation "x <- m ;; k" := (Eff.bind m (fun x => k))
  (at level 100, m at next level, right associativity).
Notation "m ;;; k" := (Eff.bind m (fun _ => k))
  (at level 100, right associativity).

(** ** [ollama_embeddings.py]: the embedding client *)

Module Embeddings.
Import Py Eff.

Section Client.
(** The numbers of an embedding vector, and the number [0.0]. *)
Context {F : Type} (zero : F).
(** The state of the remote embedding service. *)
Context {Remote : Type}.

(** What [result["embedding"]] holds. *)
Inductive embedding_value :=
| NotAList (type_repr : string)
| AList (v : list F).

(** The decoded body of a reply: without the key [embedding] (with the
    printed form of the body), or with it. *)
Inductive body :=
| NoEmbedding (repr : string)
| Embedding (v : embedding_value).

Record response := {
  status_code : Z;
  text : string;
  json : result body   (* [response.json()] may raise *)
}.

(** What the client does: the requests it sends and the lines it logs. *)
Inductive call :=
| Post (endpoint model prompt : string)
| LogLine (level line : string).

(** [requests.post(endpoint, json=payload, timeout=30)]: it may raise,
    and the service may change state. *)
Context (post : string -> string -> string -> Remote -> result response * Remote).

Record OllamaEmbeddings := {
  model : string;
  base_url : string
}.

Definition endpoint (self : OllamaEmbeddings) : string :=
  base_url self +:+ "/api/embeddings".

Definition zero_vector : list F := replicate 384 zero.

Definition requests_post (self : OllamaEmbeddings) (prompt : string)
  : M Remote call response :=
  fun r =>
    match post (endpoint self) (model self) prompt r with
    | (reply, r') => (reply, r', [Post (endpoint self) (model self) prompt])
    end.

(** [logger.error(error_msg); raise ValueError(error_msg)]. *)
Definition fail {A} (error_msg : string) : M Remote call A :=
  tell (LogLine "ERROR" error_msg) ;;;
  raise (ValueError error_msg).

(** The body of the [try] block of [_embed]. *)
Definition request_embedding (self : OllamaEmbeddings) (prompt : string)
  : M Remote call (list F) :=
  response <- requests_post self prompt ;;
  if decide (status_code response ≠ 200%Z) then
    fail ("Ollama embedding request failed with status "
          +:+ pretty (status_code response) +:+ ": " +:+ text response)
  else
    result <- lift (json response) ;;
    match result with
    | NoEmbedding repr => fail ("No embedding found in response: " +:+ repr)
    | Embedding (NotAList type_repr) =>
        fail ("Invalid embedding format: " +:+ type_repr)
    | Embedding (AList []) => fail "Invalid embedding format: <class 'list'>"
    | Embedding (AList embedding) => ret embedding
    end.

(** The [except] clauses of [_embed], in their order. *)
Definition translate {A} (e : exn) : M Remote call A :=
  match e with
  | RequestException msg =>
      fail ("Network error while getting embeddings: " +:+ msg)
  | ValueError msg => raise (ValueError msg)
  | TypeError _ | HTTPException _ _ | OtherError _ =>
      fail ("Unexpected error during embedding: " +:+ message e)
  end.

Definition _embed (self : OllamaEmbeddings) (text : string)
  : M Remote call (list F) :=
  if decide (text = "" ∨ Text.str_strip text = "") then
    tell (LogLine "WARNING" "Empty text provided for embedding") ;;;
    ret zero_vector
  else
    try_except (request_embedding self (Text.str_strip text)) translate.

(** The [except] clause of [embed_documents] and of [embed_query]: the
    error is logged and the zero vector stands in. *)
Definition zero_fallback (what : string) (e : exn) : M Remote call (list F) :=
  tell (LogLine "ERROR" ("Error embedding " +:+ what +:+ ": " +:+ message e)) ;;;
  ret zero_vector.

Fixpoint embed_each (self : OllamaEmbeddings) (texts : list string)
         (embeddings : list (list F)) : M Remote call (list (list F)) :=
  match texts with
  | [] => ret embeddings
  | text :: rest =>
      embedding <- try_except (_embed self text) (zero_fallback "document") ;;
      embed_each self rest (embeddings ++ [embedding])
  end.

Definition embed_documents (self : OllamaEmbeddings) (texts : list string)
  : M Remote call (list (list F)) :=
  embed_each self texts [].

Definition embed_query (self : OllamaEmbeddings) (text : string)
  : M Remote call (list F) :=
  try_except (_embed self text) (zero_fallback "query").

(** The relation between the texts and the vectors of a batch, call by
    call: the vector of a text is what [_embed] returned for it, or the
    zero vector when [_embed] raised. *)
Fixpoint replaced_on_failure (self : OllamaEmbeddings) (texts : list string)
         (embeddings : list (list F)) (r : Remote) : Prop :=
  match texts, embeddings with
  | [], [] => True
  | text :: texts', embedding :: embeddings' =>
      match _embed self text r with
      | (Ok v, r', _) =>
          embedding = v /\ replaced_on_failure self texts' embeddings' r'
      | (Raise _, r', _) =>
          embedding = zero_vector /\ replaced_on_failure self texts' embeddings' r'
      end
  | _, _ => False
  end.

(** [is_available]. *)
Definition is_available (self : OllamaEmbeddings) : M Remote call bool :=
  try_except (test_embedding <- _embed self "test" ;;
              ret (bool_decide (0 < length test_embedding)))
             (fun e =>
                tell (LogLine "WARNING" ("Ollama embeddings not available: "
                                         +:+ message e)) ;;;
                ret false).

End Client.

End Embeddings.

(** ** [store.py]: documents, tenant indexes and the vector store *)

Module Store.
Import Py Eff.

(** [langchain.schema.Document]. *)
Record Document := {
  page_content : string;
  metadata : dict value
}.

(** The OpenSearch cluster: the documents held by each index, by index
    name.  An index that was never written holds no document. *)
Abbreviation cluster := (gmap string (list Document)).

Definition contents (c : cluster) (index_name : string) : list Document :=
  c !!! index_name.

(** What the pipeline does to the outside world, in order. *)
Inductive event :=
| HeadIndex (index_name : string)
| PutIndex (index_name : string) (dimension : nat)
| Search (index_name query : string) (k : nat)
| AddDocuments (index_name : string) (batch : list Document)
| Invoke (prompt : string)
| Yield (content : string)
| Log (line : string).

(** The collaborators outside the repository. *)
Record Env := {
  (** the status of [HEAD /<index>], or the exception of the request *)
  head_index : string -> result Z;
  (** the status and the body of [PUT /<index>] with the mapping, or the
      exception of the request *)
  put_index : string -> result (Z * string);
  (** nearest-neighbour ranking of an index's documents for a query;
      it may raise (embedding or transport failure) *)
  rank : string -> list Document -> string -> nat -> result (list Document);
  (** the failure, if any, of writing a batch to an index *)
  write_fault : string -> list Document -> option exn;
  (** [llm.astream(prompt)]: the contents produced, and the exception
      that ends the stream if it does not end normally *)
  astream : string -> list string * option exn;
  (** the temporary file of [load_and_split]: the exception, if any, of
      creating it with the suffix, writing the bytes and flushing; and
      the exception, if any, of closing (and so deleting) it when the
      [with] block is left *)
  temp_fault : string -> list Byte.byte -> option exn;
  temp_close_fault : string -> option exn;
  (** the document loaders, on the bytes of the temporary file *)
  PyMuPDFLoader : list Byte.byte -> result (list Document);
  TextLoader : list Byte.byte -> result (list Document);
  DedocFileLoader : list Byte.byte -> result (list Document);
  (** [text_splitter.split_documents] *)
  split_documents : list Document -> list Document;
  (** [Path(filename).suffix.lower()] *)
  suffix_lower : string -> string
}.

Abbreviation Run := (M cluster event).

(** A handle of [OpenSearchVectorSearch], bound to one index. *)
Record VectorStore := { index_name : string }.

Definition doc_index (tenant_id : string) : string := "doc_" +:+ tenant_id.
Definition chat_history_index (tenant_id : string) : string :=
  "chat_history_" +:+ tenant_id.

(** The dimension of the [knn_vector] field in the index mapping. *)
Definition VECTOR_DIMENSION : nat := 384.

(** The prompts sent to the model, the contents delivered to the caller
    and the batches submitted to the indexes, as recorded in a log. *)
Definition invocations (log : list event) : list string :=
  omap (fun e => match e with Invoke prompt => Some prompt | _ => None end) log.

Definition yielded (log : list event) : list string :=
  omap (fun e => match e with Yield content => Some content | _ => None end) log.

Definition submitted (log : list event) : list (string * list Document) :=
  omap (fun e => match e with
                 | AddDocuments index_name batch => Some (index_name, batch)
                 | _ => None
                 end) log.

(** A log of index checks, searches and log lines only. *)
Definition quiet (log : list event) : Prop :=
  Forall (fun e => match e with
                   | HeadIndex _ | PutIndex _ _ | Search _ _ _ | Log _ => True
                   | _ => False
                   end) log.

(** A computation that only looks things up: it leaves the cluster as it
    was, and neither calls the model, nor yields, nor submits documents. *)
Definition retrieval_only {A} (m : Run A) : Prop :=
  forall c, final (m c) = c /\ quiet (events (m c)).

(** A postcondition on the value a computation returns. *)
Definition ensures {A} (Q : A -> Prop) (m : Run A) : Prop :=
  forall c a, outcome (m c) = Ok a -> Q a.

(** Two clusters hold the same documents in the named indexes. *)
Definition agree (names : list string) (c1 c2 : cluster) : Prop :=
  forall n, n ∈ names -> contents c1 n = contents c2 n.

(** A computation whose result, log and effect on the named indexes are
    determined by the contents of the named indexes alone. *)
Definition reads_only (names : list string) {A} (m : Run A) : Prop :=
  forall c1 c2, agree names c1 c2 ->
    outcome (m c1) = outcome (m c2)
    /\ events (m c1) = events (m c2)
    /\ agree names (final (m c1)) (final (m c2)).

(** A computation that leaves every index outside the named ones as it
    was. *)
Definition writes_only (names : list string) {A} (m : Run A) : Prop :=
  forall c n, n ∉ names -> contents (final (m c)) n = contents c n.

Section Operations.
Context (env : Env).

(** [create_index_if_not_exists]: the existence check, then the creation
    request unless the index answered 200.  Every exception is caught and
    logged, so the call always returns. *)
Definition create_index_if_not_exists (index_name : string) : Run unit :=
  found <- try_except
    (tell (HeadIndex index_name) ;;;
     status_code <- lift (head_index env index_name) ;;
     if decide (status_code = 200%Z) then
       tell (Log ("Index " +:+ index_name +:+ " already exists")) ;;;
       ret true
     else ret false)
    (fun e =>
       tell (Log ("Error checking index existence: " +:+ message e)) ;;;
       ret false) ;;
  if (found : bool) then ret tt
  else
    try_except
      (tell (PutIndex index_name VECTOR_DIMENSION) ;;;
       response <- lift (put_index env index_name) ;;
       if decide (fst response ∈ [200%Z; 201%Z]) then
         tell (Log ("Successfully created index: " +:+ index_name))
       else
         tell (Log ("Failed to create index " +:+ index_name +:+ ": "
                    +:+ snd response)))
      (fun e =>
         tell (Log ("Error creating index " +:+ index_name +:+ ": "
                    +:+ message e))).

Definition get_doc_vector_store (tenant_id : string) : Run VectorStore :=
  let index_name := doc_index tenant_id in
  create_index_if_not_exists index_name ;;;
  ret {| index_name := index_name |}.

Definition get_chat_history_vector_store (tenant_id : string) : Run VectorStore :=
  let index_name := chat_history_index tenant_id in
  create_index_if_not_exists index_name ;;;
  ret {| index_name := index_name |}.

(** What [create_index_if_not_exists] logs for an index. *)
Definition provision_log (index_name : string) : list event :=
  events (create_index_if_not_exists index_name ∅).

(** [store.similarity_search(query, k=k)]. *)
Definition similarity_search (store : VectorStore) (query : string) (k : nat)
  : Run (list Document) :=
  tell (Search (index_name store) query k) ;;;
  c <- get_state ;;
  lift (rank env (index_name store) (contents c (index_name store)) query k).

(** [store.add_documents(batch)]. *)
Definition add_documents (store : VectorStore) (batch : list Document)
  : Run unit :=
  tell (AddDocuments (index_name store) batch) ;;;
  match write_fault env (index_name store) batch with
  | Some e => raise e
  | None =>
      c <- get_state ;;
      put_state (<[index_name store :=
                     contents c (index_name store) ++ batch]> c)
  end.

End Operations.

End Store.

(** ** [ingest_file.py]: loading, normalizing and indexing an upload *)

Module Ingest.
Import Py Eff Store.

Section Pipeline.
Context (env : Env).

(** The body of the [try] block of [load_and_split]: the dispatch on
    the lower-cased suffix. *)
Definition load_documents (file_bytes : list Byte.byte) (filename : string)
  : result (list Document) :=
  let suffix := suffix_lower env filename in
  if decide (suffix = ".pdf") then PyMuPDFLoader env file_bytes
  else if decide (suffix = ".txt") then TextLoader env file_bytes
  else if decide (suffix ∈ [".docx"; ".doc"]) then DedocFileLoader env file_bytes
  else Raise (ValueError ("Unsupported file type: " +:+ filename)).

(** The fallback document of the [except] clause. *)
Definition fallback_document (filename : string) (e : exn) : Document :=
  {| page_content := "Error loading file: " +:+ filename +:+ ". Error: "
                     +:+ message e;
     metadata := [("source", VStr filename); ("error", VBool true)] |}.

(** The fallback document after the cleaning loop. *)
Definition cleaned_fallback (filename : string) (e : exn) : Document :=
  {| page_content :=
       Normalizer.clean_text (page_content (fallback_document filename e)) false;
     metadata := metadata (fallback_document filename e) |}.

(** The [try] statement of [load_and_split]: the documents handed to
    the normalizer. *)
Definition load_or_fallback (file_bytes : list Byte.byte) (filename : string)
  : Run (list Document) :=
  try_except (lift (load_documents file_bytes filename))
             (fun e =>
                tell (Log ("Error loading " +:+ filename +:+ ": " +:+ message e)) ;;;
                ret [fallback_document filename e]).

(** The loop that cleans each document and keeps the non-empty ones. *)
Fixpoint process_docs (docs processed_docs : list Document) : list Document :=
  match docs with
  | [] => processed_docs
  | doc :: rest =>
      if decide (page_content doc = "") then process_docs rest processed_docs
      else
        let cleaned_content := Normalizer.clean_text (page_content doc) false in
        if decide (Text.str_strip cleaned_content = "")
        then process_docs rest processed_docs
        else process_docs rest
               (processed_docs ++ [{| page_content := cleaned_content;
                                      metadata := metadata doc |}])
  end.

(** A step outside the repository that either passes or raises. *)
Definition pass_or_raise (fault : option exn) : Run unit :=
  match fault with
  | Some e => raise e
  | None => ret tt
  end.

(** [load_and_split]: the temporary file is created and written before
    the [try], and closed when the [with] block is left; an exception of
    either step is not caught here. *)
Definition load_and_split (file_bytes : list Byte.byte) (filename : string)
  : Run (list Document) :=
  let suffix := suffix_lower env filename in
  pass_or_raise (temp_fault env suffix file_bytes) ;;;
  docs <- load_or_fallback file_bytes filename ;;
  pass_or_raise (temp_close_fault env suffix) ;;;
  match process_docs docs [] with
  | [] => ret []
  | processed_docs => ret (split_documents env processed_docs)
  end.

(** A value that the metadata cleaning keeps: not [None], and not a blank
    string. *)
Definition filled (v : value) : Prop :=
  match v with
  | VNone => False
  | VStr s => Text.str_strip s <> ""
  | _ => True
  end.

(** The loop that drops [None] and blank-string metadata values. *)
Fixpoint clean_metadata (items : list (string * value)) (cleaned_metadata : dict value)
  : dict value :=
  match items with
  | [] => cleaned_metadata
  | (k, v) :: rest =>
      match v with
      | VNone => clean_metadata rest cleaned_metadata
      | VStr s =>
          if decide (Text.str_strip s = "") then clean_metadata rest cleaned_metadata
          else clean_metadata rest (set cleaned_metadata k v)
      | _ => clean_metadata rest (set cleaned_metadata k v)
      end
  end.

(** One iteration of the loop over the chunks. *)
Definition annotate (filename : string) (doc : Document) : Document :=
  {| page_content := Text.str_collapse (page_content doc);
     metadata := update (clean_metadata (metadata doc) [])
                        [("source_file", VStr filename);
                         ("type", VStr "document")] |}.

Definition BATCH_SIZE : nat := 100.

(** [range(0, total, step)]. *)
Definition range_step (total step : nat) : list nat :=
  map (fun j => j * step) (seq 0 ((total + (step - 1)) / step)).

Fixpoint index_batches (doc_vector_store : VectorStore) (filename : string)
         (chunks : list Document) (starts : list nat) : Run unit :=
  match starts with
  | [] => ret tt
  | i :: rest =>
      let batch := take BATCH_SIZE (drop i chunks) in
      try_except
        (add_documents env doc_vector_store batch ;;;
         tell (Log ("Indexed batch " +:+ pretty (i / BATCH_SIZE + 1) +:+ " ("
                    +:+ pretty (length batch) +:+ " chunks) for " +:+ filename)))
        (fun e =>
           tell (Log ("Error indexing batch " +:+ pretty (i / BATCH_SIZE + 1)
                      +:+ " for " +:+ filename +:+ ": " +:+ message e)) ;;;
           raise e) ;;;
      index_batches doc_vector_store filename chunks rest
  end.

Definition ingest_file_bytes (file_bytes : list Byte.byte)
           (filename tenant_id : string) : Run nat :=
  try_except
    (chunks <- load_and_split file_bytes filename ;;
     match chunks with
     | [] =>
         tell (Log ("No content extracted from " +:+ filename)) ;;;
         ret 0
     | _ =>
         doc_vector_store <- get_doc_vector_store env tenant_id ;;
         let chunks := map (annotate filename) chunks in
         let total_chunks := length chunks in
         index_batches doc_vector_store filename chunks
                       (range_step total_chunks BATCH_SIZE) ;;;
         tell (Log ("Successfully ingested " +:+ pretty total_chunks
                    +:+ " chunks from " +:+ filename +:+ " for tenant "
                    +:+ tenant_id)) ;;;
         ret total_chunks
     end)
    (fun e =>
       tell (Log ("Error ingesting " +:+ filename +:+ " for tenant "
                  +:+ tenant_id +:+ ": " +:+ message e)) ;;;
       raise e).

End Pipeline.

End Ingest.

(** ** [main.py]: retrieval, prompt rendering and the answer stream *)

Module Rag.
Import Py Eff Store.

(** [RAG_TEMPLATE], cut at its four fields. *)
Definition template_head : string :=
  String.concat Text.nl
    ["";
     "<|SYSTEM|>";
     "You are a precise RAG assistant. Your sole task is to answer the user's `<QUESTION>` using ONLY the provided `<CONTEXT>`.";
     "";
     "## Your Rules:";
     "1.  **Strictly Grounded:** Base every single statement in your answer on the provided text. NEVER use external knowledge or make assumptions.";
     "2.  **Cite Everything:** You MUST add a citation `[1]` or `[3][5]` after every piece of information. The citation goes *before* the punctuation.";
     "3.  **List Your Sources:** After the answer, you MUST provide a `Sources:` list, citing the full title of each source you used.";
     "4.  **Be Direct:** Do not add any conversational preamble. Start directly with the answer.";
     "5.  **Handle No Information Politely:** If the context does not contain the answer, you MUST respond with the exact phrase: " +:+ dq +:+ "I'm sorry, but I couldn't find the information needed to answer your question in the provided documents." +:+ dq;
     "";
     "<|USER|>";
     "<CONTEXT>";
     ""].

Definition template_after_context : string :=
  String.concat Text.nl
    ["";
     "</CONTEXT>";
     "";
     "<SOURCES_BLOCK>";
     ""].

Definition template_after_sources : string :=
  String.concat Text.nl
    ["";
     "</SOURCES_BLOCK>";
     "";
     "<CHAT_HISTORY>";
     ""].

Definition template_after_history : string :=
  String.concat Text.nl
    ["";
     "</CHAT_HISTORY>";
     "";
     "<QUESTION>";
     ""].

Definition template_tail : string :=
  String.concat Text.nl
    ["";
     "</QUESTION>";
     "";
     "<|SYSTEM|>";
     ""].

(** [prompt.format(context=..., sources_block=..., chat_history=...,
    question=...)]. *)
Definition format_prompt (context sources_block chat_history question : string)
  : string :=
  template_head +:+ context +:+ template_after_context +:+ sources_block
  +:+ template_after_sources +:+ chat_history +:+ template_after_history
  +:+ question +:+ template_tail.

Definition no_history : string :=
  "No relevant previous conversation history available.".

Definition empty_context : string := "\{empty\}".

(** The citation label [f"[{i+1}]"] of the chunk at rank [i]. *)
Definition label (i : nat) : string := "[" +:+ pretty (i + 1) +:+ "]".

Definition context_line (item : nat * Document) : string :=
  label (fst item) +:+ " " +:+ page_content (snd item).

(** [page + 1]. *)
Definition plus_one (page : value) : result value :=
  match page with
  | VInt z => Ok (VInt (z + 1))
  | VBool b => Ok (VInt (Z.b2z b + 1))
  | VStr _ =>
      Raise (TypeError ("can only concatenate str (not " +:+ dq +:+ "int"
                        +:+ dq +:+ ") to str"))
  | VNone =>
      Raise (TypeError "unsupported operand type(s) for +: 'NoneType' and 'int'")
  end.

(** The descriptor stored under one citation label. *)
Definition descriptor (doc : Document) : result string :=
  let title := or_else (get (metadata doc) "title" VNone)
                       (get (metadata doc) "source_file" (VStr "Unknown Source")) in
  let page := get (metadata doc) "page" VNone in
  match page with
  | VNone => Ok (str title)
  | _ =>
      match plus_one page with
      | Ok next => Ok (str title +:+ " (page " +:+ str next +:+ ")")
      | Raise e => Raise e
      end
  end.

(** The [page] entry of a chunk, when there is one, is a number. *)
Definition page_is_number (doc : Document) : Prop :=
  match get (metadata doc) "page" VNone with
  | VStr _ => False
  | _ => True
  end.

(** The loop that fills the [sources] dictionary. *)
Fixpoint build_sources (items : list (nat * Document)) (sources : dict string)
  : result (dict string) :=
  match items with
  | [] => Ok sources
  | (i, doc) :: rest =>
      match descriptor doc with
      | Ok d => build_sources rest (set sources (label i) d)
      | Raise e => Raise e
      end
  end.

(** ["\n".join(f"{k} {v}" for k, v in sources.items())]. *)
Definition sources_block (sources : dict string) : string :=
  Text.str_join Text.nl (map (fun kv => fst kv +:+ " " +:+ snd kv) sources).

Section Pipeline.
Context (env : Env).

Definition ensure_indexes_exist (tenant_id : string) : Run (VectorStore * VectorStore) :=
  doc_vector_store <- get_doc_vector_store env tenant_id ;;
  chat_history_vector_store <- get_chat_history_vector_store env tenant_id ;;
  ret (doc_vector_store, chat_history_vector_store).

Definition get_relevant_history (query tenant_id : string) (k : nat)
  : Run string :=
  found <- try_except
    (chat_history_vector_store <- get_chat_history_vector_store env tenant_id ;;
     docs <- similarity_search env chat_history_vector_store query k ;;
     match docs with
     | [] => ret None
     | _ =>
         let history_context := Text.str_join Text.nl (map page_content docs) in
         ret (Some ("Relevant previous conversations:" +:+ Text.nl
                    +:+ history_context))
     end)
    (fun e =>
       tell (Log ("[ERROR] Error retrieving chat history for " +:+ tenant_id
                  +:+ ": " +:+ message e)) ;;;
       ret None) ;;
  match found with
  | Some history => ret history
  | None => ret no_history
  end.

Definition get_relevant_documents (query tenant_id : string) (k : nat)
  : Run (string * dict string) :=
  doc_vector_store <- get_doc_vector_store env tenant_id ;;
  docs <- similarity_search env doc_vector_store query k ;;
  match docs with
  | [] => ret (empty_context, [])
  | _ =>
      let context := Text.str_join Text.nl (map context_line (enumerate docs)) in
      sources <- lift (build_sources (enumerate docs) []) ;;
      ret (context, sources)
  end.

Definition chat_record (query response tenant_id : string) : Document :=
  {| page_content := "Q: " +:+ query +:+ Text.nl +:+ "A: " +:+ response;
     metadata := [("type", VStr "chat_history");
                  ("tenant_id", VStr tenant_id);
                  ("query", VStr query);
                  ("response", VStr response)] |}.

Definition store_chat_history (query response tenant_id : string) : Run unit :=
  try_except
    (chat_history_vector_store <- get_chat_history_vector_store env tenant_id ;;
     add_documents env chat_history_vector_store
                   [chat_record query response tenant_id])
    (fun e =>
       tell (Log ("[ERROR] Error storing chat history for " +:+ tenant_id
                  +:+ ": " +:+ message e))).

(** Steps 1 to 4 of [stream_rag_response]: the prompt and the sources. *)
Definition prepare (query tenant_id : string) : Run (string * dict string) :=
  ensure_indexes_exist tenant_id ;;;
  chat_history <- get_relevant_history query tenant_id 3 ;;
  cs <- get_relevant_documents query tenant_id 10 ;;
  let formatted_prompt :=
    format_prompt (fst cs) (sources_block (snd cs)) chat_history query in
  tell (Log ("[DEBUG] Formatted prompt: " +:+ formatted_prompt)) ;;;
  ret (formatted_prompt, snd cs).

(** The body of [async for chunk in llm.astream(...)] over the contents
    that arrive: each is yielded, then appended. *)
Fixpoint forward (contents response_chunks : list string) : Run (list string) :=
  match contents with
  | [] => ret response_chunks
  | content :: rest =>
      tell (Yield content) ;;;
      forward rest (response_chunks ++ [content])
  end.

(** Step 5: the stream is consumed; an exception that ends it is
    caught and logged, and what was appended so far is kept. *)
Definition generate (formatted_prompt : string) : Run (list string) :=
  tell (Invoke formatted_prompt) ;;;
  response_chunks <- forward (fst (astream env formatted_prompt)) [] ;;
  match snd (astream env formatted_prompt) with
  | Some e =>
      tell (Log ("[ERROR] Error during LLM streaming: " +:+ message e)) ;;;
      ret response_chunks
  | None => ret response_chunks
  end.

Definition final_response (response_chunks : list string) (sources : dict string)
  : string :=
  Text.str_join "" response_chunks +:+ Text.nl +:+ Text.nl +:+ "Sources:"
  +:+ Text.nl +:+ sources_block sources.

Definition stream_rag_response (query tenant_id : string) : Run unit :=
  ps <- prepare query tenant_id ;;
  response_chunks <- generate (fst ps) ;;
  let response := final_response response_chunks (snd ps) in
  store_chat_history query response tenant_id.

(** What step 5 logs for a prompt. *)
Definition stream_log (formatted_prompt : string) : list event :=
  [Invoke formatted_prompt]
  ++ map Yield (fst (astream env formatted_prompt))
  ++ match snd (astream env formatted_prompt) with
     | Some e => [Log ("[ERROR] Error during LLM streaming: " +:+ message e)]
     | None => []
     end.

(** What step 6 logs, and the cluster it leaves. *)
Definition persist_log (query response tenant_id : string) : list event :=
  provision_log env (chat_history_index tenant_id)
  ++ [AddDocuments (chat_history_index tenant_id)
                   [chat_record query response tenant_id]]
  ++ match write_fault env (chat_history_index tenant_id)
                       [chat_record query response tenant_id] with
     | Some e => [Log ("[ERROR] Error storing chat history for " +:+ tenant_id
                       +:+ ": " +:+ message e)]
     | None => []
     end.

Definition persisted (query response tenant_id : string) (c : cluster) : cluster :=
  match write_fault env (chat_history_index tenant_id)
                    [chat_record query response tenant_id] with
  | Some _ => c
  | None => <[chat_history_index tenant_id :=
                contents c (chat_history_index tenant_id)
                ++ [chat_record query response tenant_id]]> c
  end.

(** [POST /ask-stream]. *)
Definition stream_response (query tenantId : string) : Run unit :=
  if decide (tenantId = "") then
    raise (HTTPException 400 "Tenant ID is required.")
  else stream_rag_response query tenantId.

Record UploadFile := {
  filename : string;
  file_bytes : list Byte.byte
}.

Definition upload_suffixes : list string := [".pdf"; ".txt"; ".docx"; ".doc"].

(** The loop of [ingest_multiple_files_api] over the uploaded files. *)
Fixpoint ingest_files (tenantId : string) (files : list UploadFile)
         (total_chunks : nat) (errors : list string)
  : Run (nat * list string) :=
  match files with
  | [] => ret (total_chunks, errors)
  | file :: rest =>
      if negb (existsb (Text.endswith (filename file)) upload_suffixes) then
        ingest_files tenantId rest total_chunks
                     (errors ++ ["Unsupported file type: " +:+ filename file])
      else
        counted <- try_except
          (chunk_count <- Ingest.ingest_file_bytes env (file_bytes file)
                            (filename file) tenantId ;;
           ret (inl chunk_count))
          (fun e =>
             tell (Log ("Error ingesting " +:+ filename file +:+ ": "
                        +:+ message e)) ;;;
             ret (inr ("Failed to ingest " +:+ filename file +:+ ": "
                       +:+ message e))) ;;
        match counted with
        | inl chunk_count =>
            ingest_files tenantId rest (total_chunks + chunk_count) errors
        | inr error => ingest_files tenantId rest total_chunks (errors ++ [error])
        end
  end.

Record IngestionReport := {
  report_message : string;
  report_total_chunks : nat;
  report_errors : list string
}.

(** [POST /ingest-multiple-files]. *)
Definition ingest_multiple_files_api (tenantId : string) (files : list UploadFile)
  : Run IngestionReport :=
  if decide (tenantId = "") then
    raise (HTTPException 400 "Tenant ID is required.")
  else
    ensure_indexes_exist tenantId ;;;
    totals <- ingest_files tenantId files 0 [] ;;
    ret {| report_message := "Ingestion completed";
           report_total_chunks := fst totals;
           report_errors := snd totals |}.

End Pipeline.

End Rag.

(** ** Sample collaborators, used to run the model on concrete inputs *)

Module Demo.
Import Py Eff Store.

Fixpoint last_dot (s : Text.chars) : option Text.chars :=
  match s with
  | [] => None
  | c :: rest =>
      match last_dot rest with
      | Some suffix => Some suffix
      | None => if Text.is_char "." c then Some (c :: rest) else None
      end
  end.

Definition lower (c : ascii) : ascii :=
  if Text.between 65 90 c then ascii_of_N (Text.code c + 32) else c.

(** The suffix of a plain file name (no directory part), lower-cased. *)
Definition plain_suffix_lower (filename : string) : string :=
  match last_dot (Text.of_string filename) with
  | Some suffix =>
      if bool_decide (1 < length suffix < length (Text.of_string filename))
      then Text.to_string (map lower suffix) else ""
  | None => ""
  end.

(** An embedding service that is unreachable on every second call: the
    state counts the calls. *)
Definition flaky_post (endpoint model prompt : string) (calls : nat)
  : result (@Embeddings.response Z) * nat :=
  (if Nat.even calls
   then Ok {| Embeddings.status_code := 200;
              Embeddings.text := "";
              Embeddings.json :=
                Ok (Embeddings.Embedding
                      (Embeddings.AList [Z.of_nat (String.length prompt); 7%Z])) |}
   else Raise (RequestException "connection refused"),
   S calls).

Definition minilm : Embeddings.OllamaEmbeddings :=
  {| Embeddings.model := "all-minilm:22m";
     Embeddings.base_url := "http://localhost:11434" |}.

Definition text_of_bytes (b : list Byte.byte) : string :=
  Text.to_string (map ascii_of_byte b).

Definition bytes_of_text (s : string) : list Byte.byte :=
  map byte_of_ascii (Text.of_string s).

(** Loaders: PDF extraction fails, text files load as one document. *)
Definition loaders_env (fault : string -> list Document -> option exn)
           (stream : string -> list string * option exn) : Env :=
  {| head_index := fun _ => Ok 404%Z;
     put_index := fun _ => Ok (200%Z, "");
     rank := fun _ docs _ k => Ok (take k docs);
     write_fault := fault;
     astream := stream;
     temp_fault := fun _ _ => None;
     temp_close_fault := fun _ => None;
     PyMuPDFLoader := fun _ => Raise (OtherError "cannot open broken document");
     TextLoader := fun b => Ok [{| page_content := text_of_bytes b;
                                   metadata := [("source", VStr "/tmp/upload.txt")] |}];
     DedocFileLoader := fun _ => Raise (OtherError "dedoc is not installed");
     split_documents := fun docs => docs;
     suffix_lower := plain_suffix_lower |}.

(** A healthy store and a model whose stream breaks after two contents. *)
Definition broken_stream_env : Env :=
  loaders_env (fun _ _ => None)
              (fun _ => (["The report"; " covers Q3 [1]"],
                         Some (OtherError "connection reset"))).

(** A healthy store and a model that answers in one piece. *)
Definition healthy_env : Env :=
  loaders_env (fun _ _ => None) (fun _ => (["No information."], None)).

(** A store that rejects every write. *)
Definition store_down_env : Env :=
  loaders_env (fun _ _ => Some (OtherError "ConnectionError: opensearch is down"))
              (fun _ => (["No information."], None)).

Definition report_chunk : Document :=
  {| page_content := "Revenue grew in Q3.";
     metadata := [("title", VStr "Annual report"); ("page", VInt 0);
                  ("source_file", VStr "report.pdf"); ("type", VStr "document")] |}.

Definition notes_chunk : Document :=
  {| page_content := "Revenue grew in Q3.";
     metadata := [("source_file", VStr "notes.txt"); ("type", VStr "document")] |}.


Definition acme_cluster : cluster :=
  {[ doc_index "acme" := [report_chunk; notes_chunk; report_chunk] ]}.

End Demo.

(** ** The shape of a normalized text *)

Module Layout.
Import Text Regex Normalizer.

Definition blank : ascii := " "%char.

(** The text goes on with a whitespace character. *)
Definition before_space (s : chars) : bool :=
  match s with
  | c :: _ => is_space c
  | [] => false
  end.

(** Every run of whitespace replaced by one blank: what
    [re.sub(r'\s+', ' ', text)] computes. *)
Fixpoint squeeze (s : chars) : chars :=
  match s with
  | [] => []
  | c :: rest =>
      if is_space c then
        if before_space rest then squeeze rest else blank :: squeeze rest
      else c :: squeeze rest
  end.

(** A blank put after every punctuation mark that no whitespace follows:
    what [re.sub(r'([.,;:!?])(?!\s)', r'\1 ', text)] computes. *)
Fixpoint pad (s : chars) : chars :=
  match s with
  | [] => []
  | c :: rest =>
      if punct c && negb (before_space rest) then c :: blank :: pad rest
      else c :: pad rest
  end.

(** Each character of the class replaced by a text: what [re.sub] computes
    for a pattern of one character class and a literal replacement. *)
Definition replace_class (cls : ascii -> bool) (by_text : chars) (s : chars) : chars :=
  flat_map (fun c => if cls c then by_text else [c]) s.

(** Whitespace is a blank, and what follows a blank is no whitespace. *)
Fixpoint spaced (s : chars) : Prop :=
  match s with
  | [] => True
  | c :: rest =>
      (is_space c = true -> c = blank /\ before_space rest = false) /\ spaced rest
  end.

(** Whitespace follows every punctuation mark. *)
Fixpoint followed (s : chars) : Prop :=
  match s with
  | [] => True
  | c :: rest => (punct c = true -> before_space rest = true) /\ followed rest
  end.

(** No whitespace at either end. *)
Definition trimmed (s : chars) : Prop :=
  (forall c, head s = Some c -> is_space c = false)
  /\ (forall c, last s = Some c -> is_space c = false).

(** The only whitespace is the blank, and no two blanks are adjacent. *)
Definition single_spaced (s : chars) : Prop :=
  (forall c, c ∈ s -> is_space c = true -> c = blank)
  /\ (forall i c d, s !! i = Some c -> s !! S i = Some d ->
                    is_space c = true -> is_space d = false).

(** Every punctuation mark is the last character or is followed by a
    blank. *)
Definition punctuation_spaced (s : chars) : Prop :=
  forall i c, s !! i = Some c -> punct c = true ->
              s !! S i = None \/ s !! S i = Some blank.

(** The characters that [clean_text] lets through. *)
Definition basic (c : ascii) : bool :=
  is_word c || is_char blank c || one_of ".,;:!?-" c.

Definition technical (c : ascii) : bool :=
  is_word c || is_char blank c || one_of ".,;:!?-$%@#&+*=<>/" c.

(** The characters that [clean_text] turns into a blank: those outside
    the bracket of the pattern in use. *)
Definition unlisted (preserve : bool) (c : ascii) : bool :=
  if preserve
  then negb (is_word c || is_space c || one_of ".,;:!?-$%@#&+*=<>/" c)
  else negb (is_word c || is_space c || one_of ".,;:!?-" c).

(** A character of a hyphenated compound. *)
Definition in_compound (c : ascii) : Prop := is_word c = true \/ c = "-"%char.

End Layout.

(** ** What travels between the embedding client and the service *)

Module Wire.
Import Py Eff Embeddings.

(** The vector carried by a reply that [_embed] accepts: status 200 and a
    body whose key [embedding] holds a non-empty list. *)
Definition usable {F : Type} (reply : result (@response F)) : option (list F) :=
  match reply with
  | Ok response =>
      if decide (status_code response = 200%Z) then
        match json response with
        | Ok (Embedding (AList (x :: v))) => Some (x :: v)
        | _ => None
        end
      else None
  | Raise _ => None
  end.

(** The requests recorded in a log of the client: endpoint, model and
    prompt. *)
Definition requests (log : list call) : list (string * string * string) :=
  omap (fun c => match c with
                 | Post endpoint model prompt => Some (endpoint, model, prompt)
                 | LogLine _ _ => None
                 end) log.

(** A text without any character other than whitespace. *)
Definition is_blank (text : string) : bool :=
  bool_decide (Text.str_strip text = "").

End Wire.

(** ** The pipeline, seen from outside *)

Module Outline.
Import Py Eff Store Ingest Rag.

(** The index creations recorded in a log: index name and vector
    dimension. *)
Definition creations (log : list event) : list (string * nat) :=
  omap (fun e => match e with
                 | PutIndex index_name dimension => Some (index_name, dimension)
                 | _ => None
                 end) log.

(** The existence check found the index: [HEAD /<index>] answered 200. *)
Definition index_found (reply : result Z) : bool :=
  match reply with
  | Ok status_code => bool_decide (status_code = 200%Z)
  | Raise _ => false
  end.

(** What the cleaning loop of [load_and_split] makes of one document:
    nothing when its normalized text is empty. *)
Definition normalized (doc : Document) : option Document :=
  let cleaned_content := Normalizer.clean_text (page_content doc) false in
  if decide (cleaned_content = "") then None
  else Some {| page_content := cleaned_content; metadata := metadata doc |}.

(** A metadata value that the cleaning of [ingest_file_bytes] keeps. *)
Definition keeps (v : value) : bool :=
  match v with
  | VNone => false
  | VStr s => negb (bool_decide (Text.str_strip s = ""))
  | _ => true
  end.

(** The slice [chunks[i:i + BATCH_SIZE]], and the slices of a whole
    list. *)
Definition batch_at (chunks : list Document) (i : nat) : list Document :=
  take BATCH_SIZE (drop i chunks).

Definition batches (chunks : list Document) : list (list Document) :=
  map (batch_at chunks) (range_step (length chunks) BATCH_SIZE).

Section Writes.
Context (env : Env) (index_name : string).

(** Of a sequence of batches written in order: the exception of the first
    rejected one, the batches accepted before it, and the batches handed
    to the store (the accepted ones and the rejected one). *)
Fixpoint rejection (bs : list (list Document)) : option exn :=
  match bs with
  | [] => None
  | b :: rest =>
      match write_fault env index_name b with
      | Some e => Some e
      | None => rejection rest
      end
  end.

Fixpoint accepted (bs : list (list Document)) : list (list Document) :=
  match bs with
  | [] => []
  | b :: rest =>
      match write_fault env index_name b with
      | Some _ => []
      | None => b :: accepted rest
      end
  end.

Fixpoint sent (bs : list (list Document)) : list (list Document) :=
  match bs with
  | [] => []
  | b :: rest =>
      b :: match write_fault env index_name b with
           | Some _ => []
           | None => sent rest
           end
  end.

End Writes.

Section Loading.
Context (env : Env).

(** The documents that [load_and_split] normalizes: the loader's, or the
    one fallback document when the loader raised; and what it logs. *)
Definition extracted (file_bytes : list Byte.byte) (filename : string)
  : list Document :=
  match load_documents env file_bytes filename with
  | Ok docs => docs
  | Raise e => [fallback_document filename e]
  end.

Definition load_log (file_bytes : list Byte.byte) (filename : string)
  : list event :=
  match load_documents env file_bytes filename with
  | Ok _ => []
  | Raise e => [Log ("Error loading " +:+ filename +:+ ": " +:+ message e)]
  end.

(** The chunks that [load_and_split] returns. *)
Definition chunks_of (file_bytes : list Byte.byte) (filename : string)
  : list Document :=
  match omap normalized (extracted file_bytes filename) with
  | [] => []
  | processed_docs => split_documents env processed_docs
  end.

End Loading.

(** The text that [get_relevant_history] makes of the records found. *)
Definition history_of (docs : list Document) : string :=
  match docs with
  | [] => no_history
  | _ => "Relevant previous conversations:" +:+ Text.nl
         +:+ Text.str_join Text.nl (map page_content docs)
  end.

(** The message of [page + 1] on a text. *)
Definition text_page_error : exn :=
  TypeError ("can only concatenate str (not " +:+ dq +:+ "int" +:+ dq
             +:+ ") to str").

End Outline.

(** ** [ollama_multimodel.py]: the streaming client of the image model *)

Module Multimodal.
Import Py Eff.

(** [OllamaMultimodal]. *)
Record OllamaMultimodal := {
  model : string;
  api_url : string
}.

(** The argument [images_data]: one base64 string, or a list of them. *)
Inductive images_arg :=
| OneImage (image : string)
| Images (images : list string).

(** The JSON body of the request. *)
Record payload := {
  payload_model : string;
  payload_prompt : string;
  payload_images : list string;
  payload_stream : bool
}.

(** The reply of the model server: the status, the body as a text (read
    only on an error status; reading may raise), and the body as lines,
    with the exception that ends the iteration if it does not end
    normally. *)
Record reply := {
  status : Z;
  text : result string;
  content : list (list Byte.byte) * option exn
}.

(** [json.loads(line_str)]: a value, a [JSONDecodeError], or another
    exception. *)
Inductive parsed (Value : Type) :=
| Parsed (v : Value)
| JSONDecodeError (msg : string)
| Failed (e : exn).
Arguments Parsed {Value} v.
Arguments JSONDecodeError {Value} msg.
Arguments Failed {Value} e.

Section Client.
(** The decoded JSON values, and the state of the model server. *)
Context {Value Remote : Type}.

(** The Python runtime and the libraries, on the values they produce:
    - [line.decode('utf-8')];
    - [json.loads];
    - the entries of a value that is a JSON object;
    - the truth value of a value;
    - the exception raised by the loop body on a value that is no object
      (the [TypeError] of [in] or of the subscript, or the
      [AttributeError] of [.get]). *)
Context (decode_utf8 : list Byte.byte -> result string).
Context (json_loads : string -> parsed Value).
Context (fields_of : Value -> option (dict Value)).
Context (truth : Value -> bool).
Context (misuse : Value -> exn).

(** [session.post(api_url, json=payload, headers=...)]. *)
Context (session_post : string -> payload -> Remote -> result reply * Remote).

(** What the client does: the request it sends, the values it yields,
    the text chunks of the endpoint, and the lines it prints. *)
Inductive event :=
| Post (api_url : string) (body : payload)
| Chunk (response : Value)
| TextChunk (content : string)
| Print (line : string).

Definition post (api_url : string) (body : payload) : M Remote event reply :=
  fun r =>
    match session_post api_url body r with
    | (resp, r') => (resp, r', [Post api_url body])
    end.

(** One round of [async for line in resp.content]; the result tells
    whether the loop is left by [break]. *)
Definition read_line (line : list Byte.byte) : M Remote event bool :=
  if decide (line = []) then ret false
  else
    try_except
      (decoded <- lift (decode_utf8 line) ;;
       let line_str := Text.str_strip decoded in
       if decide (line_str = "") then ret false
       else
         match json_loads line_str with
         | JSONDecodeError _ => ret false
         | Failed e => raise e
         | Parsed response_data =>
             match fields_of response_data with
             | None => raise (misuse response_data)
             | Some fields =>
                 match lookup fields "response" with
                 | Some response => tell (Chunk response)
                 | None => ret tt
                 end ;;;
                 ret (match lookup fields "done" with
                      | Some done => truth done
                      | None => false
                      end)
             end
         end)
      (fun e =>
         tell (Print ("Error processing chunk: " +:+ message e)) ;;;
         ret false).

Fixpoint read_lines (lines : list (list Byte.byte)) : M Remote event bool :=
  match lines with
  | [] => ret false
  | line :: rest =>
      stop <- read_line line ;;
      if (stop : bool) then ret true else read_lines rest
  end.

(** [OllamaMultimodal.stream]. *)
Definition stream (self : OllamaMultimodal) (images_data : images_arg)
           (prompt : string) : M Remote event unit :=
  let images_data := match images_data with
                     | OneImage image => [image]
                     | Images images => images
                     end in
  let body := {| payload_model := model self;
                 payload_prompt := prompt;
                 payload_images := images_data;
                 payload_stream := true |} in
  resp <- post (api_url self) body ;;
  if decide (status resp ≠ 200%Z) then
    error_text <- lift (text resp) ;;
    raise (OtherError ("Ollama API error: " +:+ pretty (status resp) +:+ " - "
                       +:+ error_text))
  else
    stopped <- read_lines (fst (content resp)) ;;
    if (stopped : bool) then ret tt
    else
      match snd (content resp) with
      | Some e => raise e
      | None => ret tt
      end.

(** The entries of the JSON object that a line of the body holds, when
    it holds one. *)
Definition object_of (line : list Byte.byte) : option (dict Value) :=
  match line with
  | [] => None
  | _ =>
      match decode_utf8 line with
      | Ok decoded =>
          if decide (Text.str_strip decoded = "") then None
          else
            match json_loads (Text.str_strip decoded) with
            | Parsed response_data => fields_of response_data
            | _ => None
            end
      | Raise _ => None
      end
  end.

(** The line ends the stream: its object has a true [done]. *)
Definition is_last (line : list Byte.byte) : bool :=
  match object_of line with
  | Some fields =>
      match lookup fields "done" with
      | Some done => truth done
      | None => false
      end
  | None => false
  end.

(** The values under [response] in the objects of the lines, up to and
    including the first line that ends the stream. *)
Fixpoint responses (lines : list (list Byte.byte)) : list Value :=
  match lines with
  | [] => []
  | line :: rest =>
      match object_of line with
      | Some fields =>
          match lookup fields "response" with
          | Some response => [response]
          | None => []
          end
      | None => []
      end ++ if is_last line then [] else responses rest
  end.

(** The values yielded, as recorded in a log. *)
Definition chunks (log : list event) : list Value :=
  omap (fun e => match e with Chunk response => Some response | _ => None end) log.

(** The requests sent, as recorded in a log. *)
Definition posts (log : list event) : list (string * payload) :=
  omap (fun e => match e with Post url body => Some (url, body) | _ => None end) log.

(** *** [main.py]: the image endpoint *)

(** An uploaded image: its file name, if it has one, and what reading
    it gives. *)
Record ImageUpload := {
  image_filename : option string;
  image_read : result (list Byte.byte)
}.

(** [base64.b64encode(image_bytes).decode('utf-8')]. *)
Context (b64encode : list Byte.byte -> string).

Definition multimodal_llm : OllamaMultimodal :=
  {| model := "gemma3:4b"; api_url := "http://localhost:11434/api/generate" |}.

(** The loop of [ask_image] over the uploaded images. *)
Fixpoint encode_images (images : list ImageUpload) (images_data : list string)
  : result (list string) :=
  match images with
  | [] => Ok images_data
  | file :: rest =>
      match image_filename file with
      | None | Some "" => encode_images rest images_data
      | Some _ =>
          match image_read file with
          | Ok image_bytes =>
              encode_images rest (images_data ++ [b64encode image_bytes])
          | Raise e => Raise e
          end
      end
  end.

(** The checks of [ask_image], up to the creation of the response. *)
Definition checked_images (query : string) (images : list ImageUpload)
  : result (list string) :=
  if decide (Text.str_strip query = "") then
    Raise (HTTPException 400 "Query is required")
  else
    match images with
    | [] => Raise (HTTPException 400 "At least one image is required")
    | _ =>
        match encode_images images [] with
        | Ok [] => Raise (HTTPException 400 "No valid images found")
        | Ok images_data => Ok images_data
        | Raise e => Raise e
        end
    end.

(** The [except] clauses of [ask_image]. *)
Definition as_http_error {A} (r : result A) : result A :=
  match r with
  | Ok a => Ok a
  | Raise (HTTPException status_code detail) =>
      Raise (HTTPException status_code detail)
  | Raise e => Raise (HTTPException 500 ("Server error: " +:+ message e))
  end.

(** [generate_response]: the chunks of the model, then one text chunk
    for the exception that ended the stream, if any. *)
Definition generate_response (images_data : list string) (query : string)
  : M Remote event unit :=
  try_except (stream multimodal_llm (Images images_data) query)
             (fun e => tell (TextChunk ("Error: " +:+ message e))).

(** [POST /ask-image]: the checks, then the body of the streaming
    response. *)
Definition ask_image (query : string) (images : list ImageUpload)
  : M Remote event unit :=
  images_data <- lift (as_http_error (checked_images query images)) ;;
  generate_response images_data query.

End Client.

End Multimodal.

(** ** More sample collaborators *)

Module Samples.
Import Py Eff Store.

(** A chunk whose page number is a text. *)
Definition text_page_chunk : Document :=
  {| page_content := "Costs fell in Q3.";
     metadata := [("title", VStr "Ledger"); ("page", VStr "3")] |}.

Definition ledger_cluster : cluster :=
  {[ doc_index "acme" := [Demo.report_chunk; text_page_chunk] ]}.

(** Metadata as a loader may leave it: a blank title, no author. *)
Definition raw_chunk : Document :=
  {| page_content := "  Revenue   grew  ";
     metadata := [("title", VStr "  "); ("author", VNone); ("page", VInt 4);
                  ("source_file", VStr "/tmp/tmpab12.pdf")] |}.

(** A chunker that cuts every document into 150 chunks, and a store that
    accepts full batches only. *)
Definition full_batches_env : Env :=
  {| head_index := fun _ => Ok 200%Z;
     put_index := fun _ => Ok (200%Z, "");
     rank := fun _ docs _ k => Ok (take k docs);
     write_fault := fun _ batch =>
       if decide (length batch = 100) then None
       else Some (OtherError "RequestError(400, 'partial batch')");
     astream := fun _ => (["No information."], None);
     temp_fault := fun _ _ => None;
     temp_close_fault := fun _ => None;
     PyMuPDFLoader := fun _ => Raise (OtherError "cannot open broken document");
     TextLoader := fun b => Ok [{| page_content := Demo.text_of_bytes b;
                                   metadata := [("source", VStr "/tmp/upload.txt")] |}];
     DedocFileLoader := fun _ => Raise (OtherError "dedoc is not installed");
     split_documents := fun docs => flat_map (replicate 150) docs;
     suffix_lower := Demo.plain_suffix_lower |}.

(** An index that exists already. *)
Definition present_env : Env :=
  {| head_index := fun _ => Ok 200%Z;
     put_index := fun _ => Raise (OtherError "unreachable");
     rank := fun _ docs _ k => Ok (take k docs);
     write_fault := fun _ _ => None;
     astream := fun _ => (["No information."], None);
     temp_fault := fun _ _ => None;
     temp_close_fault := fun _ => None;
     PyMuPDFLoader := fun _ => Raise (OtherError "cannot open broken document");
     TextLoader := fun b => Ok [{| page_content := Demo.text_of_bytes b;
                                   metadata := [("source", VStr "/tmp/upload.txt")] |}];
     DedocFileLoader := fun _ => Raise (OtherError "dedoc is not installed");
     split_documents := fun docs => docs;
     suffix_lower := Demo.plain_suffix_lower |}.

(** A model whose stream breaks after two contents and a store that
    rejects every write. *)
Definition outage_env : Env :=
  Demo.loaders_env
    (fun _ _ => Some (OtherError "ConnectionError: opensearch is down"))
    (fun _ => (["The report"; " covers Q3 [1]"],
               Some (OtherError "connection reset"))).

(** A file system that refuses file names of more than 255 characters. *)
Definition strict_names_env : Env :=
  {| head_index := fun _ => Ok 200%Z;
     put_index := fun _ => Ok (200%Z, "");
     rank := fun _ docs _ k => Ok (take k docs);
     write_fault := fun _ _ => None;
     astream := fun _ => (["No information."], None);
     temp_fault := fun suffix _ =>
       if bool_decide (255 < String.length suffix + 11)
       then Some (OtherError "[Errno 36] File name too long")
       else None;
     temp_close_fault := fun _ => None;
     PyMuPDFLoader := fun _ => Raise (OtherError "cannot open broken document");
     TextLoader := fun b => Ok [{| page_content := Demo.text_of_bytes b;
                                   metadata := [("source", VStr "/tmp/upload.txt")] |}];
     DedocFileLoader := fun _ => Raise (OtherError "dedoc is not installed");
     split_documents := fun docs => docs;
     suffix_lower := Demo.plain_suffix_lower |}.

(** *** A model server for the image client *)

(** The decoded values of the sample: texts, flags, and objects with at
    most the keys [response] (a text) and [done] (a flag). *)
Inductive json :=
| JText (s : string)
| JFlag (b : bool)
| JObject (response : option string) (done : option bool).

Definition fields_of (v : json) : option (dict json) :=
  match v with
  | JObject response done =>
      Some (match response with Some s => [("response", JText s)] | None => [] end
            ++ match done with Some b => [("done", JFlag b)] | None => [] end)
  | _ => None
  end.

Definition truth (v : json) : bool :=
  match v with
  | JText s => negb (String.eqb s "")
  | JFlag b => b
  | JObject None None => false
  | JObject _ _ => true
  end.

Definition misuse (v : json) : exn :=
  match v with
  | JText _ => TypeError "string indices must be integers, not 'str'"
  | JFlag _ => TypeError "argument of type 'bool' is not iterable"
  | JObject _ _ => OtherError ""
  end.

Definition decode_utf8 (line : list Byte.byte) : result string :=
  Ok (Demo.text_of_bytes line).

(** Three lines of a reply, in a notation of the sample's own: a part of
    the answer, the closing line, and a line that is no JSON. *)
Definition json_loads (line_str : string) : Multimodal.parsed json :=
  if String.eqb line_str "part A cat" then
    Multimodal.Parsed (JObject (Some "A cat") (Some false))
  else if String.eqb line_str "part on a mat" then
    Multimodal.Parsed (JObject (Some " on a mat") None)
  else if String.eqb line_str "done" then
    Multimodal.Parsed (JObject (Some ".") (Some true))
  else if String.eqb line_str "true" then Multimodal.Parsed (JFlag true)
  else Multimodal.JSONDecodeError "Expecting value".

Definition body_lines : list (list Byte.byte) :=
  map Demo.bytes_of_text
      ["part A cat"; ""; "{broken"; "true"; "part on a mat"; "done"; "part ignored"].

(** A server that answers 200 with the lines above while it has capacity
    (the state counts the requests left), and 503 after that. *)
Definition session_post (api_url : string) (body : Multimodal.payload)
           (capacity : nat) : result Multimodal.reply * nat :=
  match capacity with
  | 0 => (Ok {| Multimodal.status := 503;
                Multimodal.text := Ok "model is loading";
                Multimodal.content := ([], None) |}, 0)
  | S remaining => (Ok {| Multimodal.status := 200;
                     Multimodal.text := Ok "";
                     Multimodal.content := (body_lines, None) |}, remaining)
  end.

Definition b64encode (image_bytes : list Byte.byte) : string :=
  "b64:" +:+ pretty (length image_bytes).

Definition photo : Multimodal.ImageUpload :=
  {| Multimodal.image_filename := Some "cat.png";
     Multimodal.image_read := Ok (Demo.bytes_of_text "PNG....") |}.

Definition unnamed_photo : Multimodal.ImageUpload :=
  {| Multimodal.image_filename := None;
     Multimodal.image_read := Ok (Demo.bytes_of_text "PNG....") |}.

End Samples.

(** * Properties *)

(** ** Facts about the text primitives *)

Module TextFacts.
Import Text.

Lemma to_of_string (s : string) : to_string (of_string s) = s.
Proof. apply string_of_list_ascii_of_string. Qed.

Lemma of_to_string (l : chars) : of_string (to_string l) = l.
Proof. apply list_ascii_of_string_of_list_ascii. Qed.

Lemma of_string_app (a b : string) :
  of_string (a +:+ b) = of_string a ++ of_string b.
Proof.
  unfold of_string. induction a as [|c a IH]; [reflexivity|].
  change (String c a +:+ b) with (String c (a +:+ b)).
  simpl. by rewrite IH.
Qed.

Lemma append_assoc (a b c : string) : (a +:+ b) +:+ c = a +:+ (b +:+ c).
Proof.
  induction a as [|x a IH]; [reflexivity|].
  change (String x a +:+ b) with (String x (a +:+ b)).
  change (String x (a +:+ b) +:+ c) with (String x ((a +:+ b) +:+ c)).
  by rewrite IH.
Qed.

Lemma to_string_empty (l : chars) : to_string l = "" -> l = [].
Proof. by destruct l. Qed.

Lemma word_not_space (c : ascii) : is_word c = true -> is_space c = false.
Proof. destruct c as [[] [] [] [] [] [] [] []]; vm_compute; congruence. Qed.

Lemma keep_words_spaces (s : chars) :
  Forall (fun c => is_space c = true) s -> keep_words s = [].
Proof.
  induction 1 as [|c s Hc _ IH]; [reflexivity|].
  unfold keep_words in *. simpl. destruct (is_word c) eqn:Hw; [|exact IH].
  apply word_not_space in Hw. congruence.
Qed.

Lemma keep_words_app (a b : chars) :
  keep_words (a ++ b) = keep_words a ++ keep_words b.
Proof. apply List.filter_app. Qed.

Lemma keep_words_rev (s : chars) : keep_words (rev s) = rev (keep_words s).
Proof.
  induction s as [|c s IH]; [reflexivity|].
  simpl. rewrite keep_words_app, IH. unfold keep_words. simpl.
  destruct (is_word c); simpl; [reflexivity|by rewrite app_nil_r].
Qed.

Lemma keep_words_lstrip (s : chars) : keep_words (lstrip s) = keep_words s.
Proof.
  induction s as [|c s IH]; [reflexivity|].
  simpl. destruct (is_space c) eqn:Hs; [|reflexivity].
  rewrite IH. unfold keep_words. simpl.
  destruct (is_word c) eqn:Hw; [|reflexivity].
  apply word_not_space in Hw. congruence.
Qed.

Lemma keep_words_strip (s : chars) : keep_words (strip s) = keep_words s.
Proof.
  unfold strip.
  by rewrite keep_words_rev, keep_words_lstrip, keep_words_rev, rev_involutive,
    keep_words_lstrip.
Qed.

(** Splitting on whitespace keeps exactly the non-whitespace characters. *)
Lemma concat_split (s : chars) :
  concat (split s) = List.filter (fun c => negb (is_space c)) s.
Proof.
  induction s as [|c s IH]; [reflexivity|].
  simpl. destruct (is_space c); simpl; [exact IH|].
  destruct (starts_with_space s); simpl; [by rewrite IH|].
  rewrite <- IH. destruct (split s); reflexivity.
Qed.

Lemma keep_words_join (sep : chars) (parts : list chars) :
  keep_words sep = [] -> keep_words (join sep parts) = keep_words (concat parts).
Proof.
  intros Hsep. induction parts as [|p ps IH]; [reflexivity|].
  destruct ps as [|q ps].
  - simpl. by rewrite app_nil_r.
  - change (join sep (p :: q :: ps)) with (p ++ sep ++ join sep (q :: ps)).
    change (concat (p :: q :: ps)) with (p ++ concat (q :: ps)).
    by rewrite !keep_words_app, Hsep, IH.
Qed.

Lemma keep_words_non_space (s : chars) :
  keep_words (List.filter (fun c => negb (is_space c)) s) = keep_words s.
Proof.
  induction s as [|c s IH]; [reflexivity|].
  unfold keep_words in *. simpl.
  destruct (is_space c) eqn:Hs; simpl.
  - destruct (is_word c) eqn:Hw; [|exact IH].
    apply word_not_space in Hw. congruence.
  - destruct (is_word c); by rewrite IH.
Qed.

Lemma keep_words_collapse (s : chars) : keep_words (collapse s) = keep_words s.
Proof.
  unfold collapse.
  rewrite keep_words_join by reflexivity.
  by rewrite concat_split, keep_words_non_space.
Qed.

Lemma to_string_app (a b : chars) : to_string (a ++ b) = to_string a +:+ to_string b.
Proof. induction a as [|c a IH]; [reflexivity|]. simpl. by rewrite IH. Qed.

Lemma split_spaces (ws rest : chars) :
  all_of is_space ws -> split (ws ++ rest) = split rest.
Proof.
  induction 1 as [|c ws Hc _ IH]; [reflexivity|]. simpl. by rewrite Hc.
Qed.

Lemma split_token (t rest : chars) :
  t <> [] -> Forall (fun c => is_space c = false) t ->
  starts_with_space rest = true ->
  split (t ++ rest) = t :: split rest.
Proof.
  intros Hne Ht Hrest. induction Ht as [|c t Hc Ht IH]; [done|].
  simpl. rewrite Hc. destruct t as [|d t].
  - simpl. by rewrite Hrest.
  - inversion Ht as [|? ? Hd _]; subst.
    change (starts_with_space ((d :: t) ++ rest)) with (is_space d).
    rewrite Hd, IH by done. reflexivity.
Qed.

Lemma strip_words (s : chars) : all_of is_word s -> strip s = s.
Proof.
  assert (forall l, all_of is_word l -> lstrip l = l) as Hl.
  { intros l [|c l' Hc _]; [reflexivity|]. simpl.
    by rewrite (word_not_space c Hc). }
  intros Hs. unfold strip. rewrite (Hl s Hs), Hl, rev_involutive; [done|].
  by apply Forall_rev.
Qed.

End TextFacts.

(** ** Facts about the pattern matcher *)

Module RegexFacts.
Import Text Regex TextFacts.

Lemma many_sound {R} cls (k : chars -> option R) s run r :
  many cls k s = Some (run, r) ->
  exists rest, s = run ++ rest /\ k rest = Some r /\ run <> []
               /\ Forall (fun c => cls c = true) run.
Proof.
  revert run r. induction s as [|c s IH]; intros run r; simpl; [discriminate|].
  destruct (cls c) eqn:Hc; [|discriminate].
  destruct (many cls k s) as [[run' r']|] eqn:Hm.
  - intros [= <- <-]. destruct (IH _ _ eq_refl) as (rest & -> & Hk & _ & Hall).
    exists rest. repeat split; auto; discriminate.
  - destruct (k s) as [r'|] eqn:Hk; [|discriminate].
    intros [= <- <-]. exists s. repeat split; auto; discriminate.
Qed.

(** A match splits the text into the matched segments and the rest, and
    each segment belongs to the class of its atom. *)
Lemma match_here_sound p s segs r :
  match_here p s = Some (segs, r) ->
  s = matched segs ++ r /\ Forall2 fits p segs.
Proof.
  revert s segs r. induction p as [|[cap a] p IH]; intros s segs r; simpl.
  - intros [= <- <-]. split; [reflexivity|constructor].
  - destruct a as [cls|cls|cls].
    + destruct s as [|c s]; [discriminate|].
      destruct (cls c) eqn:Hc; [|discriminate].
      destruct (match_here p s) as [[segs' r']|] eqn:Hm; [|discriminate].
      intros [= <- <-]. destruct (IH _ _ _ Hm) as [-> Hfit].
      split; [reflexivity|]. constructor; [|exact Hfit].
      split; [reflexivity|]. simpl. eauto.
    + destruct (many cls (match_here p) s) as [[run [segs' r']]|] eqn:Hm;
        [|discriminate].
      intros [= <- <-].
      destruct (many_sound _ _ _ _ _ Hm) as (rest & -> & Hk & Hne & Hall).
      destruct (IH _ _ _ Hk) as [-> Hfit].
      split; [unfold matched; simpl; by rewrite app_assoc|].
      constructor; [|exact Hfit]. split; [reflexivity|]. simpl. auto.
    + assert (forall segs0 r0,
                 match match_here p s with
                 | Some (segs', r') => Some ((cap, []) :: segs', r')
                 | None => None
                 end = Some (segs0, r0) ->
                 s = matched segs0 ++ r0 /\
                 Forall2 fits ((cap, NotBefore cls) :: p) segs0) as Hrest.
      { intros segs0 r0.
        destruct (match_here p s) as [[segs' r']|] eqn:Hm; [|discriminate].
        intros [= <- <-]. destruct (IH _ _ _ Hm) as [Heq Hfit].
        split; [exact Heq|]. constructor; [|exact Hfit]. by split. }
      destruct s as [|c s]; [apply Hrest|].
      destruct (cls c); [discriminate|apply Hrest].
Qed.

(** Substitution preserves the word characters as soon as every expansion
    preserves those of the match it replaces. *)
Lemma keep_words_sub_from fuel p t s :
  (forall s' segs r, match_here p s' = Some (segs, r) ->
                     keep_words (expand t segs) = keep_words (matched segs)) ->
  keep_words (sub_from fuel p t s) = keep_words s.
Proof.
  intros Hexp. revert s. induction fuel as [|fuel IH]; intros s; [reflexivity|].
  simpl. destruct s as [|c s]; [reflexivity|].
  destruct (match_here p (c :: s)) as [[segs r]|] eqn:Hm.
  - destruct (match_here_sound _ _ _ _ Hm) as [Heq _].
    rewrite Heq, !keep_words_app, IH. f_equal. eauto.
  - change (c :: sub_from fuel p t s) with ([c] ++ sub_from fuel p t s).
    change (c :: s) with ([c] ++ s). by rewrite !keep_words_app, IH.
Qed.

Lemma keep_words_sub p t s :
  (forall s' segs r, match_here p s' = Some (segs, r) ->
                     keep_words (expand t segs) = keep_words (matched segs)) ->
  keep_words (sub p t s) = keep_words s.
Proof. apply keep_words_sub_from. Qed.

Lemma many_longest {R} (cls : ascii -> bool) (k : chars -> option R)
      (run rest : chars) (r : R) :
  run <> [] -> all_of cls run ->
  match rest with c :: _ => cls c = false | [] => True end ->
  k rest = Some r ->
  many cls k (run ++ rest) = Some (run, r).
Proof.
  intros Hne Hrun Hrest Hk.
  assert (many cls k rest = None) as Hstop.
  { destruct rest as [|c rest]; [reflexivity|]. simpl. by rewrite Hrest. }
  induction Hrun as [|c run Hc Hrun IH]; [done|].
  simpl. rewrite Hc. destruct run as [|d run].
  - simpl. by rewrite Hstop, Hk.
  - by rewrite IH.
Qed.

Lemma many_all {R} (cls : ascii -> bool) (k : chars -> option R)
      (run : chars) (r : R) :
  run <> [] -> all_of cls run -> k [] = Some r ->
  many cls k run = Some (run, r).
Proof.
  intros Hne Hrun Hk. rewrite <- (app_nil_r run) at 1. by apply many_longest.
Qed.

Lemma sub_from_nil (fuel : nat) (p : pattern) (t : template) :
  sub_from fuel p t [] = [].
Proof. by destruct fuel. Qed.

(** Where the pattern matches at no word character, a text of word
    characters is left as it is. *)
Lemma sub_from_words (fuel : nat) (p : pattern) (t : template) (s : chars) :
  (forall c s', is_word c = true -> match_here p (c :: s') = None) ->
  all_of is_word s -> sub_from fuel p t s = s.
Proof.
  intros Hp Hs. revert fuel. induction Hs as [|c s Hc _ IH]; intros fuel.
  - apply sub_from_nil.
  - destruct fuel as [|fuel]; [reflexivity|]. simpl.
    rewrite (Hp c s Hc). by rewrite IH.
Qed.

(** When every match consumes a character, the substitution does not
    depend on the fuel, as soon as there is one unit per character. *)
Lemma sub_from_enough (p : pattern) (t : template) :
  (forall s segs r, match_here p s = Some (segs, r) -> length r < length s) ->
  forall fuel fuel' s,
    length s <= fuel -> length s <= fuel' ->
    sub_from fuel p t s = sub_from fuel' p t s.
Proof.
  intros Hp. induction fuel as [|fuel IH]; intros fuel' s Hf Hf'.
  - destruct s; [|simpl in Hf; lia]. by rewrite !sub_from_nil.
  - destruct s as [|c s]; [by rewrite !sub_from_nil|].
    destruct fuel' as [|fuel']; [simpl in Hf'; lia|].
    simpl in Hf, Hf'. cbn [sub_from].
    destruct (match_here p (c :: s)) as [[segs r]|] eqn:Hm.
    + apply Hp in Hm. simpl in Hm. f_equal. apply IH; lia.
    + f_equal. apply IH; lia.
Qed.

Lemma consumed (p : pattern) (s : chars) (segs : segments) (r : chars) :
  match_here p s = Some (segs, r) -> length s = length (matched segs) + length r.
Proof.
  intros H. apply match_here_sound in H as [-> _]. apply length_app.
Qed.

End RegexFacts.

(** ** Facts about the normalizer *)

Module NormalizerFacts.
Import Text Regex Normalizer TextFacts RegexFacts.

Lemma keep_words_not_word (c : ascii) : is_word c = false -> keep_words [c] = [].
Proof. intros H. unfold keep_words. simpl. by rewrite H. Qed.

Lemma hyphen_not_word (c : ascii) : is_char "-" c = true -> is_word c = false.
Proof. unfold is_char. destruct (decide (c = "-"%char)) as [->|]; by intros. Qed.

Ltac segments_of H :=
  apply match_here_sound in H as [_ H];
  repeat match goal with
         | F : Forall2 fits _ _ |- _ => inversion F; clear F; subst
         | F : fits _ (_, _) |- _ => destruct F as [? F]; simpl in *; subst
         | F : fits _ ?seg |- _ => destruct seg
         | F : exists _, _ |- _ => destruct F as [? F]
         | F : _ /\ _ |- _ => destruct F
         end; subst.

Lemma keep_words_cons (c : ascii) (s : chars) :
  keep_words (c :: s) = keep_words [c] ++ keep_words s.
Proof. apply (keep_words_app [c] s). Qed.

Ltac drop_non_words :=
  unfold expand, matched, groups; simpl;
  rewrite ?app_nil_r;
  repeat match goal with
         | |- context [keep_words (_ ++ _)] => rewrite keep_words_app
         | |- context [keep_words (?c :: ?s)] =>
             lazymatch s with
             | [] => fail
             | _ => rewrite (keep_words_cons c s)
             end
         end;
  repeat match goal with
         | F : Forall (fun c => is_space c = true) ?l |- _ =>
             rewrite (keep_words_spaces l F); clear F
         | F : is_char "-" ?x = true |- _ =>
             rewrite (keep_words_not_word x (hyphen_not_word x F)); clear F
         end;
  rewrite ?app_nil_r; simpl.

Lemma hyphen_wrap_keeps s segs r :
  match_here hyphen_wrap s = Some (segs, r) ->
  keep_words (expand [Group 1; Group 2] segs) = keep_words (matched segs).
Proof.
  intros H. unfold hyphen_wrap in H. segments_of H.
  by drop_non_words.
Qed.

Lemma special_keeps (cls : ascii -> bool) s segs r :
  (forall c, cls c = true -> is_word c = false) ->
  match_here [(false, One cls)] s = Some (segs, r) ->
  keep_words (expand [Lit space] segs) = keep_words (matched segs).
Proof.
  intros Hcls H. segments_of H.
  unfold expand, matched. simpl.
  symmetry. apply keep_words_not_word. auto.
Qed.

Lemma space_before_punct_keeps s segs r :
  match_here space_before_punct s = Some (segs, r) ->
  keep_words (expand [Group 1] segs) = keep_words (matched segs).
Proof.
  intros H. unfold space_before_punct in H. segments_of H.
  by drop_non_words.
Qed.

Lemma punct_not_spaced_keeps s segs r :
  match_here punct_not_spaced s = Some (segs, r) ->
  keep_words (expand [Group 1; Lit space] segs) = keep_words (matched segs).
Proof.
  intros H. unfold punct_not_spaced in H. segments_of H.
  by drop_non_words.
Qed.

Lemma spaces_keeps s segs r :
  match_here spaces s = Some (segs, r) ->
  keep_words (expand [Lit space] segs) = keep_words (matched segs).
Proof.
  intros H. unfold spaces in H. segments_of H.
  by drop_non_words.
Qed.

(** The normalizer neither drops, adds nor reorders word characters. *)
Lemma clean_chars_keeps_words (preserve : bool) (text : chars) :
  keep_words (clean_chars preserve text) = keep_words text.
Proof.
  unfold clean_chars. destruct text as [|c text]; [reflexivity|].
  rewrite keep_words_strip.
  rewrite (keep_words_sub spaces) by apply spaces_keeps.
  rewrite (keep_words_sub punct_not_spaced) by apply punct_not_spaced_keeps.
  rewrite (keep_words_sub space_before_punct) by apply space_before_punct_keeps.
  assert (forall t, keep_words
            (if preserve then sub not_technical [Lit space] t
             else sub not_basic [Lit space] t) = keep_words t) as ->.
  { intros t. destruct preserve; apply keep_words_sub; intros s' segs r;
      apply special_keeps; intros c0; destruct (is_word c0); by simpl. }
  rewrite (keep_words_sub hyphen_wrap) by apply hyphen_wrap_keeps.
  apply (keep_words_collapse (c :: text)).
Qed.

(** A text with a word character does not normalize to the empty text,
    and stripping the result once more leaves it non-empty. *)
Lemma clean_text_not_blank (text : string) :
  keep_words (of_string text) <> [] ->
  clean_text text false <> "" /\ str_strip (clean_text text false) <> "".
Proof.
  intros Hw. unfold clean_text, str_strip. rewrite of_to_string. split.
  - intros E%to_string_empty. by rewrite <- (clean_chars_keeps_words false), E in Hw.
  - intros E%to_string_empty.
    by rewrite <- (clean_chars_keeps_words false), <- keep_words_strip, E in Hw.
Qed.

Lemma word_not_punct (c : ascii) : is_word c = true -> punct c = false.
Proof. destruct c as [[] [] [] [] [] [] [] []]; vm_compute; congruence. Qed.

Lemma clean_chars_steps (preserve : bool) (text : chars) :
  text <> [] ->
  clean_chars preserve text
  = strip
      (sub spaces [Lit space]
         (sub punct_not_spaced [Group 1; Lit space]
            (sub space_before_punct [Group 1]
               (let joined := sub hyphen_wrap [Group 1; Group 2] (collapse text) in
                if preserve then sub not_technical [Lit space] joined
                else sub not_basic [Lit space] joined)))).
Proof. by destruct text. Qed.

(** A word, a hyphen, whitespace and a second word are normalized to the
    two words joined. *)
Lemma clean_chars_joins_words (preserve : bool) (w1 ws w2 : chars) :
  w1 <> [] -> ws <> [] -> w2 <> [] ->
  all_of is_word w1 -> all_of is_space ws -> all_of is_word w2 ->
  clean_chars preserve (w1 ++ of_string "-" ++ ws ++ w2) = w1 ++ w2.
Proof.
  intros Hn1 Hns Hn2 Hw1 Hws Hw2.
  assert (all_of is_word (w1 ++ w2)) as Hw by by apply Forall_app.
  assert (Forall (fun c => is_space c = false) w2) as Hw2s.
  { eapply Forall_impl; [exact Hw2|]. intros c. apply word_not_space. }
  assert (Forall (fun c => is_space c = false) (w1 ++ of_string "-")) as Hw1s.
  { apply Forall_app. split; [|by repeat constructor].
    eapply Forall_impl; [exact Hw1|]. intros c. apply word_not_space. }
  (* the whitespace is collapsed to one space *)
  assert (collapse (w1 ++ of_string "-" ++ ws ++ w2)
          = w1 ++ of_string "-" ++ space ++ w2) as Hcollapse.
  { unfold collapse. rewrite (app_assoc w1), split_token; [| |exact Hw1s|].
    - rewrite split_spaces by exact Hws.
      rewrite <- (app_nil_r w2), split_token by done.
      simpl. by rewrite <- !app_assoc, app_nil_r.
    - by destruct w1.
    - destruct ws as [|c ws']; [done|]. by inversion Hws. }
  (* the hyphen and the space are dropped *)
  assert (sub hyphen_wrap [Group 1; Group 2] (w1 ++ of_string "-" ++ space ++ w2)
          = w1 ++ w2) as Hjoin.
  { unfold sub. destruct w1 as [|c1 w1']; [done|].
    remember (c1 :: w1') as w1 eqn:Ew1.
    assert (match_here hyphen_wrap (w1 ++ of_string "-" ++ space ++ w2)
            = Some ([(true, w1); (false, of_string "-"); (false, space); (true, w2)],
                    [])) as Hmatch.
    { unfold hyphen_wrap. cbn [match_here].
      rewrite (many_longest is_word _ w1 _
                 ([(false, of_string "-"); (false, space); (true, w2)], []));
        [reflexivity|by subst|exact Hw1|reflexivity|].
      cbn [match_here app of_string list_ascii_of_string].
      change (is_char "-" "-") with true. cbv iota.
      rewrite (many_longest is_space _ space w2 ([(true, w2)], []));
        [reflexivity|done|by repeat constructor| |].
      - destruct w2 as [|c w2']; [done|]. inversion Hw2; subst.
        by apply word_not_space.
      - cbn [match_here].
        by rewrite (many_all is_word _ w2 (([], []) : segments * chars)). }
    subst w1. cbn [app length sub_from]. cbn [app] in Hmatch. rewrite Hmatch.
    rewrite sub_from_nil. unfold expand, groups. simpl. by rewrite !app_nil_r. }
  rewrite clean_chars_steps by by destruct w1.
  rewrite Hcollapse, Hjoin. cbv zeta.
  assert (forall p t, (forall c s', is_word c = true -> match_here p (c :: s') = None) ->
                      sub p t (w1 ++ w2) = w1 ++ w2) as Hsame.
  { intros p t Hp. by apply sub_from_words. }
  assert ((if preserve then sub not_technical [Lit space] (w1 ++ w2)
           else sub not_basic [Lit space] (w1 ++ w2)) = w1 ++ w2) as ->.
  { destruct preserve; apply Hsame; intros c s' Hc; simpl; by rewrite Hc. }
  rewrite (Hsame space_before_punct).
  2:{ intros c s' Hc. simpl. by rewrite (word_not_space c Hc). }
  rewrite (Hsame punct_not_spaced).
  2:{ intros c s' Hc. simpl. by rewrite (word_not_punct c Hc). }
  rewrite (Hsame spaces).
  2:{ intros c s' Hc. simpl. by rewrite (word_not_space c Hc). }
  by apply strip_words.
Qed.

(** The same, on strings. *)
Lemma clean_text_joins_words (preserve : bool) (w1 ws w2 : string) :
  w1 <> "" -> ws <> "" -> w2 <> "" ->
  all_of is_word (of_string w1) -> all_of is_space (of_string ws) ->
  all_of is_word (of_string w2) ->
  clean_text (w1 +:+ "-" +:+ ws +:+ w2) preserve = w1 +:+ w2.
Proof.
  intros Hn1 Hns Hn2 Hw1 Hws Hw2. unfold clean_text.
  rewrite !of_string_app.
  rewrite clean_chars_joins_words; try done.
  - by rewrite to_string_app, !to_of_string.
  - intros E. apply Hn1. by rewrite <- (to_of_string w1), E.
  - intros E. apply Hns. by rewrite <- (to_of_string ws), E.
  - intros E. apply Hn2. by rewrite <- (to_of_string w2), E.
Qed.

Ltac consumes H :=
  pose proof (consumed _ _ _ _ H) as Hlen;
  apply match_here_sound in H as [_ H];
  repeat match goal with
         | F : Forall2 fits _ _ |- _ => inversion F; clear F; subst
         | F : fits _ (_, _) |- _ => destruct F as [? F]; simpl in *; subst
         | F : fits _ ?seg |- _ => destruct seg
         | F : exists _, _ |- _ => destruct F as [? F]
         | F : _ /\ _ |- _ => destruct F
         end; subst;
  repeat match goal with
         | F : ?l <> [] |- _ => destruct l; [done|clear F]
         end;
  unfold matched in Hlen; simpl in Hlen; rewrite ?length_app in Hlen;
  simpl in Hlen; lia.

(** Every pattern of the normalizer consumes at least one character. *)
Lemma normalizer_patterns_consume (p : pattern) :
  p ∈ [hyphen_wrap; not_basic; not_technical; space_before_punct;
       punct_not_spaced; spaces] ->
  forall s segs r, match_here p s = Some (segs, r) -> length r < length s.
Proof.
  intros Hp s segs r H.
  repeat (apply elem_of_cons in Hp as [->|Hp]; [consumes H|]).
  by apply elem_of_nil in Hp.
Qed.

(** So [re.sub] over the patterns of the normalizer is a total function
    of the text: more fuel changes nothing. *)
Lemma normalizer_sub_total (p : pattern) (t : template) (s : chars) (fuel : nat) :
  p ∈ [hyphen_wrap; not_basic; not_technical; space_before_punct;
       punct_not_spaced; spaces] ->
  length s <= fuel -> sub_from fuel p t s = sub p t s.
Proof.
  intros Hp Hfuel. unfold sub.
  by apply sub_from_enough; [apply normalizer_patterns_consume|..].
Qed.

End NormalizerFacts.

(** ** Facts about the shape of a normalized text *)

Module LayoutFacts.
Import Text Regex Normalizer Layout TextFacts RegexFacts NormalizerFacts.

Lemma many_run (cls : ascii -> bool) (s : chars) :
  match many cls (match_here []) s with
  | Some (run, (segs, r)) =>
      segs = [] /\ s = run ++ r /\ run <> [] /\ all_of cls run
      /\ match r with c :: _ => cls c = false | [] => True end
  | None => match s with c :: _ => cls c = false | [] => True end
  end.
Proof.
  induction s as [|c s IH]; [done|].
  cbn [many]. destruct (cls c) eqn:Hc; [|done].
  destruct (many cls (match_here []) s) as [[run [segs r]]|].
  - destruct IH as [-> [-> [Hne [Hrun Hr]]]].
    repeat split; try done. by constructor.
  - simpl. repeat split; try done. by repeat constructor.
Qed.

Lemma match_here_many (cap : bool) (cls : ascii -> bool) (s : chars) :
  match_here [(cap, Many cls)] s
  = match many cls (match_here []) s with
    | Some (run, (segs, r)) => Some ((cap, run) :: segs, r)
    | None => None
    end.
Proof. reflexivity. Qed.

Lemma squeeze_cons (c : ascii) (rest : chars) :
  squeeze (c :: rest)
  = if is_space c then
      if before_space rest then squeeze rest else blank :: squeeze rest
    else c :: squeeze rest.
Proof. reflexivity. Qed.

Lemma squeeze_run (run r : chars) :
  run <> [] -> all_of is_space run -> before_space r = false ->
  squeeze (run ++ r) = blank :: squeeze r.
Proof.
  intros Hne Hrun Hr. induction Hrun as [|c run Hc Hrun IH]; [done|].
  rewrite <- app_comm_cons, squeeze_cons, Hc. destruct run as [|d run].
  - simpl. by rewrite Hr.
  - inversion Hrun as [|? ? Hd _]; subst.
    change (before_space ((d :: run) ++ r)) with (is_space d). rewrite Hd.
    by apply IH.
Qed.

Lemma sub_from_spaces (fuel : nat) (s : chars) :
  length s <= fuel -> sub_from fuel spaces [Lit space] s = squeeze s.
Proof.
  revert s. induction fuel as [|fuel IH]; intros s Hlen.
  - destruct s; [done|simpl in Hlen; lia].
  - destruct s as [|c s]; [done|]. cbn [sub_from].
    unfold spaces. rewrite (match_here_many false is_space (c :: s)).
    pose proof (many_run is_space (c :: s)) as Hrun.
    destruct (many is_space (match_here []) (c :: s)) as [[run [segs r]]|].
    + destruct Hrun as [-> [Heq [Hne [Hrun Hr]]]].
      rewrite Heq, squeeze_run; [|done|done|by destruct r].
      unfold expand. simpl. f_equal. apply IH.
      apply (f_equal length) in Heq. rewrite length_app in Heq. simpl in *.
      destruct run; [done|]. simpl in Heq. lia.
    + rewrite squeeze_cons, Hrun. f_equal. apply IH. simpl in Hlen. lia.
Qed.

Lemma sub_spaces (s : chars) : sub spaces [Lit space] s = squeeze s.
Proof. by apply sub_from_spaces. Qed.

Lemma sub_from_pad (fuel : nat) (s : chars) :
  length s <= fuel ->
  sub_from fuel punct_not_spaced [Group 1; Lit space] s = pad s.
Proof.
  revert s. induction fuel as [|fuel IH]; intros s Hlen.
  - destruct s; [done|simpl in Hlen; lia].
  - destruct s as [|c s]; [done|]. simpl in Hlen. cbn [sub_from].
    unfold punct_not_spaced. cbn [match_here pad].
    destruct (punct c) eqn:Hp; simpl.
    + destruct s as [|d s]; simpl.
      * by rewrite sub_from_nil.
      * destruct (is_space d) eqn:Hd; simpl.
        -- f_equal. apply IH. simpl in *. lia.
        -- unfold expand, groups. simpl. do 2 f_equal.
           apply IH. simpl in *. lia.
    + f_equal. apply IH. lia.
Qed.

Lemma sub_pad (s : chars) : sub punct_not_spaced [Group 1; Lit space] s = pad s.
Proof. by apply sub_from_pad. Qed.

Lemma sub_from_class (fuel : nat) (cap : bool) (cls : ascii -> bool)
      (by_text s : chars) :
  length s <= fuel ->
  sub_from fuel [(cap, One cls)] [Lit by_text] s = replace_class cls by_text s.
Proof.
  revert s. induction fuel as [|fuel IH]; intros s Hlen.
  - destruct s; [done|simpl in Hlen; lia].
  - destruct s as [|c s]; [done|]. simpl in Hlen. cbn [sub_from match_here].
    unfold replace_class. simpl. destruct (cls c).
    + unfold expand. simpl. rewrite app_nil_r. f_equal. apply IH. lia.
    + simpl. f_equal. apply IH. lia.
Qed.

Lemma sub_class (cap : bool) (cls : ascii -> bool) (by_text s : chars) :
  sub [(cap, One cls)] [Lit by_text] s = replace_class cls by_text s.
Proof. by apply sub_from_class. Qed.

(** A substitution whose template holds group references and literals
    puts nothing in the text but what was there or what a literal holds. *)
Lemma sub_from_Forall (Q : ascii -> Prop) (fuel : nat) (p : pattern)
      (t : template) (s : chars) :
  Forall Q s ->
  (forall text, Lit text ∈ t -> Forall Q text) ->
  Forall Q (sub_from fuel p t s).
Proof.
  intros Hs Ht. revert s Hs. induction fuel as [|fuel IH]; intros s Hs; [done|].
  destruct s as [|c s]; [done|]. cbn [sub_from].
  destruct (match_here p (c :: s)) as [[segs r]|] eqn:Hm.
  - destruct (match_here_sound _ _ _ _ Hm) as [Heq _].
    rewrite Heq in Hs. apply Forall_app in Hs as [Hsegs Hr].
    apply Forall_app. split; [|by apply IH].
    unfold expand. apply Forall_concat, Forall_map, Forall_forall.
    intros [text|n] Hin; [by apply Ht|].
    assert (Forall (Forall Q) (groups segs)) as Hg.
    { unfold groups, matched in *. clear -Hsegs.
      induction segs as [|[cap seg] segs IHs]; [constructor|].
      simpl in Hsegs. apply Forall_app in Hsegs as [Hseg Hrest].
      simpl. destruct cap; simpl; [constructor|]; auto. }
    destruct (nth_in_or_default (pred n) (groups segs) []) as [Hnth| ->]; [|done].
    rewrite Forall_forall in Hg. apply Hg. by apply list_elem_of_In.
  - inversion Hs; subst. constructor; [done|]. by apply IH.
Qed.


(** *** The shape of what the substitutions leave *)

Lemma before_space_squeeze (s : chars) : before_space (squeeze s) = before_space s.
Proof.
  induction s as [|c s IH]; [done|].
  rewrite squeeze_cons. change (before_space (c :: s)) with (is_space c).
  destruct (is_space c) eqn:Hc; [|by simpl].
  destruct (before_space s) eqn:Hs; [by rewrite IH|done].
Qed.

Lemma squeeze_spaced (s : chars) : spaced (squeeze s).
Proof.
  induction s as [|c s IH]; [done|].
  rewrite squeeze_cons. destruct (is_space c) eqn:Hc.
  - destruct (before_space s) eqn:Hs; [done|].
    simpl. split; [|done]. intros _. split; [done|].
    by rewrite before_space_squeeze.
  - simpl. split; [|done]. intros H. congruence.
Qed.

Lemma squeeze_Forall (Q : ascii -> Prop) (s : chars) :
  Q blank -> Forall Q s -> Forall Q (squeeze s).
Proof.
  intros Hb Hs. induction Hs as [|c s Hc Hs IH]; [done|].
  rewrite squeeze_cons.
  destruct (is_space c); [destruct (before_space s)|]; auto.
Qed.

Lemma punct_not_space (c : ascii) : punct c = true -> is_space c = false.
Proof.
  unfold punct, one_of. simpl. unfold is_char.
  repeat case_decide; subst; done.
Qed.

Lemma squeeze_followed (s : chars) : followed s -> followed (squeeze s).
Proof.
  induction s as [|c s IH]; [done|].
  intros [Hc Hs]. rewrite squeeze_cons.
  destruct (is_space c) eqn:Hsp.
  - destruct (before_space s); [by apply IH|].
    simpl. split; [|by apply IH]. intros Hp. apply punct_not_space in Hp.
    unfold blank in Hp. done.
  - simpl. split; [|by apply IH].
    intros Hp. rewrite before_space_squeeze. by apply Hc.
Qed.

Lemma before_space_pad (s : chars) : before_space (pad s) = before_space s.
Proof. destruct s as [|c s]; [done|]. simpl. by destruct (punct c && _). Qed.

Lemma pad_followed (s : chars) : followed (pad s).
Proof.
  induction s as [|c s IH]; [done|]. simpl.
  destruct (punct c) eqn:Hp; simpl.
  - destruct (before_space s) eqn:Hs; simpl.
    + split; [|done]. intros _. by rewrite before_space_pad.
    + repeat split; done.
  - split; [|done]. congruence.
Qed.

Lemma pad_Forall (Q : ascii -> Prop) (s : chars) :
  Q blank -> Forall Q s -> Forall Q (pad s).
Proof.
  intros Hb Hs. induction Hs as [|c s Hc Hs IH]; [done|].
  simpl. destruct (punct c && _); auto.
Qed.

Lemma replace_class_Forall (cls : ascii -> bool) (by_text s : chars) :
  Forall (fun c => cls c = false) by_text ->
  Forall (fun c => cls c = false) (replace_class cls by_text s).
Proof.
  intros Hb. unfold replace_class. induction s as [|c s IH]; [done|].
  simpl. apply Forall_app. split; [|done].
  destruct (cls c) eqn:Hc; [done|]. by repeat constructor.
Qed.

(** *** [strip] *)

Lemma lstrip_spec (s : chars) :
  exists a, s = a ++ lstrip s /\ all_of is_space a /\ before_space (lstrip s) = false.
Proof.
  induction s as [|c s (a & Heq & Ha & Hb)].
  { exists []. repeat split. constructor. }
  simpl. destruct (is_space c) eqn:Hc.
  - exists (c :: a). repeat split; [by rewrite Heq at 1|by constructor|done].
  - exists []. repeat split; [constructor|done].
Qed.

Lemma last_rev (s : chars) : last (rev s) = head s.
Proof. destruct s as [|c s]; [done|]. simpl. by rewrite last_snoc. Qed.

Lemma head_rev (s : chars) : head (rev s) = last s.
Proof. by rewrite <- (rev_involutive s) at 2; rewrite last_rev. Qed.

Lemma before_space_head (s : chars) :
  before_space s = false <-> (forall c, head s = Some c -> is_space c = false).
Proof.
  destruct s as [|c s]; simpl; [done|]. split; [by intros ? ? [= <-]|auto].
Qed.

Lemma lstrip_same (s : chars) : before_space s = false -> lstrip s = s.
Proof. destruct s as [|c s]; [done|]. simpl. by intros ->. Qed.

(** [strip] takes whitespace off both ends, and nothing else. *)
Lemma strip_spec (s : chars) :
  exists a b, s = a ++ strip s ++ b /\ all_of is_space a /\ all_of is_space b
              /\ trimmed (strip s).
Proof.
  destruct (lstrip_spec s) as (a & Heq & Ha & Hhead).
  destruct (lstrip_spec (rev (lstrip s))) as (b & Heq' & Hb & Hlast).
  exists a, (rev b). unfold strip. repeat split.
  - rewrite <- rev_app_distr, <- Heq', rev_involutive. exact Heq.
  - exact Ha.
  - unfold all_of in *. apply Forall_forall. intros c Hc.
    rewrite Forall_forall in Hb. apply Hb.
    apply list_elem_of_In. apply list_elem_of_In in Hc. by apply in_rev.
  - intros c Hc. rewrite head_rev in Hc.
    destruct (lstrip (rev (lstrip s))) as [|x m] eqn:Hm; [done|].
    assert (last (rev (lstrip s)) = Some c) as Hl.
    { rewrite Heq'. by rewrite last_app, Hc. }
    rewrite last_rev in Hl. by apply before_space_head in Hl.
  - intros c Hc. rewrite last_rev in Hc. by apply before_space_head in Hc.
Qed.

Lemma strip_trimmed (s : chars) : trimmed s -> strip s = s.
Proof.
  intros [Hh Hl]. unfold strip.
  rewrite (lstrip_same s) by by apply before_space_head.
  rewrite lstrip_same; [apply rev_involutive|].
  apply before_space_head. intros c. rewrite head_rev. apply Hl.
Qed.

Lemma strip_idempotent (s : chars) : strip (strip s) = strip s.
Proof.
  destruct (strip_spec s) as (_ & _ & _ & _ & _ & H). by apply strip_trimmed.
Qed.

Lemma strip_Forall (Q : ascii -> Prop) (s : chars) :
  Forall Q s -> Forall Q (strip s).
Proof.
  intros Hs. destruct (strip_spec s) as (a & b & Heq & _).
  rewrite Heq in Hs. apply Forall_app in Hs as [_ Hs].
  by apply Forall_app in Hs as [Hs _].
Qed.

Lemma strip_spaces (s : chars) : all_of is_space s -> strip s = [].
Proof.
  intros Hs. destruct (strip_spec s) as (a & b & Heq & _ & _ & Hh & _).
  destruct (strip s) as [|c m]; [done|].
  specialize (Hh c eq_refl).
  unfold all_of in Hs. rewrite Heq in Hs.
  apply Forall_app in Hs as [_ Hs]. inversion Hs; subst. congruence.
Qed.

(** *** From the structural invariants to positions *)

Lemma spaced_single_spaced (s : chars) : spaced s -> single_spaced s.
Proof.
  intros Hs. split.
  - induction s as [|x s IH]; intros c Hin Hc; [by apply elem_of_nil in Hin|].
    destruct Hs as [Hx Hs]. apply elem_of_cons in Hin as [->|Hin]; [by apply Hx|].
    by apply IH.
  - induction s as [|x s IH]; intros i c d Hi HSi Hc; [done|].
    destruct Hs as [Hx Hs]. destruct i as [|i].
    + simpl in Hi, HSi. injection Hi as ->.
      destruct (Hx Hc) as [_ Hb]. destruct s as [|y s]; [done|].
      simpl in HSi. injection HSi as ->. exact Hb.
    + simpl in Hi. by apply (IH Hs i c d).
Qed.

Lemma followed_lookup (s : chars) (i : nat) (c : ascii) :
  followed s -> s !! i = Some c -> punct c = true ->
  exists d, s !! S i = Some d /\ is_space d = true.
Proof.
  revert i. induction s as [|x s IH]; intros i Hs Hi Hc; [done|].
  destruct Hs as [Hx Hs]. destruct i as [|i].
  - simpl in Hi. injection Hi as ->. specialize (Hx Hc).
    destruct s as [|y s]; [done|]. by exists y.
  - simpl in Hi. by apply IH.
Qed.

(** What holds between neighbours holds inside every stretch of the
    text. *)
Lemma single_spaced_middle (a m b : chars) :
  single_spaced (a ++ m ++ b) -> single_spaced m.
Proof.
  intros [Hblank Hpair]. split.
  - intros c Hin. apply Hblank. rewrite !elem_of_app. auto.
  - intros i c d Hi HSi. apply (Hpair (length a + i)).
    + rewrite lookup_app_r by lia. replace (length a + i - length a) with i by lia.
      by apply lookup_app_l_Some.
    + rewrite lookup_app_r by lia.
      replace (S (length a + i) - length a) with (S i) by lia.
      by apply lookup_app_l_Some.
Qed.

Lemma punctuation_spaced_middle (a m b : chars) :
  spaced (a ++ m ++ b) -> followed (a ++ m ++ b) -> punctuation_spaced m.
Proof.
  intros Hsp Hfo i c Hi Hc.
  destruct (m !! S i) as [d|] eqn:HSi; [right|by left].
  assert ((a ++ m ++ b) !! (length a + i) = Some c) as Hi'.
  { rewrite lookup_app_r by lia. replace (length a + i - length a) with i by lia.
    by apply lookup_app_l_Some. }
  assert ((a ++ m ++ b) !! S (length a + i) = Some d) as HSi'.
  { rewrite lookup_app_r by lia.
    replace (S (length a + i) - length a) with (S i) by lia.
    by apply lookup_app_l_Some. }
  destruct (followed_lookup _ _ _ Hfo Hi' Hc) as (d' & Hd' & Hsd).
  rewrite HSi' in Hd'. injection Hd' as <-. f_equal.
  apply spaced_single_spaced in Hsp as [Hblank _]. apply Hblank; [|done].
  by apply list_elem_of_lookup_2 in HSi'.
Qed.


(** *** [clean_text], step by step *)

Lemma clean_chars_shape (preserve : bool) (text : chars) :
  text <> [] ->
  clean_chars preserve text
  = strip
      (squeeze
         (pad
            (sub space_before_punct [Group 1]
               (replace_class (unlisted preserve) space
                  (sub hyphen_wrap [Group 1; Group 2] (collapse text)))))).
Proof.
  intros Hne. rewrite clean_chars_steps by done.
  rewrite sub_spaces, sub_pad. cbv zeta. do 4 f_equal.
  destruct preserve; apply sub_class.
Qed.

Lemma clean_chars_trimmed (preserve : bool) (text : chars) :
  trimmed (clean_chars preserve text).
Proof.
  destruct text as [|c text]; [done|].
  rewrite clean_chars_shape by done.
  by destruct (strip_spec
                 (squeeze
                    (pad
                       (sub space_before_punct [Group 1]
                          (replace_class (unlisted preserve) space
                             (sub hyphen_wrap [Group 1; Group 2]
                                (collapse (c :: text)))))))) as (_ & _ & _ & _ & _ & H).
Qed.

Lemma clean_chars_single_spaced (preserve : bool) (text : chars) :
  single_spaced (clean_chars preserve text).
Proof.
  destruct text as [|c text].
  { split; [by intros ? ?%elem_of_nil|done]. }
  rewrite clean_chars_shape by done.
  match goal with |- single_spaced (strip ?s) =>
    destruct (strip_spec s) as (a & b & Heq & _);
    apply (single_spaced_middle a _ b); rewrite <- Heq
  end.
  apply spaced_single_spaced, squeeze_spaced.
Qed.

Lemma clean_chars_punctuation_spaced (preserve : bool) (text : chars) :
  punctuation_spaced (clean_chars preserve text).
Proof.
  destruct text as [|c text]; [done|].
  rewrite clean_chars_shape by done.
  match goal with |- punctuation_spaced (strip ?s) =>
    destruct (strip_spec s) as (a & b & Heq & _);
    apply (punctuation_spaced_middle a _ b); rewrite <- Heq
  end.
  - apply squeeze_spaced.
  - apply squeeze_followed, pad_followed.
Qed.

Lemma spaced_Forall (s : chars) :
  spaced s -> Forall (fun c => is_space c = true -> c = blank) s.
Proof.
  induction s as [|c s IH]; [done|]. intros [Hc Hs].
  constructor; [|by apply IH]. intros H. by apply Hc.
Qed.

Lemma clean_chars_alphabet (preserve : bool) (text : chars) :
  Forall (fun c => (if preserve then technical c else basic c) = true)
         (clean_chars preserve text).
Proof.
  destruct text as [|c0 text]; [done|].
  rewrite clean_chars_shape by done.
  apply strip_Forall.
  match goal with |- Forall _ (squeeze ?s) =>
    assert (Forall (fun c => unlisted preserve c = false) (squeeze s)) as Hl;
    [|pose proof (spaced_Forall _ (squeeze_spaced s)) as Hb]
  end.
  { apply squeeze_Forall; [by destruct preserve|].
    apply pad_Forall; [by destruct preserve|].
    apply sub_from_Forall.
    - apply replace_class_Forall. repeat constructor. by destruct preserve.
    - intros text' Hin. apply list_elem_of_singleton in Hin. done. }
  eapply Forall_impl; [apply Forall_and; exact (conj Hl Hb)|].
  intros c [Hc Hsp]. simpl in Hc, Hsp. unfold unlisted in Hc.
  unfold technical, basic.
  destruct (is_word c); [by destruct preserve|].
  destruct (is_space c).
  - rewrite (Hsp eq_refl). by destruct preserve.
  - destruct preserve; simpl in *;
      apply negb_false_iff in Hc; rewrite Hc; by rewrite orb_true_r.
Qed.

Lemma join_Forall (Q : ascii -> Prop) (sep : chars) (parts : list chars) :
  Forall Q sep -> Forall (Forall Q) parts -> Forall Q (join sep parts).
Proof.
  intros Hsep Hparts. induction Hparts as [|p ps Hp Hps IH]; [done|].
  destruct ps as [|q ps]; [done|].
  change (join sep (p :: q :: ps)) with (p ++ sep ++ join sep (q :: ps)).
  rewrite !Forall_app. auto.
Qed.

Lemma collapse_Forall (Q : ascii -> Prop) (s : chars) :
  Q blank -> Forall Q s -> Forall Q (collapse s).
Proof.
  intros Hb Hs. unfold collapse. apply join_Forall; [by repeat constructor|].
  apply Forall_concat. rewrite concat_split.
  rewrite Forall_forall in Hs. apply Forall_forall. intros c Hc.
  apply Hs. apply list_elem_of_In. apply list_elem_of_In in Hc.
  by apply filter_In in Hc as [Hc _].
Qed.

(** A text of whitespace and unlisted characters only is normalized to
    the empty text. *)
Lemma clean_chars_nothing_kept (preserve : bool) (text : chars) :
  Forall (fun c => is_space c = true \/ unlisted preserve c = true) text ->
  clean_chars preserve text = [].
Proof.
  intros Hs. destruct text as [|c0 text]; [done|].
  rewrite clean_chars_shape by done.
  apply strip_spaces, squeeze_Forall; [done|].
  apply pad_Forall; [done|].
  apply sub_from_Forall; [|intros t Hin; by apply list_elem_of_singleton in Hin].
  unfold replace_class. apply Forall_forall. intros c Hc.
  apply list_elem_of_In, in_flat_map in Hc as (x & Hx & Hc).
  assert (is_space x = true \/ unlisted preserve x = true) as Hq.
  { assert (Forall (fun c => is_space c = true \/ unlisted preserve c = true)
                   (sub hyphen_wrap [Group 1; Group 2] (collapse (c0 :: text)))) as H.
    { apply sub_from_Forall.
      - apply collapse_Forall; [by left|done].
      - intros t Hin. repeat (apply elem_of_cons in Hin as [Hin|Hin]; [done|]).
        by apply elem_of_nil in Hin. }
    rewrite Forall_forall in H. apply H. by apply list_elem_of_In. }
  destruct (unlisted preserve x) eqn:Hu.
  - destruct Hc as [<-|[]]. done.
  - destruct Hc as [<-|[]]. by destruct Hq.
Qed.

(** Where the pattern matches at no stretch of a kind of text, such a
    text is left as it is. *)
Lemma sub_from_unmatched (Q : ascii -> Prop) (fuel : nat) (p : pattern)
      (t : template) (s : chars) :
  (forall s', Forall Q s' -> match_here p s' = None) ->
  Forall Q s -> sub_from fuel p t s = s.
Proof.
  intros Hp Hs. revert fuel. induction Hs as [|c s Hc Hs IH]; intros fuel.
  - apply sub_from_nil.
  - destruct fuel as [|fuel]; [done|]. cbn [sub_from].
    rewrite (Hp (c :: s)) by by constructor. by rewrite IH.
Qed.

Lemma compound_not_space (c : ascii) : in_compound c -> is_space c = false.
Proof. intros [H| ->]; [by apply word_not_space|done]. Qed.

Lemma compound_not_punct (c : ascii) : in_compound c -> punct c = false.
Proof. intros [H| ->]; [by apply word_not_punct|done]. Qed.

Lemma compound_listed (preserve : bool) (c : ascii) :
  in_compound c -> unlisted preserve c = false.
Proof. intros [H| ->]; [|by destruct preserve]. unfold unlisted. rewrite H. by destruct preserve. Qed.

Ltac no_match :=
  let s := fresh "s" in let Hs := fresh "Hs" in
  let segs := fresh "segs" in let r := fresh "r" in let Hm := fresh "Hm" in
  intros s Hs;
  destruct (match_here _ s) as [[segs r]|] eqn:Hm; [exfalso|done];
  destruct (match_here_sound _ _ _ _ Hm) as [Heq Hfits]; clear Hm;
  rewrite Heq in Hs; apply Forall_app in Hs as [Hs _];
  unfold matched in Hs;
  repeat match goal with
         | F : Forall2 fits _ _ |- _ => inversion F; clear F; subst
         | F : fits _ (_, _) |- _ => destruct F as [? F]; simpl in *; subst
         | F : fits _ ?seg |- _ => destruct seg
         | F : exists _, _ |- _ => destruct F as [? F]
         | F : _ /\ _ |- _ => destruct F
         end; subst;
  simpl in Hs;
  repeat match goal with
         | F : _ /\ _ |- _ => destruct F
         | F : Forall _ (_ ++ _) |- _ => apply Forall_app in F
         | F : Forall _ (_ :: _) |- _ => apply Forall_cons in F
         | F : ?l <> [] |- _ => destruct l; [done|clear F]
         end;
  match goal with
  | H1 : in_compound ?x, H2 : ?P = true |- _ =>
      lazymatch P with context [x] => idtac end;
      destruct H1 as [Hw| ->];
      [ first [ rewrite (word_not_space _ Hw) in H2; done
              | rewrite (word_not_punct _ Hw) in H2; done
              | rewrite Hw in H2; done ]
      | by vm_compute in H2 ]
  end.

Lemma clean_chars_compound (preserve : bool) (text : chars) :
  Forall in_compound text -> clean_chars preserve text = text.
Proof.
  intros Hs. destruct text as [|c0 text]; [done|].
  rewrite clean_chars_steps by done.
  set (s := c0 :: text) in *.
  assert (collapse s = s) as ->.
  { unfold collapse. rewrite <- (app_nil_r s) at 1.
    rewrite split_token; [done|done| |done].
    eapply Forall_impl; [exact Hs|]. apply compound_not_space. }
  assert (forall p t, (forall s', Forall in_compound s' -> match_here p s' = None) ->
                      sub p t s = s) as Hsame.
  { intros p t Hp. by apply (sub_from_unmatched in_compound). }
  rewrite (Hsame hyphen_wrap) by no_match.
  cbv zeta.
  assert ((if preserve then sub not_technical [Lit space] s
           else sub not_basic [Lit space] s) = s) as ->.
  { destruct preserve; apply Hsame; no_match. }
  rewrite (Hsame space_before_punct) by no_match.
  rewrite (Hsame punct_not_spaced) by no_match.
  rewrite (Hsame spaces) by no_match.
  apply strip_trimmed. split.
  - intros c Hc. apply compound_not_space.
    rewrite Forall_forall in Hs. apply Hs. by apply head_Some_elem_of.
  - intros c Hc. apply compound_not_space.
    rewrite Forall_forall in Hs. apply Hs. by apply last_Some_elem_of.
Qed.

End LayoutFacts.

(** ** The embedding client *)

Module EmbeddingFacts.
Import Py Eff Embeddings.

Section Client.
Context {F : Type} (zero : F) {Remote : Type}.
Context (post : string -> string -> string -> Remote -> result (@response F) * Remote).
Context (self : OllamaEmbeddings).

Lemma zero_vector_shape :
  length (zero_vector zero) = 384 /\ Forall (fun x => x = zero) (zero_vector zero).
Proof.
  unfold zero_vector. split; [apply length_replicate|by apply Forall_replicate].
Qed.

(** One protected call: it returns, with the vector of [_embed] or the
    zero vector, in the state that [_embed] left. *)
Lemma protected_embed (what text : string) (r : Remote) :
  try_except (_embed zero post self text) (zero_fallback zero what) r
  = match _embed zero post self text r with
    | (Ok v, r', calls) => (Ok v, r', calls)
    | (Raise e, r', calls) =>
        (Ok (zero_vector zero), r',
         calls ++ [LogLine "ERROR" ("Error embedding " +:+ what +:+ ": "
                                    +:+ message e)])
    end.
Proof.
  unfold try_except.
  by destruct (_embed zero post self text r) as [[[v|e] r'] calls].
Qed.

Lemma embed_each_returns (texts : list string) (embeddings : list (list F))
      (r : Remote) :
  exists vectors,
    outcome (embed_each zero post self texts embeddings r) = Ok (embeddings ++ vectors)
    /\ length vectors = length texts
    /\ replaced_on_failure zero post self texts vectors r.
Proof.
  revert embeddings r. induction texts as [|text texts IH]; intros embeddings r.
  - exists []. simpl. by rewrite app_nil_r.
  - cbn [embed_each]. unfold bind at 1. rewrite protected_embed.
    destruct (_embed zero post self text r) as [[[v|e] r'] calls] eqn:Hembed.
    + destruct (IH (embeddings ++ [v]) r') as (vectors & Hout & Hlen & Hrep).
      exists (v :: vectors). cbn [replaced_on_failure]. rewrite Hembed.
      destruct (embed_each zero post self texts (embeddings ++ [v]) r')
        as [[res r''] calls'].
      unfold outcome in *. cbn [fst] in *. rewrite Hout, <- app_assoc. cbn [length].
      auto.
    + destruct (IH (embeddings ++ [zero_vector zero]) r')
        as (vectors & Hout & Hlen & Hrep).
      exists (zero_vector zero :: vectors). cbn [replaced_on_failure]. rewrite Hembed.
      destruct (embed_each zero post self texts
                           (embeddings ++ [zero_vector zero]) r')
        as [[res r''] calls'].
      unfold outcome in *. cbn [fst] in *. rewrite Hout, <- app_assoc. cbn [length].
      auto.
Qed.
(** On a failure of [_embed], the protected query returns the zero vector. *)
Lemma embed_query_unfold (text : string) (r : Remote) :
  embed_query zero post self text r
  = match _embed zero post self text r with
    | (Ok v, r', calls) => (Ok v, r', calls)
    | (Raise e, r', calls) =>
        (Ok (zero_vector zero), r',
         calls ++ [LogLine "ERROR" ("Error embedding query: " +:+ message e)])
    end.
Proof. apply protected_embed. Qed.

(** A transport failure makes [_embed] raise a [ValueError]. *)
Lemma _embed_network_failure (text msg : string) (r r' : Remote) :
  Text.str_strip text <> "" ->
  post (endpoint self) (model self) (Text.str_strip text) r
    = (Raise (RequestException msg), r') ->
  outcome (_embed zero post self text r)
  = Raise (ValueError ("Network error while getting embeddings: " +:+ msg)).
Proof.
  intros Hblank Hpost. unfold _embed.
  destruct (decide (text = "" \/ Text.str_strip text = "")) as [[->|E]|_];
    [by destruct Hblank|by destruct Hblank|].
  unfold try_except, request_embedding, bind, requests_post.
  by rewrite Hpost.
Qed.

(** A blank text is embedded as the zero vector without any request. *)
Lemma _embed_blank (text : string) (r : Remote) :
  Text.str_strip text = "" ->
  _embed zero post self text r
  = (Ok (zero_vector zero), r,
     [LogLine "WARNING" "Empty text provided for embedding"]).
Proof.
  intros Hblank. unfold _embed.
  destruct (decide (text = "" \/ Text.str_strip text = "")) as [_|Hn];
    [reflexivity|].
  destruct Hn. by right.
Qed.

End Client.

End EmbeddingFacts.

(** ** Facts about the traffic of the embedding client *)

Module WireFacts.
Import Py Eff Embeddings Wire.

Lemma str_strip_idempotent (text : string) :
  Text.str_strip (Text.str_strip text) = Text.str_strip text.
Proof.
  unfold Text.str_strip. by rewrite TextFacts.of_to_string, LayoutFacts.strip_idempotent.
Qed.

Lemma requests_app (l1 l2 : list call) :
  requests (l1 ++ l2) = requests l1 ++ requests l2.
Proof. induction l1 as [|[]]; cbn; by f_equal. Qed.

Section Client.
Context {F : Type} (zero : F) {Remote : Type}.
Context (post : string -> string -> string -> Remote -> result (@response F) * Remote).
Context (self : OllamaEmbeddings).

(** One call of [_embed] on a text that is not blank: one request, with
    the stripped text; the vector of a usable reply is returned as it is,
    and every other reply ends in a [ValueError]. *)
Lemma _embed_request (text : string) (r : Remote) :
  Text.str_strip text <> "" ->
  final (_embed zero post self text r)
  = snd (post (endpoint self) (model self) (Text.str_strip text) r)
  /\ requests (events (_embed zero post self text r))
     = [(endpoint self, model self, Text.str_strip text)]
  /\ match usable (fst (post (endpoint self) (model self) (Text.str_strip text) r)) with
     | Some v => outcome (_embed zero post self text r) = Ok v
     | None => exists msg, outcome (_embed zero post self text r) = Raise (ValueError msg)
     end.
Proof.
  intros Hblank. unfold _embed.
  destruct (decide (text = "" ∨ Text.str_strip text = "")) as [[->|E]|_];
    [by vm_compute in Hblank|done|].
  unfold try_except, request_embedding, bind, requests_post, usable.
  destruct (post (endpoint self) (model self) (Text.str_strip text) r)
    as [[response|e] r']; cbn [fst snd].
  - destruct (decide (status_code response = 200%Z)) as [Hs|Hs].
    + destruct (decide (status_code response ≠ 200%Z)); [done|].
      unfold lift. destruct (json response) as [[repr|[type_repr|[|x v]]]|e];
        cbn; eauto.
      destruct e; cbn; eauto.
    + destruct (decide (status_code response ≠ 200%Z)); [|done].
      cbn. eauto.
  - destruct e; cbn; eauto.
Qed.

Lemma _embed_strip_invariant (text : string) (r : Remote) :
  _embed zero post self (Text.str_strip text) r = _embed zero post self text r.
Proof.
  unfold _embed. rewrite str_strip_idempotent.
  destruct (decide (text = "" ∨ Text.str_strip text = "")) as [H|H];
    destruct (decide (Text.str_strip text = "" ∨ Text.str_strip text = ""))
      as [H'|H']; try done.
  - destruct H as [->|H]; exfalso; apply H'; by left.
  - exfalso. apply H. right. by destruct H'.
Qed.

Lemma requests_protected (what text : string) (r : Remote) :
  requests (events (try_except (_embed zero post self text)
                               (zero_fallback zero what) r))
  = requests (events (_embed zero post self text r)).
Proof.
  rewrite EmbeddingFacts.protected_embed.
  destruct (_embed zero post self text r) as [[[v|e] r'] calls]; [done|].
  unfold events. cbn [snd]. rewrite requests_app. cbn. by rewrite app_nil_r.
Qed.

Lemma requests_embed (text : string) (r : Remote) :
  requests (events (_embed zero post self text r))
  = if is_blank text then []
    else [(endpoint self, model self, Text.str_strip text)].
Proof.
  unfold is_blank. case_bool_decide as Hb.
  - by rewrite EmbeddingFacts._embed_blank.
  - by destruct (_embed_request text r Hb) as (_ & -> & _).
Qed.

Lemma requests_embed_each (texts : list string) (embeddings : list (list F))
      (r : Remote) :
  requests (events (embed_each zero post self texts embeddings r))
  = map (fun text => (endpoint self, model self, Text.str_strip text))
        (List.filter (fun text => negb (is_blank text)) texts).
Proof.
  revert embeddings r. induction texts as [|text texts IH]; intros embeddings r.
  - done.
  - cbn [embed_each List.filter]. unfold bind at 1.
    pose proof (requests_protected "document" text r) as Hreq.
    rewrite requests_embed in Hreq.
    pose proof (EmbeddingFacts.protected_embed zero post self "document" text r) as Hp.
    destruct (try_except (_embed zero post self text)
                         (zero_fallback zero "document") r)
      as [[[v|e] r'] calls] eqn:Hrun.
    + specialize (IH (embeddings ++ [v]) r').
      destruct (embed_each zero post self texts (embeddings ++ [v]) r')
        as [[res r''] calls'].
      unfold events in *. cbn [snd] in *.
      rewrite requests_app, IH, Hreq.
      by destruct (is_blank text).
    + exfalso. destruct (_embed zero post self text r) as [[[v|e'] r''] calls''];
        discriminate.
Qed.

Lemma is_available_run (r : Remote) :
  outcome (is_available zero post self r)
  = Ok (bool_decide (is_Some (usable (fst (post (endpoint self) (model self) "test" r)))))
  /\ final (is_available zero post self r)
     = snd (post (endpoint self) (model self) "test" r)
  /\ requests (events (is_available zero post self r))
     = [(endpoint self, model self, "test")].
Proof.
  assert (Text.str_strip "test" <> "") as Hne by by vm_compute.
  destruct (_embed_request "test" r Hne) as (Hfin & Hreq & Hout).
  change (Text.str_strip "test") with "test" in *.
  unfold is_available, try_except, bind.
  destruct (_embed zero post self "test" r) as [[[v|e] r'] calls].
  - unfold outcome, final, events in *. cbn [fst snd] in *. cbn.
    rewrite app_nil_r. split_and!; try done.
    destruct (usable (fst (post (endpoint self) (model self) "test" r)))
      as [w|] eqn:Hu.
    + injection Hout as ->. f_equal.
      rewrite (bool_decide_true (is_Some _)) by eauto.
      apply bool_decide_true.
      unfold usable in Hu. repeat case_match; try done.
      injection Hu as <-. simpl. lia.
    + by destruct Hout.
  - unfold outcome, final, events in *. cbn [fst snd] in *. cbn.
    rewrite requests_app, Hreq. split_and!; try done.
    destruct (usable (fst (post (endpoint self) (model self) "test" r)))
      as [w|]; done.
Qed.

End Client.
End WireFacts.

(** ** Tenant indexes and the effects of the pipeline on them *)

Module StoreFacts.
Import Py Eff Store.

Lemma doc_index_inj (t1 t2 : string) : doc_index t1 = doc_index t2 -> t1 = t2.
Proof. unfold doc_index. apply (String.app_inj "doc_"). Qed.

Lemma chat_history_index_inj (t1 t2 : string) :
  chat_history_index t1 = chat_history_index t2 -> t1 = t2.
Proof. unfold chat_history_index. apply (String.app_inj "chat_history_"). Qed.

Lemma doc_index_not_chat_history (t1 t2 : string) :
  doc_index t1 <> chat_history_index t2.
Proof. intros H. vm_compute in H. discriminate. Qed.

Section Monad.
Context {A B : Type} (names : list string).

Lemma agree_refl (c : cluster) : agree names c c.
Proof. by intros n _. Qed.

Lemma reads_only_ret (a : A) : reads_only names (ret a : Run A).
Proof. by intros c1 c2 H. Qed.

Lemma reads_only_raise (e : exn) : reads_only names (raise e : Run A).
Proof. by intros c1 c2 H. Qed.

Lemma reads_only_lift (r : result A) : reads_only names (lift r : Run A).
Proof. by intros c1 c2 H. Qed.

Lemma reads_only_tell (e : event) : reads_only names (tell e : Run unit).
Proof. by intros c1 c2 H. Qed.

Lemma reads_only_bind (m : Run A) (f : A -> Run B) :
  reads_only names m -> (forall a, reads_only names (f a)) ->
  reads_only names (bind m f).
Proof.
  intros Hm Hf c1 c2 Hc. destruct (Hm c1 c2 Hc) as (Ho & He & Hfin).
  unfold bind, outcome, events, final in *.
  destruct (m c1) as [[r1 s1] ev1], (m c2) as [[r2 s2] ev2]. simpl in *. subst.
  destruct r2 as [a|e]; [|by simpl].
  destruct (Hf a s1 s2 Hfin) as (Ho' & He' & Hfin').
  unfold outcome, events, final in *.
  destruct (f a s1) as [[r1' s1'] ev1'], (f a s2) as [[r2' s2'] ev2'].
  simpl in *. by subst.
Qed.

Lemma reads_only_try_except (m : Run A) (h : exn -> Run A) :
  reads_only names m -> (forall e, reads_only names (h e)) ->
  reads_only names (try_except m h).
Proof.
  intros Hm Hh c1 c2 Hc. destruct (Hm c1 c2 Hc) as (Ho & He & Hfin).
  unfold try_except, outcome, events, final in *.
  destruct (m c1) as [[r1 s1] ev1], (m c2) as [[r2 s2] ev2]. simpl in *. subst.
  destruct r2 as [a|e]; [by simpl|].
  destruct (Hh e s1 s2 Hfin) as (Ho' & He' & Hfin').
  unfold outcome, events, final in *.
  destruct (h e s1) as [[r1' s1'] ev1'], (h e s2) as [[r2' s2'] ev2'].
  simpl in *. by subst.
Qed.

Lemma writes_only_ret (a : A) : writes_only names (ret a : Run A).
Proof. by intros c n H. Qed.

Lemma writes_only_raise (e : exn) : writes_only names (raise e : Run A).
Proof. by intros c n H. Qed.

Lemma writes_only_lift (r : result A) : writes_only names (lift r : Run A).
Proof. by intros c n H. Qed.

Lemma writes_only_tell (e : event) : writes_only names (tell e : Run unit).
Proof. by intros c n H. Qed.

Lemma writes_only_bind (m : Run A) (f : A -> Run B) :
  writes_only names m -> (forall a, writes_only names (f a)) ->
  writes_only names (bind m f).
Proof.
  intros Hm Hf c n Hn. specialize (Hm c n Hn).
  unfold bind, final in *.
  destruct (m c) as [[[a|e] s1] ev1]; simpl in *; [|exact Hm].
  specialize (Hf a s1 n Hn). unfold final in Hf.
  destruct (f a s1) as [[r s2] ev2]. simpl in *. congruence.
Qed.

Lemma writes_only_try_except (m : Run A) (h : exn -> Run A) :
  writes_only names m -> (forall e, writes_only names (h e)) ->
  writes_only names (try_except m h).
Proof.
  intros Hm Hh c n Hn. specialize (Hm c n Hn).
  unfold try_except, final in *.
  destruct (m c) as [[[a|e] s1] ev1]; simpl in *; [exact Hm|].
  specialize (Hh e s1 n Hn). unfold final in Hh.
  destruct (h e s1) as [[r s2] ev2]. simpl in *. congruence.
Qed.

Lemma retrieval_only_ret (a : A) : retrieval_only (ret a : Run A).
Proof. intros c. split; [reflexivity|constructor]. Qed.

Lemma retrieval_only_raise (e : exn) : retrieval_only (raise e : Run A).
Proof. intros c. split; [reflexivity|constructor]. Qed.

Lemma retrieval_only_lift (r : result A) : retrieval_only (lift r : Run A).
Proof. intros c. split; [reflexivity|constructor]. Qed.

Lemma retrieval_only_bind (m : Run A) (f : A -> Run B) :
  retrieval_only m -> (forall a, retrieval_only (f a)) -> retrieval_only (bind m f).
Proof.
  intros Hm Hf c. destruct (Hm c) as [Hfin Hq].
  unfold bind, final, events in *.
  destruct (m c) as [[[a|e] s1] ev1]; simpl in *; subst; [|by split].
  destruct (Hf a c) as [Hfin' Hq']. unfold final, events in *.
  destruct (f a c) as [[r s2] ev2]. simpl in *. split; [exact Hfin'|].
  by apply Forall_app.
Qed.

Lemma retrieval_only_try_except (m : Run A) (h : exn -> Run A) :
  retrieval_only m -> (forall e, retrieval_only (h e)) ->
  retrieval_only (try_except m h).
Proof.
  intros Hm Hh c. destruct (Hm c) as [Hfin Hq].
  unfold try_except, final, events in *.
  destruct (m c) as [[[a|e] s1] ev1]; simpl in *; subst; [by split|].
  destruct (Hh e c) as [Hfin' Hq']. unfold final, events in *.
  destruct (h e c) as [[r s2] ev2]. simpl in *. split; [exact Hfin'|].
  by apply Forall_app.
Qed.

Lemma ensures_ret (Q : A -> Prop) (a : A) : Q a -> ensures Q (ret a : Run A).
Proof. intros H c a' [= <-]. exact H. Qed.

Lemma ensures_bind (Q : B -> Prop) (m : Run A) (f : A -> Run B) :
  (forall a, ensures Q (f a)) -> ensures Q (bind m f).
Proof.
  intros Hf c b. specialize (fun a => Hf a). unfold bind, outcome.
  destruct (m c) as [[[a|e] s1] ev1]; simpl; [|discriminate].
  specialize (Hf a s1 b). unfold outcome in Hf.
  destruct (f a s1) as [[r s2] ev2]. exact Hf.
Qed.

(** Sequencing when the continuation is only known to behave on the
    values the first computation can return. *)
Lemma reads_only_bind_with (P : A -> Prop) (m : Run A) (f : A -> Run B) :
  reads_only names m -> (forall c a, outcome (m c) = Ok a -> P a) ->
  (forall a, P a -> reads_only names (f a)) ->
  reads_only names (bind m f).
Proof.
  intros Hm HP Hf c1 c2 Hc. destruct (Hm c1 c2 Hc) as (Ho & He & Hfin).
  specialize (HP c2).
  unfold bind, outcome, events, final in *.
  destruct (m c1) as [[r1 s1] ev1], (m c2) as [[r2 s2] ev2]. simpl in *. subst.
  destruct r2 as [a|e]; [|by simpl].
  destruct (Hf a (HP a eq_refl) s1 s2 Hfin) as (Ho' & He' & Hfin').
  unfold outcome, events, final in *.
  destruct (f a s1) as [[r1' s1'] ev1'], (f a s2) as [[r2' s2'] ev2'].
  simpl in *. by subst.
Qed.

Lemma writes_only_bind_with (P : A -> Prop) (m : Run A) (f : A -> Run B) :
  writes_only names m -> (forall c a, outcome (m c) = Ok a -> P a) ->
  (forall a, P a -> writes_only names (f a)) ->
  writes_only names (bind m f).
Proof.
  intros Hm HP Hf c n Hn. specialize (Hm c n Hn). specialize (HP c).
  unfold bind, final, outcome in *.
  destruct (m c) as [[[a|e] s1] ev1]; simpl in *; [|exact Hm].
  specialize (Hf a (HP a eq_refl) s1 n Hn). unfold final in Hf.
  destruct (f a s1) as [[r s2] ev2]. simpl in *. congruence.
Qed.

End Monad.

Section Operations.
Context (env : Env) (names : list string).

Lemma reads_only_similarity_search (store : VectorStore) (query : string) (k : nat) :
  index_name store ∈ names ->
  reads_only names (similarity_search env store query k).
Proof.
  intros Hin c1 c2 Hc. unfold similarity_search, outcome, events, final.
  cbn. rewrite (Hc _ Hin). auto.
Qed.

Lemma writes_only_similarity_search (store : VectorStore) (query : string) (k : nat) :
  writes_only names (similarity_search env store query k).
Proof. by intros c n Hn. Qed.

Lemma contents_insert (c : cluster) (n n' : string) (docs : list Document) :
  contents (<[n := docs]> c) n' = if decide (n = n') then docs else contents c n'.
Proof.
  unfold contents. destruct (decide (n = n')) as [->|Hne].
  - apply lookup_total_insert_eq.
  - by apply lookup_total_insert_ne.
Qed.

Lemma reads_only_add_documents (store : VectorStore) (batch : list Document) :
  reads_only names (add_documents env store batch).
Proof.
  intros c1 c2 Hc. unfold add_documents, outcome, events, final. cbn.
  destruct (write_fault env (index_name store) batch); cbn; [auto|].
  split_and!; [reflexivity..|].
  intros n Hn. rewrite !contents_insert.
  destruct (decide (index_name store = n)) as [<-|_]; [|by apply Hc].
  by rewrite (Hc _ Hn).
Qed.

Lemma writes_only_add_documents (store : VectorStore) (batch : list Document) :
  index_name store ∈ names ->
  writes_only names (add_documents env store batch).
Proof.
  intros Hin c n Hn. unfold add_documents, final. cbn.
  destruct (write_fault env (index_name store) batch); cbn; [reflexivity|].
  rewrite contents_insert. destruct (decide (index_name store = n)) as [<-|_]; done.
Qed.

(** Index provisioning always returns and leaves the cluster alone. *)
Lemma create_index_run (index_name : string) (c : cluster) :
  create_index_if_not_exists env index_name c
  = (Ok tt, c, provision_log env index_name).
Proof.
  unfold provision_log, create_index_if_not_exists, try_except, bind, tell, lift,
    ret, events.
  destruct (head_index env index_name) as [status_code|e]; simpl.
  - destruct (decide (status_code = 200%Z)); simpl; [reflexivity|].
    destruct (put_index env index_name) as [response|e]; simpl; [|reflexivity].
    by destruct (decide (response.1 ∈ [200%Z; 201%Z])).
  - destruct (put_index env index_name) as [response|e']; simpl; [|reflexivity].
    by destruct (decide (response.1 ∈ [200%Z; 201%Z])).
Qed.

Lemma provision_log_quiet (index_name : string) : quiet (provision_log env index_name).
Proof.
  unfold provision_log, create_index_if_not_exists, try_except, bind, tell, lift,
    ret, events, quiet.
  destruct (head_index env index_name) as [status_code|e]; simpl.
  - destruct (decide (status_code = 200%Z)); simpl; [by repeat constructor|].
    destruct (put_index env index_name) as [response|e]; simpl;
      [|by repeat constructor].
    destruct (decide (response.1 ∈ [200%Z; 201%Z])); by repeat constructor.
  - destruct (put_index env index_name) as [response|e']; simpl;
      [|by repeat constructor].
    destruct (decide (response.1 ∈ [200%Z; 201%Z])); by repeat constructor.
Qed.

Lemma get_doc_vector_store_run (tenant_id : string) (c : cluster) :
  get_doc_vector_store env tenant_id c
  = (Ok {| index_name := doc_index tenant_id |}, c,
     provision_log env (doc_index tenant_id)).
Proof.
  unfold get_doc_vector_store, bind. rewrite create_index_run.
  unfold ret. by rewrite app_nil_r.
Qed.

Lemma get_chat_history_vector_store_run (tenant_id : string) (c : cluster) :
  get_chat_history_vector_store env tenant_id c
  = (Ok {| index_name := chat_history_index tenant_id |}, c,
     provision_log env (chat_history_index tenant_id)).
Proof.
  unfold get_chat_history_vector_store, bind. rewrite create_index_run.
  unfold ret. by rewrite app_nil_r.
Qed.

Lemma doc_store_returned (tenant_id : string) (c : cluster) (store : VectorStore) :
  outcome (get_doc_vector_store env tenant_id c) = Ok store ->
  store = {| index_name := doc_index tenant_id |}.
Proof. rewrite get_doc_vector_store_run. by intros [= <-]. Qed.

Lemma chat_store_returned (tenant_id : string) (c : cluster) (store : VectorStore) :
  outcome (get_chat_history_vector_store env tenant_id c) = Ok store ->
  store = {| index_name := chat_history_index tenant_id |}.
Proof. rewrite get_chat_history_vector_store_run. by intros [= <-]. Qed.

Lemma reads_only_doc_store (tenant_id : string) :
  reads_only names (get_doc_vector_store env tenant_id).
Proof. intros c1 c2 H. by rewrite !get_doc_vector_store_run. Qed.

Lemma reads_only_chat_store (tenant_id : string) :
  reads_only names (get_chat_history_vector_store env tenant_id).
Proof. intros c1 c2 H. by rewrite !get_chat_history_vector_store_run. Qed.

Lemma writes_only_doc_store (tenant_id : string) :
  writes_only names (get_doc_vector_store env tenant_id).
Proof. intros c n H. by rewrite get_doc_vector_store_run. Qed.

Lemma writes_only_chat_store (tenant_id : string) :
  writes_only names (get_chat_history_vector_store env tenant_id).
Proof. intros c n H. by rewrite get_chat_history_vector_store_run. Qed.

Lemma retrieval_only_similarity_search (store : VectorStore) (query : string)
      (k : nat) :
  retrieval_only (similarity_search env store query k).
Proof. intros c. split; [reflexivity|]. cbn. by repeat constructor. Qed.

Lemma retrieval_only_doc_store (tenant_id : string) :
  retrieval_only (get_doc_vector_store env tenant_id).
Proof.
  intros c. rewrite get_doc_vector_store_run.
  split; [reflexivity|apply provision_log_quiet].
Qed.

Lemma retrieval_only_chat_store (tenant_id : string) :
  retrieval_only (get_chat_history_vector_store env tenant_id).
Proof.
  intros c. rewrite get_chat_history_vector_store_run.
  split; [reflexivity|apply provision_log_quiet].
Qed.

Lemma retrieval_only_log (line : string) : retrieval_only (tell (Log line)).
Proof. intros c. split; [reflexivity|]. cbn. by repeat constructor. Qed.

Lemma quiet_projections (log : list event) :
  quiet log -> invocations log = [] /\ yielded log = [] /\ submitted log = [].
Proof.
  induction 1 as [|e log He _ IH]; [done|].
  destruct IH as (Hi & Hy & Hs).
  unfold invocations, yielded, submitted in *.
  destruct e; simpl; (by destruct He) || by rewrite ?Hi, ?Hy, ?Hs.
Qed.

End Operations.

(** Proof search for the two confinement predicates, along the structure
    of the computation. *)
Ltac confine_step :=
  match goal with
  | |- reads_only _ (ret _) => apply reads_only_ret
  | |- reads_only _ (raise _) => apply reads_only_raise
  | |- reads_only _ (lift _) => apply reads_only_lift
  | |- reads_only _ (tell _) => apply reads_only_tell
  | |- reads_only _ (add_documents _ _ _) => apply reads_only_add_documents
  | |- reads_only _ (similarity_search _ _ _ _) =>
      apply reads_only_similarity_search; simpl; set_solver
  | |- reads_only _ (get_doc_vector_store _ _) => apply reads_only_doc_store
  | |- reads_only _ (get_chat_history_vector_store _ _) => apply reads_only_chat_store
  | |- reads_only _ (try_except _ _) => apply reads_only_try_except; [|intros ?]
  | |- reads_only _ (bind (get_doc_vector_store _ ?t) _) =>
      apply (reads_only_bind_with _ (fun a => a = {| index_name := doc_index t |}));
      [apply reads_only_doc_store|apply doc_store_returned|intros ? ->]
  | |- reads_only _ (bind (get_chat_history_vector_store _ ?t) _) =>
      apply (reads_only_bind_with _
               (fun a => a = {| index_name := chat_history_index t |}));
      [apply reads_only_chat_store|apply chat_store_returned|intros ? ->]
  | |- reads_only _ (bind _ _) => apply reads_only_bind; [|intros ?]
  | |- writes_only _ (ret _) => apply writes_only_ret
  | |- writes_only _ (raise _) => apply writes_only_raise
  | |- writes_only _ (lift _) => apply writes_only_lift
  | |- writes_only _ (tell _) => apply writes_only_tell
  | |- writes_only _ (add_documents _ _ _) =>
      apply writes_only_add_documents; simpl; set_solver
  | |- writes_only _ (similarity_search _ _ _ _) => apply writes_only_similarity_search
  | |- writes_only _ (get_doc_vector_store _ _) => apply writes_only_doc_store
  | |- writes_only _ (get_chat_history_vector_store _ _) => apply writes_only_chat_store
  | |- writes_only _ (try_except _ _) => apply writes_only_try_except; [|intros ?]
  | |- writes_only _ (bind (get_doc_vector_store _ ?t) _) =>
      apply (writes_only_bind_with _ (fun a => a = {| index_name := doc_index t |}));
      [apply writes_only_doc_store|apply doc_store_returned|intros ? ->]
  | |- writes_only _ (bind (get_chat_history_vector_store _ ?t) _) =>
      apply (writes_only_bind_with _
               (fun a => a = {| index_name := chat_history_index t |}));
      [apply writes_only_chat_store|apply chat_store_returned|intros ? ->]
  | |- writes_only _ (bind _ _) => apply writes_only_bind; [|intros ?]
  | |- reads_only _ (match ?x with _ => _ end) => destruct x
  | |- writes_only _ (match ?x with _ => _ end) => destruct x
  end.

Ltac confine := repeat confine_step.

Ltac lookup_step :=
  match goal with
  | |- retrieval_only (ret _) => apply retrieval_only_ret
  | |- retrieval_only (raise _) => apply retrieval_only_raise
  | |- retrieval_only (lift _) => apply retrieval_only_lift
  | |- retrieval_only (tell (Log _)) => apply retrieval_only_log
  | |- retrieval_only (similarity_search _ _ _ _) =>
      apply retrieval_only_similarity_search
  | |- retrieval_only (get_doc_vector_store _ _) => apply retrieval_only_doc_store
  | |- retrieval_only (get_chat_history_vector_store _ _) =>
      apply retrieval_only_chat_store
  | |- retrieval_only (try_except _ _) =>
      apply retrieval_only_try_except; [|intros ?]
  | |- retrieval_only (bind _ _) => apply retrieval_only_bind; [|intros ?]
  | |- retrieval_only (match ?x with _ => _ end) => destruct x
  end.

Ltac lookups := repeat lookup_step.

End StoreFacts.

(** ** Which indexes ingestion and answering read and write *)

Module PipelineFacts.
Import Py Eff Store StoreFacts.

Section Confinement.
Context (env : Env).

Lemma reads_only_index_batches names store filename chunks starts :
  reads_only names (Ingest.index_batches env store filename chunks starts).
Proof. induction starts as [|i starts IH]; simpl; confine. exact IH. Qed.

Lemma writes_only_index_batches names store filename chunks starts :
  index_name store ∈ names ->
  writes_only names (Ingest.index_batches env store filename chunks starts).
Proof. intros Hin. induction starts as [|i starts IH]; simpl; confine. exact IH. Qed.

(** Ingestion consults no index. *)
Lemma reads_only_ingest_file_bytes names file_bytes filename tenant_id :
  reads_only names (Ingest.ingest_file_bytes env file_bytes filename tenant_id).
Proof.
  unfold Ingest.ingest_file_bytes, Ingest.load_and_split, Ingest.load_or_fallback,
    Ingest.pass_or_raise.
  confine. apply reads_only_index_batches.
Qed.

(** Ingestion writes to the document index of its tenant only. *)
Lemma writes_only_ingest_file_bytes file_bytes filename tenant_id :
  writes_only [doc_index tenant_id]
              (Ingest.ingest_file_bytes env file_bytes filename tenant_id).
Proof.
  unfold Ingest.ingest_file_bytes, Ingest.load_and_split, Ingest.load_or_fallback,
    Ingest.pass_or_raise.
  confine. apply writes_only_index_batches. simpl. set_solver.
Qed.

Lemma reads_only_forward names contents response_chunks :
  reads_only names (Rag.forward contents response_chunks).
Proof.
  revert response_chunks.
  induction contents as [|content rest IH]; intros acc; simpl; confine. apply IH.
Qed.

Lemma writes_only_forward names contents response_chunks :
  writes_only names (Rag.forward contents response_chunks).
Proof.
  revert response_chunks.
  induction contents as [|content rest IH]; intros acc; simpl; confine. apply IH.
Qed.

(** Answering consults the two indexes of its tenant only. *)
Lemma reads_only_stream_rag_response query tenant_id :
  reads_only [doc_index tenant_id; chat_history_index tenant_id]
             (Rag.stream_rag_response env query tenant_id).
Proof.
  unfold Rag.stream_rag_response, Rag.prepare, Rag.ensure_indexes_exist,
    Rag.get_relevant_history, Rag.get_relevant_documents, Rag.generate,
    Rag.store_chat_history.
  confine; apply reads_only_forward.
Qed.

(** Answering writes to the chat-history index of its tenant only. *)
Lemma writes_only_stream_rag_response query tenant_id :
  writes_only [chat_history_index tenant_id]
              (Rag.stream_rag_response env query tenant_id).
Proof.
  unfold Rag.stream_rag_response, Rag.prepare, Rag.ensure_indexes_exist,
    Rag.get_relevant_history, Rag.get_relevant_documents, Rag.generate,
    Rag.store_chat_history.
  confine; apply writes_only_forward.
Qed.

End Confinement.

End PipelineFacts.

(** ** The answer stream, step by step *)

Module RagFacts.
Import Py Eff Store StoreFacts Rag.

Lemma app_inv_tail_string (s1 s2 t : string) : s1 +:+ t = s2 +:+ t -> s1 = s2.
Proof.
  intros H. apply (f_equal Text.of_string) in H.
  rewrite !TextFacts.of_string_app in H. apply app_inv_tail in H.
  apply (f_equal Text.to_string) in H. by rewrite !TextFacts.to_of_string in H.
Qed.

Lemma label_inj (i j : nat) : label i = label j -> i = j.
Proof.
  unfold label. intros H. apply (String.app_inj "[") in H.
  apply app_inv_tail_string in H. apply (inj pretty) in H. lia.
Qed.

Lemma set_fresh {V} (d : dict V) (k : string) (v : V) :
  k ∉ map fst d -> set d k v = d ++ [(k, v)].
Proof.
  induction d as [|[k' v'] d IH]; intros Hk; [reflexivity|].
  simpl in *. apply not_elem_of_cons in Hk as [Hne Hk].
  destruct (decide (k' = k)) as [->|_]; [done|]. by rewrite IH.
Qed.

(** The loop over the ranked chunks appends one entry per chunk, labelled
    by its rank. *)
Lemma build_sources_appends (docs : list Document) (descs : list string)
      (start : nat) (sources : dict string) :
  Forall2 (fun doc d => descriptor doc = Ok d) docs descs ->
  map fst sources = map label (seq 0 start) ->
  build_sources (combine (seq start (length docs)) docs) sources
  = Ok (sources ++ combine (map label (seq start (length docs))) descs).
Proof.
  intros Hdescs. revert start sources.
  induction Hdescs as [|doc d docs descs Hd _ IH]; intros start sources Hkeys.
  - simpl. by rewrite app_nil_r.
  - simpl. rewrite Hd. rewrite set_fresh.
    + rewrite IH.
      * by rewrite <- app_assoc.
      * rewrite map_app, Hkeys, seq_S, map_app. reflexivity.
    + rewrite Hkeys. intros Hin. apply list_elem_of_fmap in Hin as (j & Hj & Hin).
      apply label_inj in Hj as <-. apply elem_of_seq in Hin. lia.
Qed.

Lemma descriptor_defined (doc : Document) :
  page_is_number doc -> exists d, descriptor doc = Ok d.
Proof.
  unfold page_is_number, descriptor.
  destruct (get (metadata doc) "page" VNone); simpl; by eauto.
Qed.

Lemma descriptors_defined (docs : list Document) :
  Forall page_is_number docs ->
  exists descs, Forall2 (fun doc d => descriptor doc = Ok d) docs descs.
Proof.
  induction 1 as [|doc docs Hdoc _ (descs & IH)]; [by exists []|].
  destruct (descriptor_defined doc Hdoc) as (d & Hd).
  exists (d :: descs). by constructor.
Qed.

Lemma combine_lookup {X Y} (xs : list X) (ys : list Y) (i : nat) (x : X) (y : Y) :
  xs !! i = Some x -> ys !! i = Some y -> combine xs ys !! i = Some (x, y).
Proof.
  revert ys i. induction xs as [|x' xs IH]; intros [|y' ys] [|i]; simpl; try done.
  - by intros [= ->] [= ->].
  - apply IH.
Qed.

Lemma map_fst_combine {X Y} (xs : list X) (ys : list Y) :
  length xs = length ys -> map fst (combine xs ys) = xs.
Proof.
  revert ys. induction xs as [|x xs IH]; intros [|y ys] Hlen; simpl in *; try done.
  f_equal. apply IH. lia.
Qed.

Lemma enumerate_lookup {X} (l : list X) (i : nat) (x : X) :
  l !! i = Some x -> enumerate l !! i = Some (i, x).
Proof.
  intros Hx. apply combine_lookup; [|exact Hx].
  apply lookup_seq. split; [reflexivity|]. by eapply lookup_lt_Some.
Qed.

Lemma context_line_shape (i : nat) (doc : Document) :
  context_line (i, doc) = "[" +:+ pretty (i + 1) +:+ "] " +:+ page_content doc.
Proof.
  unfold context_line, label. simpl.
  change ("[" +:+ pretty (i + 1) +:+ "]") with (String "[" (pretty (i + 1) +:+ "]")).
  change ("[" +:+ pretty (i + 1) +:+ "] " +:+ page_content doc)
    with (String "[" (pretty (i + 1) +:+ "] " +:+ page_content doc)).
  change (String "[" (pretty (i + 1) +:+ "]") +:+ " " +:+ page_content doc)
    with (String "[" ((pretty (i + 1) +:+ "]") +:+ " " +:+ page_content doc)).
  by rewrite TextFacts.append_assoc.
Qed.

(** The labels of the ranks [0] to [K-1] are ["[1]"] to ["[K]"]. *)
Lemma labels_one_based (K : nat) :
  map label (seq 0 K) = map (fun n => "[" +:+ pretty n +:+ "]") (seq 1 K).
Proof.
  rewrite <- (seq_shift K 0), map_map. apply map_ext. intros i.
  unfold label. by rewrite Nat.add_1_r.
Qed.

Lemma labels_distinct (K : nat) : NoDup (map label (seq 0 K)).
Proof.
  apply (NoDup_fmap_2_strong label).
  - intros i j _ _. apply label_inj.
  - apply NoDup_seq.
Qed.

Section Steps.
Context (env : Env).

Lemma forward_run (contents response_chunks : list string) (c : cluster) :
  forward contents response_chunks c
  = (Ok (response_chunks ++ contents), c, map Yield contents).
Proof.
  revert response_chunks. induction contents as [|content rest IH]; intros acc.
  - simpl. unfold ret. by rewrite app_nil_r.
  - simpl. unfold bind, tell. rewrite IH. by rewrite <- app_assoc.
Qed.

(** Step 5 always returns the contents that arrived, whether the stream
    ended normally or by an exception, and leaves the cluster alone. *)
Lemma generate_run (formatted_prompt : string) (c : cluster) :
  generate env formatted_prompt c
  = (Ok (fst (astream env formatted_prompt)), c, stream_log env formatted_prompt).
Proof.
  unfold generate, stream_log, bind, tell. rewrite forward_run.
  destruct (snd (astream env formatted_prompt)); simpl; unfold ret;
    by rewrite ?app_nil_r.
Qed.

(** Step 6 always returns: it submits exactly one record to the
    chat-history index of the tenant, and a failure of that write is
    logged, not raised. *)
Lemma store_chat_history_run (query response tenant_id : string) (c : cluster) :
  store_chat_history env query response tenant_id c
  = (Ok tt, persisted env query response tenant_id c,
     persist_log env query response tenant_id).
Proof.
  unfold store_chat_history, persisted, persist_log, try_except, bind.
  rewrite get_chat_history_vector_store_run.
  unfold add_documents, bind, tell, ret, raise, get_state, put_state. simpl.
  destruct (write_fault env (chat_history_index tenant_id)
                        [chat_record query response tenant_id]);
    simpl; by rewrite <- ?app_assoc, ?app_nil_r.
Qed.

(** Step 3 when the search finds nothing. *)
Lemma get_relevant_documents_none (query tenant_id : string) (k : nat) (c : cluster) :
  rank env (doc_index tenant_id) (contents c (doc_index tenant_id)) query k = Ok [] ->
  get_relevant_documents env query tenant_id k c
  = (Ok (empty_context, []), c,
     provision_log env (doc_index tenant_id)
     ++ [Search (doc_index tenant_id) query k]).
Proof.
  intros Hrank. unfold get_relevant_documents, bind at 1.
  rewrite get_doc_vector_store_run.
  unfold bind, similarity_search, bind, tell, ret, get_state, lift.
  simpl. by rewrite Hrank.
Qed.

(** Step 3 when the search finds chunks whose descriptors can be built. *)
Lemma get_relevant_documents_some (query tenant_id : string) (k : nat) (c : cluster)
      (docs : list Document) (descs : list string) :
  docs <> [] ->
  rank env (doc_index tenant_id) (contents c (doc_index tenant_id)) query k = Ok docs ->
  Forall2 (fun doc d => descriptor doc = Ok d) docs descs ->
  get_relevant_documents env query tenant_id k c
  = (Ok (Text.str_join Text.nl (map context_line (enumerate docs)),
         combine (map label (seq 0 (length docs))) descs), c,
     provision_log env (doc_index tenant_id)
     ++ [Search (doc_index tenant_id) query k]).
Proof.
  intros Hne Hrank Hdescs. unfold get_relevant_documents, bind at 1.
  rewrite get_doc_vector_store_run.
  unfold bind, similarity_search, bind, tell, ret, get_state, lift.
  simpl. rewrite Hrank. destruct docs as [|doc docs]; [done|].
  unfold enumerate.
  by rewrite (build_sources_appends (doc :: docs) descs 0 [] Hdescs eq_refl).
Qed.

(** Step 2 always returns a history text, and only looks things up. *)
Lemma get_relevant_history_run (query tenant_id : string) (k : nat) (c : cluster) :
  exists chat_history log,
    get_relevant_history env query tenant_id k c = (Ok chat_history, c, log).
Proof.
  unfold get_relevant_history, try_except, bind at 1, bind at 1.
  rewrite get_chat_history_vector_store_run.
  unfold bind, similarity_search, bind, tell, ret, get_state, lift.
  simpl.
  destruct (rank env (chat_history_index tenant_id)
                 (contents c (chat_history_index tenant_id)) query k)
    as [[|doc docs]|e]; simpl; eauto.
Qed.

(** Steps 1 to 4, once step 3 has returned. *)
Lemma prepare_run (query tenant_id : string) (c : cluster)
      (context : string) (sources : dict string) (log : list event) :
  get_relevant_documents env query tenant_id 10 c = (Ok (context, sources), c, log) ->
  exists chat_history log',
    outcome (get_relevant_history env query tenant_id 3 c) = Ok chat_history
    /\ prepare env query tenant_id c
       = (Ok (format_prompt context (sources_block sources) chat_history query,
              sources), c, log').
Proof.
  intros Hdocs.
  destruct (get_relevant_history_run query tenant_id 3 c) as (h & hlog & Hh).
  exists h. unfold prepare, bind at 1.
  unfold ensure_indexes_exist, bind at 1.
  rewrite get_doc_vector_store_run. unfold bind at 1.
  rewrite get_chat_history_vector_store_run. unfold ret at 1.
  unfold bind at 1. rewrite Hh. unfold bind at 1. rewrite Hdocs.
  simpl. eauto.
Qed.

(** Steps 1 to 4 only look things up. *)
Lemma prepare_retrieval_only (query tenant_id : string) :
  retrieval_only (prepare env query tenant_id).
Proof.
  unfold prepare, ensure_indexes_exist, get_relevant_history,
    get_relevant_documents.
  lookups.
Qed.

(** The sources block that the prompt shows is the block of the sources
    that [prepare] returns. *)
Lemma prepare_prompt_shape (query tenant_id : string) :
  ensures (fun ps => exists context chat_history,
             fst ps = format_prompt context (sources_block (snd ps))
                                    chat_history query)
          (prepare env query tenant_id).
Proof.
  unfold prepare.
  apply ensures_bind; intros _. apply ensures_bind; intros chat_history.
  apply ensures_bind; intros cs. apply ensures_bind; intros _.
  apply ensures_ret. simpl. eauto.
Qed.

(** The whole answer, once the prompt is prepared. *)
Lemma stream_rag_response_run (query tenant_id : string) (c c1 : cluster)
      (formatted_prompt : string) (sources : dict string) (log1 : list event) :
  prepare env query tenant_id c = (Ok (formatted_prompt, sources), c1, log1) ->
  let response :=
    final_response (fst (astream env formatted_prompt)) sources in
  stream_rag_response env query tenant_id c
  = (Ok tt, persisted env query response tenant_id c1,
     log1 ++ stream_log env formatted_prompt
          ++ persist_log env query response tenant_id).
Proof.
  intros Hprep. unfold stream_rag_response, bind. rewrite Hprep. simpl.
  rewrite generate_run, store_chat_history_run. reflexivity.
Qed.

(** The upload endpoint does not load a file whose name ends with none
    of the accepted suffixes: it records an error line and goes on. *)
Lemma ingest_files_skips_unsupported (tenantId : string) (file : UploadFile)
      (rest : list UploadFile) (total_chunks : nat) (errors : list string) :
  existsb (Text.endswith (filename file)) upload_suffixes = false ->
  ingest_files env tenantId (file :: rest) total_chunks errors
  = ingest_files env tenantId rest total_chunks
                 (errors ++ ["Unsupported file type: " +:+ filename file]).
Proof. intros Hgate. cbn [ingest_files]. by rewrite Hgate. Qed.

End Steps.

Lemma yielded_yields (l : list string) : yielded (map Yield l) = l.
Proof. induction l as [|x l IH]; [done|]. cbn. by f_equal. Qed.

Lemma invocations_yields (l : list string) : invocations (map Yield l) = [].
Proof. induction l as [|x l IH]; [done|]. by cbn. Qed.

Lemma submitted_yields (l : list string) : submitted (map Yield l) = [].
Proof. induction l as [|x l IH]; [done|]. by cbn. Qed.

Lemma invocations_app (l1 l2 : list event) :
  invocations (l1 ++ l2) = invocations l1 ++ invocations l2.
Proof. apply omap_app. Qed.

Lemma yielded_app (l1 l2 : list event) :
  yielded (l1 ++ l2) = yielded l1 ++ yielded l2.
Proof. apply omap_app. Qed.

Lemma submitted_app (l1 l2 : list event) :
  submitted (l1 ++ l2) = submitted l1 ++ submitted l2.
Proof. apply omap_app. Qed.

Lemma invocations_stream_log (env : Env) (prompt : string) :
  invocations (stream_log env prompt) = [prompt].
Proof.
  unfold stream_log. rewrite !invocations_app, invocations_yields.
  by destruct (astream env prompt).2.
Qed.

Lemma invocations_persist_log (env : Env) (query response tenant_id : string) :
  invocations (persist_log env query response tenant_id) = [].
Proof.
  unfold persist_log. rewrite !invocations_app.
  destruct (quiet_projections _ (provision_log_quiet env
                                   (chat_history_index tenant_id)))
    as (-> & _ & _).
  by destruct (write_fault env (chat_history_index tenant_id)
                           [chat_record query response tenant_id]).
Qed.


End RagFacts.

(** ** The rendered prompt *)

Module PromptFacts.
Import Rag.

(** [RAG_TEMPLATE] with its four fields filled in, line by line. *)
Lemma format_prompt_rendered (context sources_block chat_history question : string) :
  format_prompt context sources_block chat_history question
  = String.concat (String "010"%char "")
     ["";
      "<|SYSTEM|>";
      "You are a precise RAG assistant. Your sole task is to answer the user's `<QUESTION>` using ONLY the provided `<CONTEXT>`.";
      "";
      "## Your Rules:";
      "1.  **Strictly Grounded:** Base every single statement in your answer on the provided text. NEVER use external knowledge or make assumptions.";
      "2.  **Cite Everything:** You MUST add a citation `[1]` or `[3][5]` after every piece of information. The citation goes *before* the punctuation.";
      "3.  **List Your Sources:** After the answer, you MUST provide a `Sources:` list, citing the full title of each source you used.";
      "4.  **Be Direct:** Do not add any conversational preamble. Start directly with the answer.";
      "5.  **Handle No Information Politely:** If the context does not contain the answer, you MUST respond with the exact phrase: " +:+ String "034"%char "" +:+ "I'm sorry, but I couldn't find the information needed to answer your question in the provided documents." +:+ String "034"%char "";
      "";
      "<|USER|>";
      "<CONTEXT>";
      context;
      "</CONTEXT>";
      "";
      "<SOURCES_BLOCK>";
      sources_block;
      "</SOURCES_BLOCK>";
      "";
      "<CHAT_HISTORY>";
      chat_history;
      "</CHAT_HISTORY>";
      "";
      "<QUESTION>";
      question;
      "</QUESTION>";
      "";
      "<|SYSTEM|>";
      ""].
Proof. reflexivity. Qed.

End PromptFacts.

(** ** Ingestion of a file whose extraction fails *)

Module IngestFacts.
Import Py Eff Store StoreFacts Ingest.

Lemma lookup_set {V} (d : dict V) (k k' : string) (v : V) :
  lookup (set d k v) k' = if decide (k = k') then Some v else lookup d k'.
Proof.
  induction d as [|[k0 v0] d IH]; simpl.
  - destruct (decide (k = k')); reflexivity.
  - destruct (decide (k0 = k)) as [->|Hne]; simpl.
    + destruct (decide (k = k')); reflexivity.
    + rewrite IH. destruct (decide (k0 = k')) as [->|]; [|reflexivity].
      by destruct (decide (k = k')).
Qed.

Lemma clean_metadata_filled (items : list (string * value)) (cleaned : dict value) :
  (forall k v, lookup cleaned k = Some v -> filled v) ->
  forall k v, lookup (clean_metadata items cleaned) k = Some v -> filled v.
Proof.
  revert cleaned. induction items as [|[k0 v0] items IH]; intros cleaned Hc; [exact Hc|].
  assert (filled v0 ->
          forall k v, lookup (clean_metadata items (set cleaned k0 v0)) k = Some v ->
                      filled v) as Hset.
  { intros Hv0. apply IH. intros k v. rewrite lookup_set.
    destruct (decide (k0 = k)); [by intros [= <-]|apply Hc]. }
  simpl. destruct v0 as [|b|z|s]; try (by apply Hset); [by apply IH|].
  destruct (decide (Text.str_strip s = "")); [by apply IH|by apply Hset].
Qed.

(** After ingestion, a chunk's title, if it has one, is filled; a text
    title is then a non-empty text, which Python treats as true. *)
Lemma annotate_title_filled (filename : string) (doc : Document) (v : value) :
  lookup (metadata (annotate filename doc)) "title" = Some v -> filled v.
Proof.
  unfold annotate, update. simpl. rewrite !lookup_set. simpl.
  apply clean_metadata_filled. by intros k v'.
Qed.

Lemma filled_text_truthy (s : string) : filled (VStr s) -> truthy (VStr s) = true.
Proof.
  simpl. intros Hs. destruct s; [by destruct Hs|reflexivity].
Qed.

Section Fallback.
Context (env : Env).

(** The text of the fallback document has a word character. *)
Lemma fallback_has_words (filename : string) (e : exn) :
  Text.keep_words (Text.of_string (page_content (fallback_document filename e))) <> [].
Proof.
  unfold fallback_document. cbn [page_content].
  rewrite TextFacts.of_string_app, TextFacts.keep_words_app.
  intros H. apply app_eq_nil in H as [H _]. vm_compute in H. discriminate.
Qed.

(** The fallback document survives the cleaning loop. *)
Lemma process_fallback (filename : string) (e : exn) :
  process_docs [fallback_document filename e] [] = [cleaned_fallback filename e].
Proof.
  pose proof (fallback_has_words filename e) as Hwords.
  destruct (NormalizerFacts.clean_text_not_blank _ Hwords) as [_ Hstrip].
  unfold process_docs.
  destruct (decide (page_content (fallback_document filename e) = "")) as [E|_].
  { rewrite E in Hwords. by destruct Hwords. }
  destruct (decide (Text.str_strip
                      (Normalizer.clean_text
                         (page_content (fallback_document filename e)) false) = ""))
    as [E|_]; [by destruct Hstrip|].
  reflexivity.
Qed.

(** A failed extraction is caught: the fallback document takes the place
    of the extracted ones. *)
Lemma load_or_fallback_failure (file_bytes : list Byte.byte) (filename : string)
      (e : exn) (c : cluster) :
  load_documents env file_bytes filename = Raise e ->
  load_or_fallback env file_bytes filename c
  = (Ok [fallback_document filename e], c,
     [Log ("Error loading " +:+ filename +:+ ": " +:+ message e)]).
Proof.
  intros Hload. unfold load_or_fallback, try_except, lift. rewrite Hload.
  reflexivity.
Qed.

(** The outcomes of [load_and_split], by what happens to the temporary
    file. *)
Lemma load_and_split_cases (file_bytes : list Byte.byte) (filename : string)
      (c : cluster) :
  load_and_split env file_bytes filename c
  = match temp_fault env (suffix_lower env filename) file_bytes with
    | Some e => (Raise e, c, [])
    | None =>
        match load_or_fallback env file_bytes filename c with
        | (Ok docs, c', log) =>
            match temp_close_fault env (suffix_lower env filename) with
            | Some e => (Raise e, c', log)
            | None =>
                (Ok match process_docs docs [] with
                    | [] => []
                    | processed_docs => split_documents env processed_docs
                    end, c', log)
            end
        | (Raise e, c', log) => (Raise e, c', log)
        end
    end.
Proof.
  unfold load_and_split, pass_or_raise. cbv zeta. unfold bind at 1.
  destruct (temp_fault env (suffix_lower env filename) file_bytes); [done|].
  cbn [ret raise]. unfold bind at 1.
  destruct (load_or_fallback env file_bytes filename c) as [[[docs|e] c'] log];
    [|done].
  unfold bind.
  destruct (temp_close_fault env (suffix_lower env filename)); cbn;
    [by rewrite app_nil_r|].
  destruct (process_docs docs []); cbn; by rewrite !app_nil_r.
Qed.

Lemma load_and_split_failure (file_bytes : list Byte.byte) (filename : string)
      (e : exn) (c : cluster) :
  temp_fault env (suffix_lower env filename) file_bytes = None ->
  temp_close_fault env (suffix_lower env filename) = None ->
  load_documents env file_bytes filename = Raise e ->
  load_and_split env file_bytes filename c
  = (Ok (split_documents env [cleaned_fallback filename e]), c,
     [Log ("Error loading " +:+ filename +:+ ": " +:+ message e)]).
Proof.
  intros Htemp Hclose Hload. rewrite load_and_split_cases, Htemp.
  rewrite (load_or_fallback_failure _ _ _ _ Hload), Hclose, process_fallback.
  reflexivity.
Qed.

(** The batch loop raises only what a write raised. *)
Lemma index_batches_outcome (store : VectorStore) (filename : string)
      (chunks : list Document) (starts : list nat) (c : cluster) :
  match outcome (index_batches env store filename chunks starts c) with
  | Ok _ => True
  | Raise e => exists batch, write_fault env (index_name store) batch = Some e
  end.
Proof.
  revert c. induction starts as [|i starts IH]; intros c; [exact I|].
  simpl. unfold bind at 1, try_except, bind at 1, add_documents, bind at 1, tell.
  destruct (write_fault env (index_name store) (take BATCH_SIZE (drop i chunks)))
    as [e|] eqn:Hfault.
  - unfold raise, bind, tell, outcome. simpl. eauto.
  - unfold bind at 1, get_state, put_state. simpl.
    match goal with
    | |- context [index_batches env store filename chunks starts ?c'] =>
        specialize (IH c');
        destruct (index_batches env store filename chunks starts c')
          as [[r s] ev]
    end.
    exact IH.
Qed.

Lemma index_batches_healthy (store : VectorStore) (filename : string)
      (chunks : list Document) (starts : list nat) (c : cluster) :
  (forall batch, write_fault env (index_name store) batch = None) ->
  outcome (index_batches env store filename chunks starts c) = Ok tt.
Proof.
  intros Hhealthy.
  pose proof (index_batches_outcome store filename chunks starts c) as H.
  destruct (outcome (index_batches env store filename chunks starts c))
    as [[]|e]; [reflexivity|].
  destruct H as (batch & Hbatch). by rewrite Hhealthy in Hbatch.
Qed.

(** Ingestion after a failed extraction: it returns the number of chunks
    of the fallback document, or raises what an index write or the
    temporary file raised. *)
Lemma ingest_after_failure (file_bytes : list Byte.byte)
      (filename tenant_id : string) (e : exn) (c : cluster) :
  load_documents env file_bytes filename = Raise e ->
  split_documents env [cleaned_fallback filename e] <> [] ->
  match outcome (ingest_file_bytes env file_bytes filename tenant_id c) with
  | Ok n => n = length (split_documents env [cleaned_fallback filename e])
  | Raise e' =>
      (exists batch, write_fault env (doc_index tenant_id) batch = Some e')
      \/ temp_fault env (suffix_lower env filename) file_bytes = Some e'
      \/ temp_close_fault env (suffix_lower env filename) = Some e'
  end.
Proof.
  intros Hload Hsplit.
  unfold ingest_file_bytes, try_except, bind at 1.
  rewrite load_and_split_cases, (load_or_fallback_failure _ _ _ c Hload).
  destruct (temp_fault env (suffix_lower env filename) file_bytes) as [e0|];
    [cbn; auto|].
  destruct (temp_close_fault env (suffix_lower env filename)) as [e0|];
    [cbn; auto|].
  rewrite process_fallback.
  destruct (split_documents env [cleaned_fallback filename e])
    as [|chunk chunks] eqn:Hchunks; [done|].
  unfold bind at 1. rewrite get_doc_vector_store_run.
  unfold bind at 1.
  pose proof (index_batches_outcome {| index_name := doc_index tenant_id |}
                filename (map (annotate filename) (chunk :: chunks))
                (range_step (length (map (annotate filename) (chunk :: chunks)))
                            BATCH_SIZE) c) as Hbatches.
  destruct (index_batches env {| index_name := doc_index tenant_id |} filename
              (map (annotate filename) (chunk :: chunks))
              (range_step (length (map (annotate filename) (chunk :: chunks)))
                          BATCH_SIZE) c) as [[[[]|e'] c'] log] eqn:Hrun.
  - unfold outcome. cbn. by rewrite length_map.
  - unfold outcome in *. cbn in *. left. exact Hbatches.
Qed.
End Fallback.

End IngestFacts.

(** ** Facts about the pipeline seen from outside *)

Module OutlineFacts.
Import Py Eff Store Ingest Rag Outline StoreFacts IngestFacts RagFacts.

Lemma creations_app (l1 l2 : list event) :
  creations (l1 ++ l2) = creations l1 ++ creations l2.
Proof. induction l1 as [|[]]; cbn; by f_equal. Qed.

Lemma quiet_app (l1 l2 : list event) : quiet l1 -> quiet l2 -> quiet (l1 ++ l2).
Proof. unfold quiet. rewrite Forall_app. auto. Qed.

(** *** Index provisioning *)

Lemma provision_log_shape (env : Env) (index_name : string) :
  head (provision_log env index_name) = Some (HeadIndex index_name)
  /\ creations (provision_log env index_name)
     = if index_found (head_index env index_name) then []
       else [(index_name, VECTOR_DIMENSION)].
Proof.
  unfold provision_log, create_index_if_not_exists, try_except, bind, tell, lift,
    ret, events, index_found.
  destruct (head_index env index_name) as [status_code|e]; simpl.
  - destruct (decide (status_code = 200%Z)); simpl.
    + by rewrite bool_decide_true.
    + rewrite bool_decide_false by done.
      destruct (put_index env index_name) as [response|e]; simpl; [|done].
      by destruct (decide (response.1 ∈ [200%Z; 201%Z])).
  - destruct (put_index env index_name) as [response|e']; simpl; [|done].
    by destruct (decide (response.1 ∈ [200%Z; 201%Z])).
Qed.

(** *** The cleaning loop *)

Lemma clean_text_stripped (text : string) (preserve : bool) :
  Text.str_strip (Normalizer.clean_text text preserve)
  = Normalizer.clean_text text preserve.
Proof.
  unfold Text.str_strip, Normalizer.clean_text.
  rewrite TextFacts.of_to_string, LayoutFacts.strip_trimmed; [done|].
  apply LayoutFacts.clean_chars_trimmed.
Qed.

Lemma process_docs_normalized (docs processed_docs : list Document) :
  process_docs docs processed_docs = processed_docs ++ omap normalized docs.
Proof.
  revert processed_docs. induction docs as [|doc docs IH]; intros processed_docs.
  - simpl. by rewrite app_nil_r.
  - cbn [process_docs omap list_omap]. unfold normalized at 1.
    rewrite clean_text_stripped.
    destruct (decide (page_content doc = "")) as [E|_].
    + rewrite E. cbn. apply IH.
    + destruct (decide (Normalizer.clean_text (page_content doc) false = "")).
      * apply IH.
      * rewrite IH. by rewrite <- app_assoc.
Qed.

(** *** The metadata of an ingested chunk *)

Lemma filled_keeps (v : value) : filled v <-> keeps v = true.
Proof.
  destruct v as [|b|z|s]; simpl; try done.
  rewrite negb_true_iff, bool_decide_eq_false. done.
Qed.

Lemma lookup_clean_metadata (items : list (string * value)) (cleaned : dict value)
      (k : string) :
  NoDup (map fst items) ->
  lookup (clean_metadata items cleaned) k
  = match lookup items k with
    | Some v => if keeps v then Some v else lookup cleaned k
    | None => lookup cleaned k
    end.
Proof.
  revert cleaned. induction items as [|[k0 v0] items IH]; intros cleaned Hnd; [done|].
  apply NoDup_cons in Hnd as [Hk0 Hnd].
  assert (lookup items k0 = None) as Hfresh.
  { clear -Hk0. induction items as [|[k1 v1] items IH]; [done|].
    simpl in *. apply not_elem_of_cons in Hk0 as [Hne Hk0].
    destruct (decide (k1 = k0)); [congruence|auto]. }
  assert (lookup (clean_metadata items (set cleaned k0 v0)) k
          = match lookup ((k0, v0) :: items) k with
            | Some v => if keeps v then Some v
                        else if decide (k0 = k) then Some v0 else lookup cleaned k
            | None => lookup cleaned k
            end) as Hset.
  { rewrite IH by done. rewrite lookup_set. simpl.
    destruct (decide (k0 = k)) as [->|Hne].
    - rewrite Hfresh. by destruct (keeps v0).
    - done. }
  assert (lookup (clean_metadata items cleaned) k
          = match lookup ((k0, v0) :: items) k with
            | Some v => if decide (k0 = k) then lookup cleaned k
                        else if keeps v then Some v else lookup cleaned k
            | None => lookup cleaned k
            end) as Hskip.
  { rewrite IH by done. simpl.
    destruct (decide (k0 = k)) as [->|Hne]; [by rewrite Hfresh|done]. }
  cbn [clean_metadata].
  destruct v0 as [|b|z|s].
  - rewrite Hskip. simpl. by destruct (decide (k0 = k)).
  - rewrite Hset. simpl. by destruct (decide (k0 = k)).
  - rewrite Hset. simpl. by destruct (decide (k0 = k)).
  - destruct (decide (Text.str_strip s = "")) as [E|E].
    + assert (keeps (VStr s) = false) as Hk
        by (unfold keeps; by rewrite bool_decide_true).
      rewrite Hskip. cbn [lookup].
      destruct (decide (k0 = k)); [by rewrite Hk|done].
    + assert (keeps (VStr s) = true) as Hk
        by (unfold keeps; by rewrite bool_decide_false).
      rewrite Hset. cbn [lookup].
      destruct (decide (k0 = k)); [by rewrite Hk|done].
Qed.

(** *** Batches *)

Lemma slices_concat {A} (k m : nat) (l : list A) :
  length l <= m * k ->
  concat (map (fun j => take k (drop (j * k) l)) (seq 0 m)) = l.
Proof.
  revert l. induction m as [|m IH]; intros l Hlen.
  - destruct l; [done|simpl in Hlen; lia].
  - cbn [seq map concat]. rewrite <- seq_shift, map_map.
    rewrite (map_ext _ (fun j => take k (drop (j * k) (drop k l)))).
    + rewrite IH; [by rewrite Nat.mul_0_l, drop_0, take_drop|].
      rewrite length_drop. lia.
    + intros j. rewrite drop_drop. by do 2 f_equal.
Qed.

Lemma batches_slices (chunks : list Document) :
  batches chunks
  = map (fun j => take BATCH_SIZE (drop (j * BATCH_SIZE) chunks))
        (seq 0 ((length chunks + 99) / 100)).
Proof. unfold batches, range_step, batch_at. by rewrite map_map. Qed.

Lemma batches_concat (chunks : list Document) : concat (batches chunks) = chunks.
Proof.
  rewrite batches_slices. apply slices_concat. unfold BATCH_SIZE.
  pose proof (Nat.div_mod_eq (length chunks + 99) 100).
  pose proof (Nat.mod_upper_bound (length chunks + 99) 100). lia.
Qed.

Lemma batches_length (chunks : list Document) :
  length (batches chunks) = (length chunks + 99) / 100.
Proof. rewrite batches_slices. by rewrite length_map, length_seq. Qed.

Lemma batches_sizes (chunks : list Document) :
  Forall (fun b => 0 < length b <= BATCH_SIZE) (batches chunks).
Proof.
  rewrite batches_slices. apply Forall_map, Forall_forall. intros j Hj.
  apply list_elem_of_In, in_seq in Hj. simpl.
  rewrite length_take, length_drop. unfold BATCH_SIZE.
  pose proof (Nat.div_mod_eq (length chunks + 99) 100).
  pose proof (Nat.mod_upper_bound (length chunks + 99) 100). lia.
Qed.

Section Indexing.
Context (env : Env).

(** One round of the indexing loop. *)
Lemma index_batches_cons (store : VectorStore) (filename : string)
      (chunks : list Document) (i : nat) (rest : list nat) (c : cluster) :
  index_batches env store filename chunks (i :: rest) c
  = match write_fault env (index_name store) (batch_at chunks i) with
    | Some e =>
        (Raise e, c,
         [AddDocuments (index_name store) (batch_at chunks i);
          Log ("Error indexing batch " +:+ pretty (i / BATCH_SIZE + 1)
               +:+ " for " +:+ filename +:+ ": " +:+ message e)])
    | None =>
        match index_batches env store filename chunks rest
                (<[index_name store :=
                     contents c (index_name store) ++ batch_at chunks i]> c) with
        | (r, c', log) =>
            (r, c',
             [AddDocuments (index_name store) (batch_at chunks i);
              Log ("Indexed batch " +:+ pretty (i / BATCH_SIZE + 1) +:+ " ("
                   +:+ pretty (length (batch_at chunks i)) +:+ " chunks) for "
                   +:+ filename)] ++ log)
        end
    end.
Proof.
  cbn [index_batches]. fold (batch_at chunks i).
  unfold bind at 1, try_except, bind at 1, add_documents, bind at 1, tell at 1.
  destruct (write_fault env (index_name store) (batch_at chunks i)) as [e|]; [done|].
  cbn.
  by destruct (index_batches env store filename chunks rest
                 (<[index_name store :=
                      contents c (index_name store) ++ batch_at chunks i]> c))
    as [[r c'] log].
Qed.

Lemma index_batches_run (store : VectorStore) (filename : string)
      (chunks : list Document) (starts : list nat) (c : cluster) :
  let bs := map (batch_at chunks) starts in
  let run := index_batches env store filename chunks starts c in
  outcome run = match rejection env (index_name store) bs with
                | Some e => Raise e
                | None => Ok tt
                end
  /\ (forall n, contents (final run) n
                = if decide (n = index_name store)
                  then contents c (index_name store)
                       ++ concat (accepted env (index_name store) bs)
                  else contents c n)
  /\ submitted (events run)
     = map (fun b => (index_name store, b)) (sent env (index_name store) bs).
Proof.
  revert c. induction starts as [|i rest IH]; intros c.
  - cbn. split_and!; try done. intros n. destruct (decide _) as [->|]; [|done].
    by rewrite app_nil_r.
  - cbv zeta. rewrite index_batches_cons. cbn [map rejection accepted sent].
    destruct (write_fault env (index_name store) (batch_at chunks i)) as [e|].
    + cbn. split_and!; try done. intros n. destruct (decide _) as [->|]; [|done].
      by rewrite app_nil_r.
    + specialize (IH (<[index_name store :=
                          contents c (index_name store) ++ batch_at chunks i]> c)).
      cbv zeta in IH.
      destruct (index_batches env store filename chunks rest _) as [[r c'] log].
      destruct IH as (Hout & Hfin & Hsub).
      unfold outcome, final, events in *. cbn [fst snd] in *.
      split_and!.
      * exact Hout.
      * intros n. rewrite Hfin, !contents_insert.
        destruct (decide (n = index_name store)) as [->|Hne].
        -- rewrite decide_True by done. cbn [concat]. by rewrite <- app_assoc.
        -- by rewrite decide_False by done.
      * by rewrite submitted_app, Hsub.
Qed.

(** *** Loading *)

Lemma load_or_fallback_run (file_bytes : list Byte.byte) (filename : string)
      (c : cluster) :
  load_or_fallback env file_bytes filename c
  = (Ok (extracted env file_bytes filename), c, load_log env file_bytes filename).
Proof.
  unfold load_or_fallback, try_except, lift, extracted, load_log.
  by destruct (load_documents env file_bytes filename).
Qed.

Lemma load_and_split_run (file_bytes : list Byte.byte) (filename : string)
      (c : cluster) :
  load_and_split env file_bytes filename c
  = match temp_fault env (suffix_lower env filename) file_bytes with
    | Some e => (Raise e, c, [])
    | None =>
        match temp_close_fault env (suffix_lower env filename) with
        | Some e => (Raise e, c, load_log env file_bytes filename)
        | None =>
            (Ok (chunks_of env file_bytes filename), c,
             load_log env file_bytes filename)
        end
    end.
Proof.
  rewrite load_and_split_cases, load_or_fallback_run.
  destruct (temp_fault env (suffix_lower env filename) file_bytes); [done|].
  destruct (temp_close_fault env (suffix_lower env filename)); [done|].
  rewrite process_docs_normalized. cbn [app]. unfold chunks_of.
  by destruct (omap normalized (extracted env file_bytes filename)).
Qed.

Lemma load_log_quiet (file_bytes : list Byte.byte) (filename : string) :
  quiet (load_log env file_bytes filename).
Proof.
  unfold load_log. destruct (load_documents env file_bytes filename);
    by repeat constructor.
Qed.

(** [load_and_split] leaves the cluster as it was and submits nothing;
    when it returns, it returns the chunks of the documents loaded. *)
Lemma load_and_split_frame (file_bytes : list Byte.byte) (filename : string)
      (c : cluster) :
  final (load_and_split env file_bytes filename c) = c
  /\ quiet (events (load_and_split env file_bytes filename c))
  /\ (forall chunks,
        outcome (load_and_split env file_bytes filename c) = Ok chunks ->
        chunks = chunks_of env file_bytes filename).
Proof.
  rewrite load_and_split_run.
  pose proof (load_log_quiet file_bytes filename) as Hq.
  destruct (temp_fault env (suffix_lower env filename) file_bytes);
    [by split_and!; try constructor|].
  destruct (temp_close_fault env (suffix_lower env filename)); [by split_and!|].
  split_and!; [done|done|]. by intros chunks [= <-].
Qed.

(** *** Ingestion of one file *)

Lemma ingest_file_bytes_unfold (file_bytes : list Byte.byte)
      (filename tenant_id : string) (c : cluster) :
  ingest_file_bytes env file_bytes filename tenant_id c
  = match load_and_split env file_bytes filename c with
    | (Raise e, c0, log0) =>
        (Raise e, c0,
         log0 ++ [Log ("Error ingesting " +:+ filename +:+ " for tenant "
                       +:+ tenant_id +:+ ": " +:+ message e)])
    | (Ok [], c0, log0) =>
        (Ok 0, c0, log0 ++ [Log ("No content extracted from " +:+ filename)])
    | (Ok chunks, c0, log0) =>
        let chunks := map (annotate filename) chunks in
        match index_batches env {| index_name := doc_index tenant_id |} filename
                chunks (range_step (length chunks) BATCH_SIZE) c0 with
        | (Ok _, c', log) =>
            (Ok (length chunks), c',
             log0 ++ provision_log env (doc_index tenant_id) ++ log
             ++ [Log ("Successfully ingested " +:+ pretty (length chunks)
                      +:+ " chunks from " +:+ filename +:+ " for tenant "
                      +:+ tenant_id)])
        | (Raise e, c', log) =>
            (Raise e, c',
             (log0 ++ provision_log env (doc_index tenant_id) ++ log)
             ++ [Log ("Error ingesting " +:+ filename +:+ " for tenant "
                      +:+ tenant_id +:+ ": " +:+ message e)])
        end
    end.
Proof.
  unfold ingest_file_bytes, try_except, bind at 1.
  destruct (load_and_split env file_bytes filename c)
    as [[[[|chunk chunks]|e] c0] log0]; [done| |done].
  unfold bind at 1. rewrite get_doc_vector_store_run.
  unfold bind at 1. cbv zeta.
  destruct (index_batches env {| index_name := doc_index tenant_id |} filename
              (map (annotate filename) (chunk :: chunks))
              (range_step (length (map (annotate filename) (chunk :: chunks)))
                          BATCH_SIZE) c0) as [[[[]|e'] c'] log]; reflexivity.
Qed.

Lemma ingest_file_bytes_run (file_bytes : list Byte.byte)
      (filename tenant_id : string) (c : cluster) :
  let run := ingest_file_bytes env file_bytes filename tenant_id c in
  match outcome (load_and_split env file_bytes filename c) with
  | Raise e =>
      outcome run = Raise e
      /\ (forall n, contents (final run) n = contents c n)
      /\ submitted (events run) = []
  | Ok chunks =>
      let bs := batches (map (annotate filename) chunks) in
      outcome run = match rejection env (doc_index tenant_id) bs with
                    | Some e => Raise e
                    | None => Ok (length chunks)
                    end
      /\ (forall n, contents (final run) n
                    = if decide (n = doc_index tenant_id)
                      then contents c (doc_index tenant_id)
                           ++ concat (accepted env (doc_index tenant_id) bs)
                      else contents c n)
      /\ submitted (events run)
         = map (fun b => (doc_index tenant_id, b))
               (sent env (doc_index tenant_id) bs)
  end.
Proof.
  cbv zeta.
  destruct (load_and_split_frame file_bytes filename c) as (Hc0 & Hq0 & _).
  destruct (quiet_projections _ (provision_log_quiet env (doc_index tenant_id)))
    as (_ & _ & Hprov).
  rewrite ingest_file_bytes_unfold.
  destruct (load_and_split env file_bytes filename c)
    as [[[[|chunk chunks]|e] c0] log0];
    unfold final, events, outcome in Hc0, Hq0; cbn [fst snd] in Hc0, Hq0; subst c0;
    destruct (quiet_projections _ Hq0) as (_ & _ & Hload);
    unfold outcome at 1; cbn [fst].
  - unfold outcome, final, events. cbn [fst snd].
    rewrite submitted_app, Hload.
    split_and!; try done. intros n. destruct (decide _) as [->|]; [|done].
    cbn. by rewrite app_nil_r.
  - cbv zeta.
    pose proof (index_batches_run {| index_name := doc_index tenant_id |}
                  filename (map (annotate filename) (chunk :: chunks))
                  (range_step (length (map (annotate filename) (chunk :: chunks)))
                              BATCH_SIZE) c) as Hrun.
    cbv zeta in Hrun. fold (batches (map (annotate filename) (chunk :: chunks))) in Hrun.
    cbn [index_name] in Hrun.
    destruct (index_batches env {| index_name := doc_index tenant_id |} filename
                (map (annotate filename) (chunk :: chunks))
                (range_step (length (map (annotate filename) (chunk :: chunks)))
                            BATCH_SIZE) c) as [[[[]|e'] c'] log];
      destruct Hrun as (Hout & Hfin & Hsub);
      unfold outcome, final, events in *; cbn [fst snd] in *;
      destruct (rejection env (doc_index tenant_id)
                  (batches (map (annotate filename) (chunk :: chunks))));
      try done.
    + split_and!; [by rewrite length_map|exact Hfin|].
      rewrite !submitted_app, Hload, Hprov, Hsub. cbn. by rewrite app_nil_r.
    + split_and!; [by injection Hout as ->|exact Hfin|].
      rewrite !submitted_app, Hload, Hprov, Hsub. cbn. by rewrite app_nil_r.
  - unfold outcome, final, events. cbn [fst snd].
    rewrite submitted_app, Hload. by split_and!.
Qed.

End Indexing.

(** *** Retrieval *)

Lemma descriptor_cases (doc : Document) :
  (page_is_number doc /\ exists d, descriptor doc = Ok d)
  \/ (~ page_is_number doc /\ descriptor doc = Raise text_page_error).
Proof.
  unfold page_is_number, descriptor.
  destruct (get (metadata doc) "page" VNone) as [|b|z|s]; simpl; eauto.
Qed.

Lemma build_sources_text_page (items : list (nat * Document)) (sources : dict string) :
  Exists (fun item => ~ page_is_number (snd item)) items ->
  build_sources items sources = Raise text_page_error.
Proof.
  intros Hex. revert sources.
  induction items as [|[i doc] items IH]; intros sources; [by inversion Hex|].
  cbn [build_sources].
  destruct (descriptor_cases doc) as [[Hnum [d ->]]|[Hnum ->]]; [|done].
  apply IH. inversion Hex; subst; [done|assumption].
Qed.

Lemma Exists_enumerate (P : Document -> Prop) (docs : list Document) :
  Exists P docs -> Exists (fun item => P (snd item)) (enumerate docs).
Proof.
  unfold enumerate. generalize 0.
  induction docs as [|doc docs IH]; intros n Hex; [by inversion Hex|].
  cbn. inversion Hex; subst; [by left|right; by apply IH].
Qed.

Section Answering.
Context (env : Env).

Lemma get_relevant_history_exact (query tenant_id : string) (k : nat) (c : cluster) :
  let found := rank env (chat_history_index tenant_id)
                    (contents c (chat_history_index tenant_id)) query k in
  get_relevant_history env query tenant_id k c
  = (Ok match found with
        | Ok docs => history_of docs
        | Raise _ => no_history
        end, c,
     provision_log env (chat_history_index tenant_id)
     ++ [Search (chat_history_index tenant_id) query k]
     ++ match found with
        | Ok _ => []
        | Raise e => [Log ("[ERROR] Error retrieving chat history for "
                           +:+ tenant_id +:+ ": " +:+ message e)]
        end).
Proof.
  cbv zeta.
  unfold get_relevant_history, try_except, bind at 1, bind at 1.
  rewrite get_chat_history_vector_store_run.
  unfold bind, similarity_search, bind, tell, ret, get_state, lift.
  simpl. unfold contents.
  destruct (rank env (chat_history_index tenant_id)
                 (c !!! chat_history_index tenant_id) query k)
    as [[|doc docs]|e]; simpl; by rewrite ?app_nil_r, <- ?app_assoc.
Qed.

Lemma get_relevant_documents_unfold (query tenant_id : string) (k : nat)
      (c : cluster) :
  get_relevant_documents env query tenant_id k c
  = (match rank env (doc_index tenant_id) (contents c (doc_index tenant_id))
                query k with
     | Ok [] => Ok (empty_context, [])
     | Ok docs =>
         match build_sources (enumerate docs) [] with
         | Ok sources =>
             Ok (Text.str_join Text.nl (map context_line (enumerate docs)), sources)
         | Raise e => Raise e
         end
     | Raise e => Raise e
     end, c,
     provision_log env (doc_index tenant_id)
     ++ [Search (doc_index tenant_id) query k]).
Proof.
  unfold get_relevant_documents, bind at 1.
  rewrite get_doc_vector_store_run.
  unfold bind, similarity_search, bind, tell, ret, get_state, lift.
  simpl. unfold contents.
  destruct (rank env (doc_index tenant_id) (c !!! doc_index tenant_id)
                 query k) as [[|doc docs]|e];
    [simpl; by rewrite ?app_nil_r| |simpl; by rewrite ?app_nil_r].
  cbn -[build_sources enumerate Text.str_join context_line].
  destruct (build_sources (enumerate (doc :: docs)) []);
    cbn -[enumerate Text.str_join context_line]; by rewrite ?app_nil_r.
Qed.

Lemma prepare_outcome (query tenant_id : string) (c : cluster) :
  outcome (prepare env query tenant_id c)
  = match outcome (get_relevant_documents env query tenant_id 10 c) with
    | Ok cs =>
        Ok (format_prompt (fst cs) (sources_block (snd cs))
              match rank env (chat_history_index tenant_id)
                         (contents c (chat_history_index tenant_id)) query 3 with
              | Ok docs => history_of docs
              | Raise _ => no_history
              end query,
            snd cs)
    | Raise e => Raise e
    end.
Proof.
  unfold prepare, bind at 1.
  unfold ensure_indexes_exist, bind at 1.
  rewrite get_doc_vector_store_run. unfold bind at 1.
  rewrite get_chat_history_vector_store_run. unfold ret at 1.
  unfold bind at 1. rewrite get_relevant_history_exact. unfold bind at 1.
  rewrite get_relevant_documents_unfold.
  unfold outcome. cbn [fst].
  match goal with
  | |- context [match ?r with Ok a => _ | Raise e => _ end] => destruct r as [cs|e]
  end; reflexivity.
Qed.

Lemma stream_rag_response_outcome (query tenant_id : string) (c : cluster) :
  let run := stream_rag_response env query tenant_id c in
  match outcome (get_relevant_documents env query tenant_id 10 c) with
  | Ok _ => outcome run = Ok tt /\ length (invocations (events run)) = 1
  | Raise e =>
      outcome run = Raise e /\ final run = c /\ invocations (events run) = []
      /\ yielded (events run) = [] /\ submitted (events run) = []
  end.
Proof.
  cbv zeta.
  pose proof (prepare_outcome query tenant_id c) as Hout.
  destruct (prepare_retrieval_only env query tenant_id c) as [Hfin Hquiet].
  destruct (outcome (get_relevant_documents env query tenant_id 10 c)) as [cs|e].
  - destruct (prepare env query tenant_id c) as [[r c1] log1] eqn:Hprep.
    unfold outcome in Hout. cbn [fst] in Hout. subst r.
    rewrite (stream_rag_response_run env _ _ _ _ _ _ _ Hprep).
    unfold outcome, events. cbn [fst snd]. split; [done|].
    unfold events in Hquiet. cbn [snd] in Hquiet.
    destruct (quiet_projections _ Hquiet) as (Hinv & _ & _).
    by rewrite !invocations_app, Hinv, invocations_stream_log,
      invocations_persist_log.
  - unfold stream_rag_response, bind.
    destruct (prepare env query tenant_id c) as [[r c1] log1].
    unfold outcome, final, events in *. cbn [fst snd] in *. subst r c1.
    destruct (quiet_projections _ Hquiet) as (Hinv & Hy & Hsub). done.
Qed.

Lemma get_relevant_documents_text_page (query tenant_id : string) (k : nat)
      (c : cluster) (docs : list Document) :
  rank env (doc_index tenant_id) (contents c (doc_index tenant_id)) query k = Ok docs ->
  Exists (fun doc => ~ page_is_number doc) docs ->
  outcome (get_relevant_documents env query tenant_id k c) = Raise text_page_error.
Proof.
  intros Hrank Hex. rewrite get_relevant_documents_unfold, Hrank.
  unfold outcome. cbn [fst].
  destruct docs as [|doc docs]; [by inversion Hex|].
  by rewrite (build_sources_text_page _ _ (Exists_enumerate _ _ Hex)).
Qed.

End Answering.

(** *** Uploads *)

Section Upload.
Context (env : Env).

Lemma writes_split (index_name : string) (done rest : list (list Document))
      (failing : list Document) (e : exn) :
  (forall b, b ∈ done -> write_fault env index_name b = None) ->
  write_fault env index_name failing = Some e ->
  rejection env index_name (done ++ failing :: rest) = Some e
  /\ accepted env index_name (done ++ failing :: rest) = done
  /\ sent env index_name (done ++ failing :: rest) = done ++ [failing].
Proof.
  intros Hdone Hfail. induction done as [|b done IH]; simpl.
  - by rewrite Hfail.
  - rewrite (Hdone b) by apply list_elem_of_here.
    destruct IH as (Hr & Ha & Hs).
    { intros b' Hb'. apply Hdone. by apply list_elem_of_further. }
    by rewrite Hr, Ha, Hs.
Qed.

Lemma writes_healthy (index_name : string) (bs : list (list Document)) :
  (forall b, write_fault env index_name b = None) ->
  rejection env index_name bs = None
  /\ accepted env index_name bs = bs
  /\ sent env index_name bs = bs.
Proof.
  intros Hh. induction bs as [|b bs (Hr & Ha & Hs)]; [done|].
  simpl. by rewrite Hh, Hr, Ha, Hs.
Qed.

Lemma sent_prefix (index_name : string) (bs : list (list Document)) :
  exists rest, bs = sent env index_name bs ++ rest.
Proof.
  induction bs as [|b bs [rest IH]]; [by exists []|]. simpl.
  destruct (write_fault env index_name b).
  - by exists bs.
  - exists rest. by rewrite IH at 1.
Qed.

Lemma rejection_none_accepted (index_name : string) (bs : list (list Document)) :
  rejection env index_name bs = None -> accepted env index_name bs = bs.
Proof.
  induction bs as [|b bs IH]; [done|]. simpl.
  destruct (write_fault env index_name b); [done|]. intros H. by rewrite IH.
Qed.

(** What one ingestion does to the indexes: the document index of the
    tenant grows by the number returned, or by some part of the chunks
    when a write is rejected; no other index changes. *)
Lemma ingest_file_bytes_growth (file_bytes : list Byte.byte)
      (filename tenant_id : string) (c : cluster) :
  let run := ingest_file_bytes env file_bytes filename tenant_id c in
  (forall n, n <> doc_index tenant_id -> contents (final run) n = contents c n)
  /\ match outcome run with
     | Ok count =>
         length (contents (final run) (doc_index tenant_id))
         = length (contents c (doc_index tenant_id)) + count
     | Raise _ =>
         length (contents c (doc_index tenant_id))
         <= length (contents (final run) (doc_index tenant_id))
     end.
Proof.
  cbv zeta.
  pose proof (ingest_file_bytes_run env file_bytes filename tenant_id c) as Hrun.
  cbv zeta in Hrun.
  destruct (outcome (load_and_split env file_bytes filename c)) as [chunks|e].
  - destruct Hrun as (Hout & Hfin & _). split.
    + intros n Hn. rewrite Hfin. by rewrite decide_False.
    + rewrite Hout, Hfin, decide_True by done. rewrite length_app.
      destruct (rejection env (doc_index tenant_id) _) eqn:Hrej; [lia|].
      rewrite (rejection_none_accepted _ _ Hrej), batches_concat.
      by rewrite length_map.
  - destruct Hrun as (Hout & Hfin & _). split.
    + intros n _. apply Hfin.
    + by rewrite Hout, Hfin.
Qed.

Lemma ingest_files_cons (tenantId : string) (file : UploadFile)
      (rest : list UploadFile) (total_chunks : nat) (errors : list string)
      (c : cluster) :
  existsb (Text.endswith (filename file)) upload_suffixes = true ->
  ingest_files env tenantId (file :: rest) total_chunks errors c
  = match ingest_file_bytes env (file_bytes file) (filename file) tenantId c with
    | (Ok chunk_count, c1, log1) =>
        match ingest_files env tenantId rest (total_chunks + chunk_count) errors c1 with
        | (r, c2, log2) => (r, c2, log1 ++ log2)
        end
    | (Raise e, c1, log1) =>
        match ingest_files env tenantId rest total_chunks
                (errors ++ ["Failed to ingest " +:+ filename file +:+ ": "
                            +:+ message e]) c1 with
        | (r, c2, log2) =>
            (r, c2,
             (log1 ++ [Log ("Error ingesting " +:+ filename file +:+ ": "
                            +:+ message e)]) ++ log2)
        end
    end.
Proof.
  intros Hgate. cbn [ingest_files]. rewrite Hgate. cbn [negb].
  unfold bind at 1, try_except, bind at 1.
  destruct (ingest_file_bytes env (file_bytes file) (filename file) tenantId c)
    as [[[chunk_count|e] c1] log1]; cbn; by rewrite ?app_nil_r.
Qed.

Lemma ingest_files_run (tenantId : string) (files : list UploadFile)
      (total_chunks : nat) (errors : list string) (c : cluster) :
  let run := ingest_files env tenantId files total_chunks errors c in
  exists added new_errors,
    outcome run = Ok (total_chunks + added, errors ++ new_errors)
    /\ length new_errors <= length files
    /\ (forall n, n <> doc_index tenantId -> contents (final run) n = contents c n)
    /\ length (contents c (doc_index tenantId)) + added
       <= length (contents (final run) (doc_index tenantId))
    /\ (new_errors = [] ->
        length (contents (final run) (doc_index tenantId))
        = length (contents c (doc_index tenantId)) + added).
Proof.
  cbv zeta. revert total_chunks errors c.
  induction files as [|file rest IH]; intros total_chunks errors c.
  - exists 0, []. cbn. rewrite app_nil_r, Nat.add_0_r. split_and!; try done; lia.
  - destruct (existsb (Text.endswith (filename file)) upload_suffixes) eqn:Hgate.
    + rewrite ingest_files_cons by done.
      destruct (ingest_file_bytes_growth (file_bytes file) (filename file)
                  tenantId c) as [Hother Hgrow].
      destruct (ingest_file_bytes env (file_bytes file) (filename file) tenantId c)
        as [[[chunk_count|e] c1] log1];
        unfold outcome, final in Hother, Hgrow; cbn [fst snd] in Hother, Hgrow.
      * destruct (IH (total_chunks + chunk_count) errors c1)
          as (added & new_errors & Hout & Hlen & Hoth & Hge & Heq).
        destruct (ingest_files env tenantId rest (total_chunks + chunk_count)
                    errors c1) as [[r c2] log2].
        unfold outcome, final in *. cbn [fst snd] in *.
        exists (chunk_count + added), new_errors. split_and!.
        -- rewrite Hout. do 2 f_equal. lia.
        -- cbn [length]. lia.
        -- intros n Hn. rewrite Hoth, Hother by done. done.
        -- lia.
        -- intros Hnone. specialize (Heq Hnone). lia.
      * destruct (IH total_chunks
                    (errors ++ ["Failed to ingest " +:+ filename file +:+ ": "
                                +:+ message e]) c1)
          as (added & new_errors & Hout & Hlen & Hoth & Hge & Heq).
        destruct (ingest_files env tenantId rest total_chunks _ c1)
          as [[r c2] log2].
        unfold outcome, final in *. cbn [fst snd] in *.
        exists added, (("Failed to ingest " +:+ filename file +:+ ": "
                        +:+ message e) :: new_errors). split_and!.
        -- rewrite Hout. by rewrite <- app_assoc.
        -- cbn [length]. lia.
        -- intros n Hn. rewrite Hoth, Hother by done. done.
        -- lia.
        -- done.
    + rewrite ingest_files_skips_unsupported by done.
      destruct (IH total_chunks
                  (errors ++ ["Unsupported file type: " +:+ filename file]) c)
        as (added & new_errors & Hout & Hlen & Hoth & Hge & Heq).
      exists added, (("Unsupported file type: " +:+ filename file) :: new_errors).
      split_and!; try done.
      * rewrite Hout. by rewrite <- app_assoc.
      * cbn [length]. lia.
Qed.

Lemma ingest_multiple_files_api_named (tenantId : string) (files : list UploadFile)
      (c : cluster) :
  tenantId <> "" ->
  ingest_multiple_files_api env tenantId files c
  = match ingest_files env tenantId files 0 [] c with
    | (Ok totals, c', log) =>
        (Ok {| report_message := "Ingestion completed";
               report_total_chunks := fst totals;
               report_errors := snd totals |}, c',
         (provision_log env (doc_index tenantId)
          ++ provision_log env (chat_history_index tenantId)) ++ log)
    | (Raise e, c', log) =>
        (Raise e, c',
         (provision_log env (doc_index tenantId)
          ++ provision_log env (chat_history_index tenantId)) ++ log)
    end.
Proof.
  intros Hne. unfold ingest_multiple_files_api.
  destruct (decide (tenantId = "")); [done|].
  unfold bind at 1, ensure_indexes_exist, bind at 1.
  rewrite get_doc_vector_store_run. unfold bind at 1.
  rewrite get_chat_history_vector_store_run. unfold ret at 1.
  cbn [fst snd]. rewrite app_nil_r. unfold bind.
  destruct (ingest_files env tenantId files 0 [] c) as [[[totals|e] c'] log];
    cbn; by rewrite ?app_nil_r.
Qed.

End Upload.

End OutlineFacts.

(** ** Facts about the streaming client of the image model *)

Module MultimodalFacts.
Import Py Eff Multimodal.

Section Client.
Context {Value Remote : Type}.
Context (decode_utf8 : list Byte.byte -> result string).
Context (json_loads : string -> parsed Value).
Context (fields_of : Value -> option (dict Value)).
Context (truth : Value -> bool).
Context (misuse : Value -> exn).
Context (session_post : string -> payload -> Remote -> result reply * Remote).

Local Abbreviation read_line := (read_line (Remote := Remote) decode_utf8 json_loads fields_of truth misuse).
Local Abbreviation read_lines := (read_lines (Remote := Remote) decode_utf8 json_loads fields_of truth misuse).
Local Abbreviation object_of := (object_of decode_utf8 json_loads fields_of).
Local Abbreviation is_last := (is_last decode_utf8 json_loads fields_of truth).
Local Abbreviation responses := (responses decode_utf8 json_loads fields_of truth).
Local Abbreviation stream := (stream decode_utf8 json_loads fields_of truth misuse session_post).

Lemma chunks_app (l1 l2 : list (@event Value)) :
  chunks (l1 ++ l2) = chunks l1 ++ chunks l2.
Proof. induction l1 as [|[]]; cbn; by f_equal. Qed.

Lemma posts_app (l1 l2 : list (@event Value)) :
  posts (l1 ++ l2) = posts l1 ++ posts l2.
Proof. induction l1 as [|[]]; cbn; by f_equal. Qed.

(** One round of the loop returns, in the same state, whatever the line
    holds. *)
Lemma read_line_run (line : list Byte.byte) (r : Remote) :
  exists log,
    read_line line r = (Ok (is_last line), r, log)
    /\ chunks log = match object_of line with
                    | Some fields =>
                        match lookup fields "response" with
                        | Some response => [response]
                        | None => []
                        end
                    | None => []
                    end
    /\ posts log = [].
Proof.
  unfold Multimodal.read_line, Multimodal.is_last, Multimodal.object_of.
  destruct line as [|b line]; [by exists []|].
  destruct (decide (b :: line = [])) as [|_]; [done|].
  unfold try_except, bind at 1, lift.
  destruct (decode_utf8 (b :: line)) as [decoded|e]; [|by eexists].
  destruct (decide (Text.str_strip decoded = "")); [by eexists|].
  destruct (json_loads (Text.str_strip decoded)) as [v|msg|e]; try by eexists.
  destruct (fields_of v) as [fields|]; [|by eexists].
  destruct (lookup fields "response"); by eexists.
Qed.

Lemma read_lines_run (lines : list (list Byte.byte)) (r : Remote) :
  exists log,
    read_lines lines r = (Ok (existsb is_last lines), r, log)
    /\ chunks log = responses lines
    /\ posts log = [].
Proof.
  induction lines as [|line lines (log' & Hrun & Hchunks & Hposts)].
  - by exists [].
  - destruct (read_line_run line r) as (log & Hline & Hc & Hp).
    cbn [Multimodal.read_lines Multimodal.responses existsb]. unfold bind.
    rewrite Hline. destruct (is_last line).
    + exists (log ++ []). cbn. rewrite !app_nil_r. by rewrite Hc, Hp.
    + rewrite Hrun. exists (log ++ log'). cbn.
      by rewrite chunks_app, posts_app, Hc, Hp, Hchunks, Hposts.
Qed.

(** Nothing after the line that ends the stream is looked at. *)
Lemma read_lines_stop (before after : list (list Byte.byte))
      (line : list Byte.byte) (r : Remote) :
  is_last line = true ->
  read_lines (before ++ line :: after) r = read_lines (before ++ [line]) r.
Proof.
  intros Hlast. induction before as [|b before IH].
  - cbn [app Multimodal.read_lines]. unfold bind.
    destruct (read_line_run line r) as (log & -> & _). by rewrite Hlast.
  - cbn [app Multimodal.read_lines]. unfold bind.
    destruct (read_line_run b r) as (log & -> & _).
    destruct (is_last b); [done|]. by rewrite IH.
Qed.

Lemma stream_unfold (self : OllamaMultimodal) (images_data : images_arg)
      (prompt : string) (r : Remote) :
  let body := {| payload_model := model self;
                 payload_prompt := prompt;
                 payload_images := match images_data with
                                   | OneImage image => [image]
                                   | Images images => images
                                   end;
                 payload_stream := true |} in
  exists log,
    chunks log = match fst (session_post (api_url self) body r) with
                 | Ok resp =>
                     if decide (status resp = 200%Z)
                     then responses (fst (content resp)) else []
                 | Raise _ => []
                 end
    /\ posts log = [(api_url self, body)]
    /\ stream self images_data prompt r
       = (match fst (session_post (api_url self) body r) with
          | Ok resp =>
              if decide (status resp = 200%Z) then
                if existsb is_last (fst (content resp)) then Ok tt
                else match snd (content resp) with
                     | Some e => Raise e
                     | None => Ok tt
                     end
              else
                match text resp with
                | Ok error_text =>
                    Raise (OtherError ("Ollama API error: " +:+ pretty (status resp)
                                       +:+ " - " +:+ error_text))
                | Raise e => Raise e
                end
          | Raise e => Raise e
          end,
          snd (session_post (api_url self) body r), log).
Proof.
  cbv zeta. unfold Multimodal.stream, bind at 1, post.
  destruct (session_post (api_url self) _ r) as [[resp|e] r']; cbn [fst snd].
  2:{ eexists. split_and!; [| |reflexivity]; done. }
  destruct (decide (status resp = 200%Z)) as [Hs|Hs].
  - destruct (decide (status resp ≠ 200%Z)); [done|].
    unfold bind.
    destruct (read_lines_run (fst (content resp)) r') as (log & -> & Hc & Hp).
    destruct (existsb is_last (fst (content resp))); [|destruct (snd (content resp))];
      (eexists; split_and!; [| |reflexivity];
       rewrite ?posts_app, ?chunks_app, ?Hp, ?Hc; cbn; by rewrite ?app_nil_r).
  - destruct (decide (status resp ≠ 200%Z)); [|done].
    unfold bind, lift.
    destruct (text resp); eexists; (split_and!; [| |reflexivity]); done.
Qed.

Context (b64encode : list Byte.byte -> string).

Local Abbreviation ask_image :=
  (ask_image decode_utf8 json_loads fields_of truth misuse session_post b64encode).
Local Abbreviation generate_response :=
  (generate_response decode_utf8 json_loads fields_of truth misuse session_post).

Lemma as_http_error_raises {A} (r : result A) (e : exn) :
  as_http_error r = Raise e -> exists status_code detail, e = HTTPException status_code detail.
Proof.
  destruct r as [a|[]]; simpl; intros [= <-]; eauto.
Qed.

(** The body of the streaming response returns: an exception of the
    stream is turned into one last text chunk. *)
Lemma generate_response_run (images_data : list string) (query : string)
      (r : Remote) :
  let run := stream multimodal_llm (Images images_data) query r in
  generate_response images_data query r
  = (Ok tt, final run,
     events run ++ match outcome run with
                   | Ok _ => []
                   | Raise e => [TextChunk ("Error: " +:+ message e)]
                   end).
Proof.
  cbv zeta. unfold Multimodal.generate_response, try_except.
  destruct (stream multimodal_llm (Images images_data) query r)
    as [[[[]|e] r'] log]; cbn; by rewrite ?app_nil_r.
Qed.

Lemma ask_image_unfold (query : string) (images : list ImageUpload) (r : Remote) :
  ask_image query images r
  = match as_http_error (checked_images b64encode query images) with
    | Ok images_data => generate_response images_data query r
    | Raise e => (Raise e, r, [])
    end.
Proof.
  unfold Multimodal.ask_image, bind, lift.
  destruct (as_http_error (checked_images b64encode query images)); [|done].
  by destruct (generate_response _ query r) as [[res r'] log].
Qed.

Lemma encode_images_unnamed (images : list ImageUpload) (images_data : list string) :
  Forall (fun file => image_filename file = None \/ image_filename file = Some "")
         images ->
  encode_images b64encode images images_data = Ok images_data.
Proof.
  intros H. induction H as [|file images [Hn|Hn] _ IH]; [done| |];
    cbn [encode_images]; by rewrite Hn.
Qed.

End Client.
End MultimodalFacts.

(** * The claims of the specification *)

(** ** The answer pipeline *)

(** C1 (counterexample): as stated, the claim fails.  The stream of the
    model breaks after two contents while the store rejects writes:
    [stream_rag_response] returns, the two contents have been yielded and
    one record has been submitted, but the write is rejected (the error is
    logged, not raised) and the chat-history index of the tenant holds no
    record. *)
Lemma partial_answer_is_lost_when_history_write_fails :
  let run := Rag.stream_rag_response Samples.outage_env "What grew?" "acme"
                                     Demo.acme_cluster in
  Eff.outcome run = Py.Ok tt
  /\ Store.yielded (Eff.events run) = ["The report"; " covers Q3 [1]"]
  /\ Store.Log "[ERROR] Error during LLM streaming: connection reset"
     ∈ Eff.events run
  /\ length (Store.submitted (Eff.events run)) = 1
  /\ Store.contents (Eff.final run) (Store.chat_history_index "acme") = []
  /\ ~ (exists record,
          record ∈ Store.contents (Eff.final run) (Store.chat_history_index "acme")).
Proof.
  intros run.
  assert (Store.contents (Eff.final run) (Store.chat_history_index "acme") = [])
    as Hnone by by vm_compute.
  split_and!.
  - by vm_compute.
  - by vm_compute.
  - vm_compute. repeat first [apply list_elem_of_here | apply list_elem_of_further].
  - by vm_compute.
  - exact Hnone.
  - intros [record Hin]. rewrite Hnone in Hin. by apply not_elem_of_nil in Hin.
Qed.

(** C1 (amended): when the prompt has been prepared and the model's
    stream ends by an exception after some contents, [stream_rag_response]
    returns normally; it has yielded exactly those contents, all before
    the error is logged, and nothing after; it then submits exactly one
    record, to the chat-history index of the tenant, whose response text
    is the contents joined, then the literal line break, line break,
    [Sources:], line break, then the sources block that the prompt shows
    between [<SOURCES_BLOCK>] and [</SOURCES_BLOCK>].  The record is
    persisted (it is what that index gains) when the store accepts the
    write; when the store rejects it, the error is logged and the cluster
    stays as it was. *)
Theorem stream_failure_keeps_partial_answer
    (env : Store.Env) (query tenant_id : string) (c c1 : Store.cluster)
    (prompt : string) (sources : Py.dict string) (log1 : list Store.event)
    (produced : list string) (e : Py.exn) :
  Rag.prepare env query tenant_id c = (Py.Ok (prompt, sources), c1, log1) ->
  Store.astream env prompt = (produced, Some e) ->
  let response :=
    String.concat "" produced +:+ Text.nl +:+ Text.nl +:+ "Sources:" +:+ Text.nl
    +:+ Rag.sources_block sources in
  let record := Rag.chat_record query response tenant_id in
  let chat_index := Store.chat_history_index tenant_id in
  let run := Rag.stream_rag_response env query tenant_id c in
  (exists context chat_history,
      prompt
      = String.concat (String "010"%char "")
          ["";
           "<|SYSTEM|>";
           "You are a precise RAG assistant. Your sole task is to answer the user's `<QUESTION>` using ONLY the provided `<CONTEXT>`.";
           "";
           "## Your Rules:";
           "1.  **Strictly Grounded:** Base every single statement in your answer on the provided text. NEVER use external knowledge or make assumptions.";
           "2.  **Cite Everything:** You MUST add a citation `[1]` or `[3][5]` after every piece of information. The citation goes *before* the punctuation.";
           "3.  **List Your Sources:** After the answer, you MUST provide a `Sources:` list, citing the full title of each source you used.";
           "4.  **Be Direct:** Do not add any conversational preamble. Start directly with the answer.";
           "5.  **Handle No Information Politely:** If the context does not contain the answer, you MUST respond with the exact phrase: " +:+ String "034"%char "" +:+ "I'm sorry, but I couldn't find the information needed to answer your question in the provided documents." +:+ String "034"%char "";
           "";
           "<|USER|>";
           "<CONTEXT>";
           context;
           "</CONTEXT>";
           "";
           "<SOURCES_BLOCK>";
           Rag.sources_block sources;
           "</SOURCES_BLOCK>";
           "";
           "<CHAT_HISTORY>";
           chat_history;
           "</CHAT_HISTORY>";
           "";
           "<QUESTION>";
           query;
           "</QUESTION>";
           "";
           "<|SYSTEM|>";
           ""])
  /\ Eff.outcome run = Py.Ok tt
  /\ Eff.events run
     = log1 ++ [Store.Invoke prompt] ++ map Store.Yield produced
       ++ [Store.Log ("[ERROR] Error during LLM streaming: " +:+ Py.message e)]
       ++ Store.provision_log env chat_index
       ++ [Store.AddDocuments chat_index [record]]
       ++ match Store.write_fault env chat_index [record] with
          | Some e' => [Store.Log ("[ERROR] Error storing chat history for "
                                   +:+ tenant_id +:+ ": " +:+ Py.message e')]
          | None => []
          end
  /\ Store.invocations (Eff.events run) = [prompt]
  /\ Store.yielded (Eff.events run) = produced
  /\ Store.submitted (Eff.events run) = [(chat_index, [record])]
  /\ Py.lookup (Store.metadata record) "response" = Some (Py.VStr response)
  /\ Eff.final run
     = match Store.write_fault env chat_index [record] with
       | Some _ => c
       | None => <[chat_index := Store.contents c chat_index ++ [record]]> c
       end
  /\ Store.contents (Eff.final run) chat_index
     = match Store.write_fault env chat_index [record] with
       | Some _ => Store.contents c chat_index
       | None => Store.contents c chat_index ++ [record]
       end.
Proof.
  intros Hprep Hstream response record chat_index run.
  destruct (RagFacts.prepare_retrieval_only env query tenant_id c) as [Hc1 Hquiet].
  pose proof (RagFacts.prepare_prompt_shape env query tenant_id c
                (prompt, sources)) as Hshape.
  rewrite Hprep in Hc1, Hquiet, Hshape.
  unfold Eff.final, Eff.events, Eff.outcome in Hc1, Hquiet, Hshape.
  simpl in Hc1, Hquiet, Hshape. subst c1.
  destruct (StoreFacts.quiet_projections log1 Hquiet) as (Hinv & Hyield & Hsub).
  assert (run
          = (Py.Ok tt,
             match Store.write_fault env chat_index [record] with
             | Some _ => c
             | None => <[chat_index := Store.contents c chat_index ++ [record]]> c
             end,
             log1
             ++ ([Store.Invoke prompt] ++ map Store.Yield produced
                 ++ [Store.Log ("[ERROR] Error during LLM streaming: "
                                +:+ Py.message e)])
             ++ (Store.provision_log env chat_index
                 ++ [Store.AddDocuments chat_index [record]]
                 ++ match Store.write_fault env chat_index [record] with
                    | Some e' =>
                        [Store.Log ("[ERROR] Error storing chat history for "
                                    +:+ tenant_id +:+ ": " +:+ Py.message e')]
                    | None => []
                    end))) as Hrun.
  { subst run.
    rewrite (RagFacts.stream_rag_response_run env query tenant_id c c prompt
               sources log1 Hprep).
    unfold Rag.stream_log, Rag.persist_log, Rag.persisted, Rag.final_response.
    rewrite Hstream. reflexivity. }
  rewrite Hrun. unfold Eff.outcome, Eff.events, Eff.final. cbn [fst snd].
  destruct (StoreFacts.quiet_projections
              _ (StoreFacts.provision_log_quiet env chat_index))
    as (Hpinv & Hpyield & Hpsub).
  split_and!.
  - destruct (Hshape eq_refl) as (context & chat_history & Hprompt).
    exists context, chat_history.
    by rewrite <- PromptFacts.format_prompt_rendered.
  - reflexivity.
  - by rewrite <- !app_assoc.
  - rewrite !RagFacts.invocations_app, Hinv, Hpinv, RagFacts.invocations_yields.
    by destruct (Store.write_fault env chat_index [record]).
  - rewrite !RagFacts.yielded_app, Hyield, Hpyield, RagFacts.yielded_yields.
    destruct (Store.write_fault env chat_index [record]); cbn;
      by rewrite ?app_nil_r.
  - rewrite !RagFacts.submitted_app, Hsub, Hpsub, RagFacts.submitted_yields.
    by destruct (Store.write_fault env chat_index [record]).
  - reflexivity.
  - reflexivity.
  - destruct (Store.write_fault env chat_index [record]); [reflexivity|].
    rewrite StoreFacts.contents_insert. by rewrite decide_True.
Qed.

(** The question of tenant [acme] against a model whose stream breaks
    after two contents. *)
Lemma stream_failure_keeps_partial_answer_witness :
  let run := Rag.stream_rag_response Demo.broken_stream_env "What grew?" "acme"
                                     Demo.acme_cluster in
  Eff.outcome run = Py.Ok tt
  /\ Store.yielded (Eff.events run) = ["The report"; " covers Q3 [1]"]
  /\ Store.submitted (Eff.events run)
     = [("chat_history_acme",
         [Rag.chat_record "What grew?"
            (String.concat Text.nl
               ["The report covers Q3 [1]"; ""; "Sources:";
                "[1] Annual report (page 1)"; "[2] notes.txt";
                "[3] Annual report (page 1)"])
            "acme"])]
  /\ length (Store.contents (Eff.final run) "chat_history_acme") = 1.
Proof.
  intros run.
  eassert (Rag.prepare Demo.broken_stream_env "What grew?" "acme" Demo.acme_cluster
           = (Py.Ok (_, _), _, _)) as Hprep by (vm_compute; reflexivity).
  destruct (stream_failure_keeps_partial_answer
              Demo.broken_stream_env "What grew?" "acme" Demo.acme_cluster
              _ _ _ _ ["The report"; " covers Q3 [1]"]
              (Py.OtherError "connection reset") Hprep eq_refl)
    as (_ & Hout & _ & _ & Hyield & Hsub & _ & _ & Hkept).
  split_and!; [exact Hout|exact Hyield|exact Hsub|].
  change "chat_history_acme" with (Store.chat_history_index "acme").
  fold run in Hkept. rewrite Hkept. by vm_compute.
Defined.

(** C5: when the similarity search over the tenant's document index
    returns no chunk, step 3 returns the sentinel text and an empty
    citation mapping, whose sources block is the empty string; the prompt
    is the template with the sentinel between [<CONTEXT>] and
    [</CONTEXT>], nothing between [<SOURCES_BLOCK>] and
    [</SOURCES_BLOCK>], the history text of step 2 and the question; and
    the model is invoked, once, with exactly that prompt. *)
Theorem empty_retrieval_still_invokes_model
    (env : Store.Env) (query tenant_id : string) (c : Store.cluster) :
  Store.rank env (Store.doc_index tenant_id)
             (Store.contents c (Store.doc_index tenant_id)) query 10 = Py.Ok [] ->
  exists chat_history,
    let prompt :=
      String.concat (String "010"%char "")
        ["";
         "<|SYSTEM|>";
         "You are a precise RAG assistant. Your sole task is to answer the user's `<QUESTION>` using ONLY the provided `<CONTEXT>`.";
         "";
         "## Your Rules:";
         "1.  **Strictly Grounded:** Base every single statement in your answer on the provided text. NEVER use external knowledge or make assumptions.";
         "2.  **Cite Everything:** You MUST add a citation `[1]` or `[3][5]` after every piece of information. The citation goes *before* the punctuation.";
         "3.  **List Your Sources:** After the answer, you MUST provide a `Sources:` list, citing the full title of each source you used.";
         "4.  **Be Direct:** Do not add any conversational preamble. Start directly with the answer.";
         "5.  **Handle No Information Politely:** If the context does not contain the answer, you MUST respond with the exact phrase: " +:+ String "034"%char "" +:+ "I'm sorry, but I couldn't find the information needed to answer your question in the provided documents." +:+ String "034"%char "";
         "";
         "<|USER|>";
         "<CONTEXT>";
         "\{empty\}";
         "</CONTEXT>";
         "";
         "<SOURCES_BLOCK>";
         "";
         "</SOURCES_BLOCK>";
         "";
         "<CHAT_HISTORY>";
         chat_history;
         "</CHAT_HISTORY>";
         "";
         "<QUESTION>";
         query;
         "</QUESTION>";
         "";
         "<|SYSTEM|>";
         ""] in
    Eff.outcome (Rag.get_relevant_documents env query tenant_id 10 c)
      = Py.Ok ("\{empty\}", [])
    /\ Rag.sources_block [] = ""
    /\ Eff.outcome (Rag.get_relevant_history env query tenant_id 3 c)
       = Py.Ok chat_history
    /\ Eff.outcome (Rag.prepare env query tenant_id c) = Py.Ok (prompt, [])
    /\ Store.invocations (Eff.events (Rag.stream_rag_response env query tenant_id c))
       = [prompt]
    /\ Eff.outcome (Rag.stream_rag_response env query tenant_id c) = Py.Ok tt.
Proof.
  intros Hrank.
  pose proof (RagFacts.get_relevant_documents_none env query tenant_id 10 c Hrank)
    as Hdocs.
  destruct (RagFacts.prepare_run env query tenant_id c _ _ _ Hdocs)
    as (chat_history & log' & Hhist & Hprep).
  exists chat_history. intros prompt.
  pose proof (RagFacts.stream_rag_response_run env query tenant_id c c _ _ _ Hprep)
    as Hrun.
  destruct (RagFacts.prepare_retrieval_only env query tenant_id c) as [_ Hquiet].
  rewrite Hprep in Hquiet. unfold Eff.events in Hquiet. simpl in Hquiet.
  destruct (StoreFacts.quiet_projections log' Hquiet) as (Hinv & _ & _).
  split_and!.
  - by rewrite Hdocs.
  - reflexivity.
  - exact Hhist.
  - subst prompt. rewrite <- PromptFacts.format_prompt_rendered. by rewrite Hprep.
  - subst prompt. rewrite <- PromptFacts.format_prompt_rendered.
    rewrite Hrun. unfold Eff.events. cbn [snd].
    rewrite !RagFacts.invocations_app, Hinv, RagFacts.invocations_stream_log,
      RagFacts.invocations_persist_log.
    reflexivity.
  - by rewrite Hrun.
Qed.

(** A tenant without documents asks a question. *)
Lemma empty_retrieval_still_invokes_model_witness :
  Store.invocations
    (Eff.events (Rag.stream_rag_response Demo.healthy_env "What grew?" "newcomer"
                                         Demo.acme_cluster))
  = [String.concat (String "010"%char "")
      ["";
       "<|SYSTEM|>";
       "You are a precise RAG assistant. Your sole task is to answer the user's `<QUESTION>` using ONLY the provided `<CONTEXT>`.";
       "";
       "## Your Rules:";
       "1.  **Strictly Grounded:** Base every single statement in your answer on the provided text. NEVER use external knowledge or make assumptions.";
       "2.  **Cite Everything:** You MUST add a citation `[1]` or `[3][5]` after every piece of information. The citation goes *before* the punctuation.";
       "3.  **List Your Sources:** After the answer, you MUST provide a `Sources:` list, citing the full title of each source you used.";
       "4.  **Be Direct:** Do not add any conversational preamble. Start directly with the answer.";
       "5.  **Handle No Information Politely:** If the context does not contain the answer, you MUST respond with the exact phrase: " +:+ String "034"%char "" +:+ "I'm sorry, but I couldn't find the information needed to answer your question in the provided documents." +:+ String "034"%char "";
       "";
       "<|USER|>";
       "<CONTEXT>";
       "\{empty\}";
       "</CONTEXT>";
       "";
       "<SOURCES_BLOCK>";
       "";
       "</SOURCES_BLOCK>";
       "";
       "<CHAT_HISTORY>";
       "No relevant previous conversation history available.";
       "</CHAT_HISTORY>";
       "";
       "<QUESTION>";
       "What grew?";
       "</QUESTION>";
       "";
       "<|SYSTEM|>";
       ""]].
Proof.
  destruct (empty_retrieval_still_invokes_model
              Demo.healthy_env "What grew?" "newcomer" Demo.acme_cluster eq_refl)
    as (chat_history & _ & _ & Hhist & _ & Hinv & _).
  vm_compute in Hhist. injection Hhist as <-. exact Hinv.
Defined.

(** C3 (counterexample): as stated, the claim fails.  The search
    returns two chunks, the second with the text ["3"] under [page]:
    step 3 raises the [TypeError] of [page + 1], so no context and no
    label is built for this non-empty sequence. *)
Lemma text_page_chunk_gets_no_label :
  let found := [Demo.report_chunk; Samples.text_page_chunk] in
  let run := Rag.get_relevant_documents Demo.healthy_env "What fell?" "acme" 10
                                        Samples.ledger_cluster in
  found <> []
  /\ Store.rank Demo.healthy_env (Store.doc_index "acme")
       (Store.contents Samples.ledger_cluster (Store.doc_index "acme"))
       "What fell?" 10 = Py.Ok found
  /\ Eff.outcome run
     = Py.Raise (Py.TypeError ("can only concatenate str (not "
                               +:+ String "034"%char "" +:+ "int"
                               +:+ String "034"%char "" +:+ ") to str"))
  /\ ~ (exists context sources, Eff.outcome run = Py.Ok (context, sources)).
Proof.
  intros found run.
  assert (Eff.outcome run
          = Py.Raise (Py.TypeError ("can only concatenate str (not "
                                    +:+ String "034"%char "" +:+ "int"
                                    +:+ String "034"%char "" +:+ ") to str")))
    as Hout by by vm_compute.
  split_and!; [discriminate|by vm_compute|exact Hout|].
  intros (context & sources & H). rewrite Hout in H. discriminate.
Qed.

(** C3 (amended): when the similarity search returns a non-empty list
    of [K] chunks whose [page] entries, where present, are numbers, step 3
    returns a context of [K] lines and a citation mapping of [K] entries;
    the labels of the mapping are exactly ["[1]"] to ["[K]"], in that
    order and pairwise distinct; and the chunk at rank [i] (from 0) has
    line [i] of the context, which starts with its label [i+1], and entry
    [i] of the mapping.  Every chunk gets its own number, whether or not
    another chunk has the same text. *)
Theorem citation_labels_follow_rank
    (env : Store.Env) (query tenant_id : string) (c : Store.cluster)
    (docs : list Store.Document) :
  docs <> [] ->
  Store.rank env (Store.doc_index tenant_id)
             (Store.contents c (Store.doc_index tenant_id)) query 10 = Py.Ok docs ->
  Forall Rag.page_is_number docs ->
  exists (lines : list string) (sources : Py.dict string),
    Eff.outcome (Rag.get_relevant_documents env query tenant_id 10 c)
      = Py.Ok (String.concat Text.nl lines, sources)
    /\ length lines = length docs
    /\ length sources = length docs
    /\ map fst sources
       = map (fun n => "[" +:+ pretty n +:+ "]") (seq 1 (length docs))
    /\ NoDup (map fst sources)
    /\ forall i doc,
         docs !! i = Some doc ->
         lines !! i = Some ("[" +:+ pretty (i + 1) +:+ "] "
                            +:+ Store.page_content doc)
         /\ exists d, Rag.descriptor doc = Py.Ok d
                      /\ sources !! i = Some ("[" +:+ pretty (i + 1) +:+ "]", d).
Proof.
  intros Hne Hrank Hpages.
  destruct (RagFacts.descriptors_defined docs Hpages) as (descs & Hdescs).
  pose proof (Forall2_length _ _ _ Hdescs) as Hlen.
  exists (map Rag.context_line (Py.enumerate docs)),
         (combine (map Rag.label (seq 0 (length docs))) descs).
  assert (length (map Rag.label (seq 0 (length docs))) = length descs) as Hlabels
    by by rewrite length_map, length_seq.
  split_and!.
  - by rewrite (RagFacts.get_relevant_documents_some env query tenant_id 10 c
                  docs descs Hne Hrank Hdescs).
  - unfold Py.enumerate.
    by rewrite length_map, length_combine, length_seq, Nat.min_id.
  - rewrite length_combine, Hlabels, <- Hlen. apply Nat.min_id.
  - rewrite RagFacts.map_fst_combine by exact Hlabels.
    apply RagFacts.labels_one_based.
  - rewrite RagFacts.map_fst_combine by exact Hlabels.
    apply RagFacts.labels_distinct.
  - intros i doc Hi. split.
    + rewrite list_lookup_fmap, (RagFacts.enumerate_lookup docs i doc Hi).
      simpl. by rewrite RagFacts.context_line_shape.
    + destruct (Forall2_lookup_l _ _ _ _ _ Hdescs Hi) as (d & Hd & Hdesc).
      exists d. split; [exact Hdesc|].
      apply RagFacts.combine_lookup; [|exact Hd].
      rewrite list_lookup_fmap, lookup_seq_lt by by eapply lookup_lt_Some.
      reflexivity.
Qed.

(** Three chunks, the first and the third identical: labels [1] to [3]. *)
Lemma citation_labels_follow_rank_witness :
  exists lines sources,
    Eff.outcome (Rag.get_relevant_documents Demo.healthy_env "What grew?" "acme" 10
                                            Demo.acme_cluster)
      = Py.Ok (String.concat Text.nl lines, sources)
    /\ map fst sources = ["[1]"; "[2]"; "[3]"]
    /\ lines = ["[1] Revenue grew in Q3."; "[2] Revenue grew in Q3.";
                "[3] Revenue grew in Q3."].
Proof.
  assert ([Demo.report_chunk; Demo.notes_chunk; Demo.report_chunk] <> [])
    as Hne by discriminate.
  assert (Forall Rag.page_is_number
                 [Demo.report_chunk; Demo.notes_chunk; Demo.report_chunk])
    as Hpages by (repeat constructor).
  destruct (citation_labels_follow_rank
              Demo.healthy_env "What grew?" "acme" Demo.acme_cluster
              [Demo.report_chunk; Demo.notes_chunk; Demo.report_chunk]
              Hne eq_refl Hpages)
    as (lines & sources & Hout & Hlines & Hsources & Hkeys & _ & Hat).
  exists lines, sources. split_and!; [exact Hout|exact Hkeys|].
  destruct lines as [|l0 [|l1 [|l2 [|]]]]; try discriminate.
  destruct (Hat 0 _ eq_refl) as [[= ->] _].
  destruct (Hat 1 _ eq_refl) as [[= ->] _].
  destruct (Hat 2 _ eq_refl) as [[= ->] _].
  reflexivity.
Defined.



(** ** Tenant isolation *)

(** C2: for distinct tenants [t1] and [t2] the index names are distinct:
    the two document indexes differ, the two chat-history indexes
    differ, and no document index is a chat-history index.  Ingestion for
    [t1] changes no index but [t1]'s document index.  An answer for [t2]
    (its result and everything it does: searches, prompt, yielded
    contents, submitted record) is determined by the contents of [t2]'s
    two indexes, and changes no index but [t2]'s chat-history index.  So
    an answer for [t2] is the same whether or not [t1] has ingested a
    file before. *)
Theorem tenants_are_isolated (t1 t2 : string) :
  t1 <> t2 ->
  Store.doc_index t1 <> Store.doc_index t2
  /\ Store.chat_history_index t1 <> Store.chat_history_index t2
  /\ (forall a b, Store.doc_index a <> Store.chat_history_index b)
  /\ (forall env file_bytes filename c n,
        n <> Store.doc_index t1 ->
        Store.contents
          (Eff.final (Ingest.ingest_file_bytes env file_bytes filename t1 c)) n
        = Store.contents c n)
  /\ (forall env query c c',
        Store.contents c (Store.doc_index t2)
          = Store.contents c' (Store.doc_index t2) ->
        Store.contents c (Store.chat_history_index t2)
          = Store.contents c' (Store.chat_history_index t2) ->
        Eff.outcome (Rag.stream_rag_response env query t2 c)
          = Eff.outcome (Rag.stream_rag_response env query t2 c')
        /\ Eff.events (Rag.stream_rag_response env query t2 c)
           = Eff.events (Rag.stream_rag_response env query t2 c'))
  /\ (forall env query c n,
        n <> Store.chat_history_index t2 ->
        Store.contents (Eff.final (Rag.stream_rag_response env query t2 c)) n
        = Store.contents c n)
  /\ (forall env env' file_bytes filename query c,
        let c' := Eff.final (Ingest.ingest_file_bytes env' file_bytes filename t1 c) in
        Eff.outcome (Rag.stream_rag_response env query t2 c')
          = Eff.outcome (Rag.stream_rag_response env query t2 c)
        /\ Eff.events (Rag.stream_rag_response env query t2 c')
           = Eff.events (Rag.stream_rag_response env query t2 c)).
Proof.
  intros Hne.
  assert (Store.doc_index t1 <> Store.doc_index t2) as Hdoc
    by (intros H; by apply StoreFacts.doc_index_inj in H).
  assert (forall env file_bytes filename c n,
        n <> Store.doc_index t1 ->
        Store.contents
          (Eff.final (Ingest.ingest_file_bytes env file_bytes filename t1 c)) n
        = Store.contents c n) as Hingest.
  { intros env file_bytes filename c n Hn.
    apply (PipelineFacts.writes_only_ingest_file_bytes env file_bytes filename t1).
    rewrite not_elem_of_cons. split; [exact Hn|apply not_elem_of_nil]. }
  assert (forall env query c c',
        Store.contents c (Store.doc_index t2)
          = Store.contents c' (Store.doc_index t2) ->
        Store.contents c (Store.chat_history_index t2)
          = Store.contents c' (Store.chat_history_index t2) ->
        Eff.outcome (Rag.stream_rag_response env query t2 c)
          = Eff.outcome (Rag.stream_rag_response env query t2 c')
        /\ Eff.events (Rag.stream_rag_response env query t2 c)
           = Eff.events (Rag.stream_rag_response env query t2 c')) as Hanswer.
  { intros env query c c' Hd Hh.
    destruct (PipelineFacts.reads_only_stream_rag_response env query t2 c c')
      as (Hout & Hev & _); [|by split].
    intros n Hn. apply elem_of_cons in Hn as [->|Hn]; [exact Hd|].
    apply elem_of_cons in Hn as [->|Hn]; [exact Hh|].
    by apply elem_of_nil in Hn. }
  split_and!.
  - exact Hdoc.
  - intros H. by apply StoreFacts.chat_history_index_inj in H.
  - apply StoreFacts.doc_index_not_chat_history.
  - exact Hingest.
  - exact Hanswer.
  - intros env query c n Hn.
    apply (PipelineFacts.writes_only_stream_rag_response env query t2).
    rewrite not_elem_of_cons. split; [exact Hn|apply not_elem_of_nil].
  - intros env env' file_bytes filename query c c'. subst c'.
    apply Hanswer; apply Hingest; [congruence|].
    intros H. symmetry in H. by apply StoreFacts.doc_index_not_chat_history in H.
Qed.

(** Tenant [globex] uploads a text file; tenant [acme] asks a question
    before and after: the two answers are the same in every respect. *)
Lemma tenants_are_isolated_witness :
  let before := Demo.acme_cluster in
  let after :=
    Eff.final (Ingest.ingest_file_bytes Demo.healthy_env
                 (Demo.bytes_of_text "Revenue shrank in Q3.") "report.txt"
                 "globex" before) in
  Store.contents after (Store.doc_index "globex") <> []
  /\ Eff.events (Rag.stream_rag_response Demo.healthy_env "What grew?" "acme" after)
     = Eff.events (Rag.stream_rag_response Demo.healthy_env "What grew?" "acme" before).
Proof.
  intros before after. split; [by vm_compute|].
  assert ("globex" <> "acme") as Hne by discriminate.
  destruct (tenants_are_isolated "globex" "acme" Hne)
    as (_ & _ & _ & _ & _ & _ & Hsame).
  apply (Hsame Demo.healthy_env Demo.healthy_env).
Defined.

(** ** Ingestion *)

(** C7: for every file name whose lower-cased suffix is none of [.pdf],
    [.txt], [.docx], [.doc], the loader dispatch (the [try] block of
    [load_and_split]) raises the error [Unsupported file type: <name>],
    whatever the loaders would do with the bytes: it produces no
    documents.  And at the upload endpoint, a file whose name ends with
    none of the four suffixes is not loaded: the error line
    [Unsupported file type: <name>] is recorded for it. *)
Theorem unsupported_suffix_raises
    (env : Store.Env) (file_bytes : list Byte.byte) (filename : string) :
  (Store.suffix_lower env filename ∉ [".pdf"; ".txt"; ".docx"; ".doc"] ->
   Ingest.load_documents env file_bytes filename
   = Py.Raise (Py.ValueError ("Unsupported file type: " +:+ filename)))
  /\ (existsb (Text.endswith filename) [".pdf"; ".txt"; ".docx"; ".doc"] = false ->
      forall tenantId rest total_chunks errors,
        Rag.ingest_files env tenantId
          ({| Rag.filename := filename; Rag.file_bytes := file_bytes |} :: rest)
          total_chunks errors
        = Rag.ingest_files env tenantId rest total_chunks
            (errors ++ ["Unsupported file type: " +:+ filename])).
Proof.
  split.
  - intros Hsuffix. unfold Ingest.load_documents.
    destruct (decide (Store.suffix_lower env filename = ".pdf")) as [E|?];
      [exfalso; apply Hsuffix; rewrite E; apply list_elem_of_here|].
    destruct (decide (Store.suffix_lower env filename = ".txt")) as [E|?];
      [exfalso; apply Hsuffix; rewrite E;
       apply list_elem_of_further, list_elem_of_here|].
    destruct (decide (Store.suffix_lower env filename ∈ [".docx"; ".doc"]))
      as [E|?];
      [exfalso; apply Hsuffix; by do 2 apply list_elem_of_further|].
    reflexivity.
  - intros Hgate tenantId rest total_chunks errors.
    by apply RagFacts.ingest_files_skips_unsupported.
Qed.

(** A Markdown file. *)
Lemma unsupported_suffix_raises_witness :
  Ingest.load_documents Demo.healthy_env (Demo.bytes_of_text "# Notes") "notes.md"
  = Py.Raise (Py.ValueError "Unsupported file type: notes.md")
  /\ Rag.ingest_files Demo.healthy_env "acme"
       [{| Rag.filename := "notes.md";
           Rag.file_bytes := Demo.bytes_of_text "# Notes" |}] 0 []
     = Eff.ret (0, ["Unsupported file type: notes.md"]).
Proof.
  destruct (unsupported_suffix_raises Demo.healthy_env
              (Demo.bytes_of_text "# Notes") "notes.md") as [Hload Hgate].
  split.
  - apply Hload.
    change (".md" ∉ [".pdf"; ".txt"; ".docx"; ".doc"]).
    rewrite !not_elem_of_cons. split_and!; try discriminate. apply not_elem_of_nil.
  - by rewrite (Hgate eq_refl "acme" [] 0 []).
Defined.

(** C6 (counterexample): as stated, the claim fails.  A PDF that cannot
    be extracted is uploaded while the index rejects writes: the
    extraction failure is caught, but the failed write of the fallback
    chunk is raised, so no count is returned. *)
Lemma ingest_raises_when_index_write_fails :
  let run := Ingest.ingest_file_bytes Demo.store_down_env
               (Demo.bytes_of_text "%PDF-broken") "a.pdf" "acme" ∅ in
  (exists e, Ingest.load_documents Demo.store_down_env
               (Demo.bytes_of_text "%PDF-broken") "a.pdf" = Py.Raise e)
  /\ Eff.outcome run = Py.Raise (Py.OtherError "ConnectionError: opensearch is down")
  /\ ~ (exists n, Eff.outcome run = Py.Ok n /\ 1 <= n).
Proof.
  split_and!.
  - eexists. vm_compute. reflexivity.
  - vm_compute. reflexivity.
  - intros (n & H & _). vm_compute in H. discriminate.
Qed.

(** C6 (amended): when the extraction of a file fails with [e], the
    documents handed on are the single fallback document, whose text is
    [Error loading file: <name>. Error: <e>] and whose metadata has
    [error: True]; it survives the cleaning loop; and, the chunker
    returning at least one chunk for it, [ingest_file_bytes] returns a
    count of at least 1 unless a write to the index, or the creation,
    writing or closing of the temporary file, fails: the exceptions of
    these are the only ones it can raise. *)
Theorem failed_extraction_yields_error_chunk
    (env : Store.Env) (file_bytes : list Byte.byte) (filename tenant_id : string)
    (e : Py.exn) (c : Store.cluster) :
  Ingest.load_documents env file_bytes filename = Py.Raise e ->
  Store.split_documents env [Ingest.cleaned_fallback filename e] <> [] ->
  let fallback := Ingest.fallback_document filename e in
  let run := Ingest.ingest_file_bytes env file_bytes filename tenant_id c in
  Eff.outcome (Ingest.load_or_fallback env file_bytes filename c) = Py.Ok [fallback]
  /\ Store.page_content fallback
     = "Error loading file: " +:+ filename +:+ ". Error: " +:+ Py.message e
  /\ Py.lookup (Store.metadata fallback) "error" = Some (Py.VBool true)
  /\ Ingest.process_docs [fallback] [] = [Ingest.cleaned_fallback filename e]
  /\ match Eff.outcome run with
     | Py.Ok n => 1 <= n
     | Py.Raise e' =>
         (exists batch,
            Store.write_fault env (Store.doc_index tenant_id) batch = Some e')
         \/ Store.temp_fault env (Store.suffix_lower env filename) file_bytes
            = Some e'
         \/ Store.temp_close_fault env (Store.suffix_lower env filename) = Some e'
     end
  /\ ((forall batch,
         Store.write_fault env (Store.doc_index tenant_id) batch = None) ->
      Store.temp_fault env (Store.suffix_lower env filename) file_bytes = None ->
      Store.temp_close_fault env (Store.suffix_lower env filename) = None ->
      exists n, Eff.outcome run = Py.Ok n /\ 1 <= n).
Proof.
  intros Hload Hsplit fallback run.
  pose proof (IngestFacts.ingest_after_failure env file_bytes filename tenant_id
                e c Hload Hsplit) as Hrun.
  fold run in Hrun.
  assert (1 <= length (Store.split_documents env [Ingest.cleaned_fallback filename e]))
    as Hlen.
  { destruct (Store.split_documents env [Ingest.cleaned_fallback filename e]);
      [done|simpl; lia]. }
  split_and!.
  - by rewrite (IngestFacts.load_or_fallback_failure env _ _ _ c Hload).
  - reflexivity.
  - reflexivity.
  - apply IngestFacts.process_fallback.
  - destruct (Eff.outcome run) as [n|e']; [by subst n|exact Hrun].
  - intros Hhealthy Htemp Hclose. destruct (Eff.outcome run) as [n|e'].
    + exists n. split; [reflexivity|by subst n].
    + destruct Hrun as [(batch & Hbatch)|[Hraised|Hraised]];
        [by rewrite Hhealthy in Hbatch|congruence|congruence].
Qed.

(** A PDF that cannot be extracted, uploaded to a healthy index. *)
Lemma failed_extraction_yields_error_chunk_witness :
  Eff.outcome (Ingest.ingest_file_bytes Demo.healthy_env
                 (Demo.bytes_of_text "%PDF-broken") "a.pdf" "acme" ∅)
  = Py.Ok 1.
Proof.
  assert (Ingest.load_documents Demo.healthy_env (Demo.bytes_of_text "%PDF-broken")
                                "a.pdf"
          = Py.Raise (Py.OtherError "cannot open broken document")) as Hload
    by reflexivity.
  assert (Store.split_documents Demo.healthy_env
            [Ingest.cleaned_fallback "a.pdf"
               (Py.OtherError "cannot open broken document")] <> []) as Hsplit
    by discriminate.
  destruct (failed_extraction_yields_error_chunk
              Demo.healthy_env (Demo.bytes_of_text "%PDF-broken") "a.pdf" "acme"
              (Py.OtherError "cannot open broken document") ∅ Hload Hsplit)
    as (_ & _ & _ & _ & _ & Hcount).
  destruct (Hcount (fun _ => eq_refl) eq_refl eq_refl) as (n & Hn & _).
  rewrite Hn. vm_compute in Hn. congruence.
Defined.

(** ** Embedding client *)

(** C8: for every list of texts and every behaviour of the embedding
    service, [embed_documents] returns (it never raises) a list with one
    vector per text; the vector of a text whose [_embed] call raised is the
    zero vector, which has 384 components, all zero; the other vectors are
    the ones [_embed] returned. *)
Theorem embed_documents_never_raises
    {F Remote : Type} (zero : F)
    (post : string -> string -> string -> Remote
            -> Py.result (@Embeddings.response F) * Remote)
    (self : Embeddings.OllamaEmbeddings) (texts : list string) (r : Remote) :
  exists embeddings : list (list F),
    Eff.outcome (Embeddings.embed_documents zero post self texts r)
      = Py.Ok embeddings
    /\ length embeddings = length texts
    /\ Embeddings.replaced_on_failure zero post self texts embeddings r
    /\ length (Embeddings.zero_vector zero) = 384
    /\ Forall (fun x => x = zero) (Embeddings.zero_vector zero).
Proof.
  destruct (EmbeddingFacts.embed_each_returns zero post self texts [] r)
    as (vectors & Hout & Hlen & Hrep).
  exists vectors. unfold Embeddings.embed_documents.
  destruct (EmbeddingFacts.zero_vector_shape zero) as [H384 Hzero].
  auto.
Qed.

(** C10: [embed_query] is total: for every text and every behaviour of
    the embedding service it returns a vector, which is the one [_embed]
    returned, or the 384-component zero vector when [_embed] raised.  So a
    transport failure, on which [_embed] raises a [ValueError], does not
    reach the caller of [embed_query]. *)
Theorem embed_query_total
    {F Remote : Type} (zero : F)
    (post : string -> string -> string -> Remote
            -> Py.result (@Embeddings.response F) * Remote)
    (self : Embeddings.OllamaEmbeddings) (text : string) (r : Remote) :
  (exists v, Eff.outcome (Embeddings.embed_query zero post self text r) = Py.Ok v)
  /\ (forall e,
        Eff.outcome (Embeddings._embed zero post self text r) = Py.Raise e ->
        Eff.outcome (Embeddings.embed_query zero post self text r)
          = Py.Ok (Embeddings.zero_vector zero))
  /\ (forall v,
        Eff.outcome (Embeddings._embed zero post self text r) = Py.Ok v ->
        Eff.outcome (Embeddings.embed_query zero post self text r) = Py.Ok v)
  /\ (forall msg r',
        Text.str_strip text <> "" ->
        post (Embeddings.endpoint self) (Embeddings.model self)
             (Text.str_strip text) r = (Py.Raise (Py.RequestException msg), r') ->
        Eff.outcome (Embeddings._embed zero post self text r)
          = Py.Raise (Py.ValueError
                        ("Network error while getting embeddings: " +:+ msg))
        /\ Eff.outcome (Embeddings.embed_query zero post self text r)
           = Py.Ok (Embeddings.zero_vector zero))
  /\ length (Embeddings.zero_vector zero) = 384
  /\ Forall (fun x => x = zero) (Embeddings.zero_vector zero).
Proof.
  pose proof (EmbeddingFacts.embed_query_unfold zero post self text r) as Hq.
  assert (forall e,
        Eff.outcome (Embeddings._embed zero post self text r) = Py.Raise e ->
        Eff.outcome (Embeddings.embed_query zero post self text r)
          = Py.Ok (Embeddings.zero_vector zero)) as Hfail.
  { intros e He. rewrite Hq.
    destruct (Embeddings._embed zero post self text r) as [[[v|e'] r'] calls];
      [discriminate|reflexivity]. }
  split_and!.
  - rewrite Hq.
    destruct (Embeddings._embed zero post self text r) as [[[v|e'] r'] calls];
      eauto.
  - exact Hfail.
  - intros v Hv. rewrite Hq.
    destruct (Embeddings._embed zero post self text r) as [[[v'|e'] r'] calls];
      [exact Hv|discriminate].
  - intros msg r' Hblank Hpost.
    pose proof (EmbeddingFacts._embed_network_failure zero post self text msg r r'
                  Hblank Hpost) as He.
    split; [exact He|]. by apply Hfail in He.
  - apply EmbeddingFacts.zero_vector_shape.
  - apply EmbeddingFacts.zero_vector_shape.
Qed.

(** The query ["bb"] against a service that refuses the connection:
    [_embed] raises, [embed_query] returns the zero vector. *)
Lemma embed_query_total_witness :
  Eff.outcome (Embeddings._embed 0%Z Demo.flaky_post Demo.minilm "bb" 1)
    = Py.Raise (Py.ValueError
                  "Network error while getting embeddings: connection refused")
  /\ Eff.outcome (Embeddings.embed_query 0%Z Demo.flaky_post Demo.minilm "bb" 1)
     = Py.Ok (Embeddings.zero_vector 0%Z).
Proof.
  destruct (embed_query_total 0%Z Demo.flaky_post Demo.minilm "bb" 1)
    as (_ & _ & _ & H & _).
  apply (H "connection refused" 2); [by vm_compute|reflexivity].
Defined.

(** ** The text normalizer *)

(** C9: [clean_text("co- operative")] is exactly ["cooperative"].  More
    generally, for every two words (non-empty runs of word characters)
    and every non-empty run of whitespace, the normalizer turns the first
    word, a hyphen, the whitespace and the second word into the two words
    joined: the whitespace is collapsed, the de-hyphenation rule drops the
    hyphen and the space, and the later rules leave the joined word
    alone. *)
Theorem clean_text_joins_hyphenated_word :
  Normalizer.clean_text "co- operative" false = "cooperative"
  /\ forall (preserve : bool) (w1 ws w2 : string),
       w1 <> "" -> ws <> "" -> w2 <> "" ->
       Text.all_of Text.is_word (Text.of_string w1) ->
       Text.all_of Text.is_space (Text.of_string ws) ->
       Text.all_of Text.is_word (Text.of_string w2) ->
       Normalizer.clean_text (w1 +:+ "-" +:+ ws +:+ w2) preserve = w1 +:+ w2.
Proof.
  split; [vm_compute; reflexivity|].
  apply NormalizerFacts.clean_text_joins_words.
Qed.

(** The word [co], a hyphen, a line break with indentation, and the word
    [operative]. *)
Lemma clean_text_joins_hyphenated_word_witness :
  Normalizer.clean_text ("co" +:+ "-" +:+ (Text.nl +:+ "  ") +:+ "operative") false
  = "co" +:+ "operative".
Proof.
  apply (proj2 clean_text_joins_hyphenated_word false "co" (Text.nl +:+ "  ")
               "operative");
    try discriminate; by repeat constructor.
Defined.

(** * Further properties of the code *)



(** ** [store.py] *)

(** X1: [create_index_if_not_exists] always returns and leaves the
    documents of the cluster as they were, whatever the two requests
    answer or raise.  It first checks the index; it asks for the creation
    of the index, with vectors of dimension 384, exactly when the check
    did not answer 200 (another status, or an exception), and then once. *)
Theorem index_is_created_only_when_absent
    (env : Store.Env) (index_name : string) (c : Store.cluster) :
  let run := Store.create_index_if_not_exists env index_name c in
  Eff.outcome run = Py.Ok tt
  /\ Eff.final run = c
  /\ head (Eff.events run) = Some (Store.HeadIndex index_name)
  /\ Outline.creations (Eff.events run)
     = if Outline.index_found (Store.head_index env index_name) then []
       else [(index_name, 384)].
Proof.
  cbv zeta. rewrite StoreFacts.create_index_run.
  destruct (OutlineFacts.provision_log_shape env index_name) as [Hhead Hput].
  by split_and!.
Qed.

(** X2: the text that [clean_text] returns has no whitespace at either
    end; its only whitespace character is the blank, and no two blanks
    are adjacent. *)
Theorem clean_text_has_no_stray_whitespace (text : string) (preserve : bool) :
  let out := Text.of_string (Normalizer.clean_text text preserve) in
  Layout.trimmed out /\ Layout.single_spaced out.
Proof.
  cbv zeta. unfold Normalizer.clean_text. rewrite TextFacts.of_to_string.
  split; [apply LayoutFacts.clean_chars_trimmed
         |apply LayoutFacts.clean_chars_single_spaced].
Qed.

(** X3: the text that [clean_text] returns holds word characters,
    blanks and the marks [. , ; : ! ? -] only; with
    [preserve_special_chars] also the symbols [$ % @ # & + * = < > /]. *)
Theorem clean_text_stays_in_alphabet (text : string) (preserve : bool) :
  Forall (fun c => (if preserve then Layout.technical c else Layout.basic c) = true)
         (Text.of_string (Normalizer.clean_text text preserve)).
Proof.
  unfold Normalizer.clean_text. rewrite TextFacts.of_to_string.
  apply LayoutFacts.clean_chars_alphabet.
Qed.

(** X4: [clean_text] neither drops, nor adds, nor reorders a word
    character (letter, digit or underscore): the word characters of its
    result are those of the text, in the same order. *)
Theorem clean_text_keeps_word_characters (text : string) (preserve : bool) :
  Text.keep_words (Text.of_string (Normalizer.clean_text text preserve))
  = Text.keep_words (Text.of_string text).
Proof.
  unfold Normalizer.clean_text. rewrite TextFacts.of_to_string.
  apply NormalizerFacts.clean_chars_keeps_words.
Qed.

(** X5: in the text that [clean_text] returns, each of the marks
    [. , ; : ! ?] is the last character or is followed by a blank. *)
Theorem clean_text_spaces_punctuation (text : string) (preserve : bool) :
  Layout.punctuation_spaced (Text.of_string (Normalizer.clean_text text preserve)).
Proof.
  unfold Normalizer.clean_text. rewrite TextFacts.of_to_string.
  apply LayoutFacts.clean_chars_punctuation_spaced.
Qed.

(** X6: a text in which every character is whitespace or outside the
    characters that the mode lets through (so: no word character and none
    of the listed marks) is normalized to the empty text.  This covers the
    empty text and the text of whitespace only. *)
Theorem clean_text_drops_text_without_content (text : string) (preserve : bool) :
  Forall (fun c => Text.is_space c = true \/ Layout.unlisted preserve c = true)
         (Text.of_string text) ->
  Normalizer.clean_text text preserve = "".
Proof.
  intros H. unfold Normalizer.clean_text.
  by rewrite LayoutFacts.clean_chars_nothing_kept.
Qed.

(** Brackets, asterisks and a tilde, with whitespace around. *)
Lemma clean_text_drops_text_without_content_witness :
  Normalizer.clean_text " (*) [~] " false = "".
Proof.
  apply clean_text_drops_text_without_content.
  repeat (constructor; [first [by left|by right]|]). constructor.
Defined.

(** X7: a text of word characters and hyphens only (a hyphenated
    compound, with no whitespace) is returned as it is: the hyphen is
    removed only where whitespace follows it (C9). *)
Theorem clean_text_keeps_hyphenated_compound (text : string) (preserve : bool) :
  Forall Layout.in_compound (Text.of_string text) ->
  Normalizer.clean_text text preserve = text.
Proof.
  intros H. unfold Normalizer.clean_text.
  by rewrite LayoutFacts.clean_chars_compound, TextFacts.to_of_string.
Qed.

Lemma clean_text_keeps_hyphenated_compound_witness :
  Normalizer.clean_text "state-of-the-art" false = "state-of-the-art".
Proof.
  apply clean_text_keeps_hyphenated_compound.
  repeat (constructor; [first [by left|by right]|]). constructor.
Defined.


(** ** [ollama_embeddings.py] *)

(** X8: for a text that is not blank, [_embed] sends exactly one request,
    to [<base_url>/api/embeddings], with the model and the stripped text.
    When the reply has status 200 and its body holds a non-empty list
    under [embedding], that list is returned as it is, whatever its
    length; on every other reply, and when the request itself raises,
    [_embed] raises a [ValueError]. *)
Theorem embed_returns_reply_vector_or_value_error
    {F Remote : Type} (zero : F)
    (post : string -> string -> string -> Remote
            -> Py.result (@Embeddings.response F) * Remote)
    (self : Embeddings.OllamaEmbeddings) (text : string) (r : Remote) :
  Text.str_strip text <> "" ->
  let sent := post (Embeddings.endpoint self) (Embeddings.model self)
                   (Text.str_strip text) r in
  let run := Embeddings._embed zero post self text r in
  Eff.final run = snd sent
  /\ Wire.requests (Eff.events run)
     = [(Embeddings.endpoint self, Embeddings.model self, Text.str_strip text)]
  /\ match Wire.usable (fst sent) with
     | Some v => Eff.outcome run = Py.Ok v
     | None => exists msg, Eff.outcome run = Py.Raise (Py.ValueError msg)
     end.
Proof. intros Hblank. by apply WireFacts._embed_request. Qed.

(** The text [" bb "] and a service that answers: the two numbers of the
    reply come back. *)
Lemma embed_returns_reply_vector_or_value_error_witness :
  Eff.outcome (Embeddings._embed 0%Z Demo.flaky_post Demo.minilm " bb " 0)
  = Py.Ok [2%Z; 7%Z].
Proof.
  assert (Text.str_strip " bb " <> "") as Hblank by by vm_compute.
  destruct (embed_returns_reply_vector_or_value_error
              0%Z Demo.flaky_post Demo.minilm " bb " 0 Hblank) as (_ & _ & Hout).
  exact Hout.
Defined.

(** X9: for an empty text or a text of whitespace only, [_embed] and
    [embed_query] return the zero vector without sending a request: the
    state of the service is unchanged and the only line logged is a
    warning. *)
Theorem embed_blank_text_sends_nothing
    {F Remote : Type} (zero : F)
    (post : string -> string -> string -> Remote
            -> Py.result (@Embeddings.response F) * Remote)
    (self : Embeddings.OllamaEmbeddings) (text : string) (r : Remote) :
  Text.str_strip text = "" ->
  Embeddings._embed zero post self text r
  = (Py.Ok (Embeddings.zero_vector zero), r,
     [Embeddings.LogLine "WARNING" "Empty text provided for embedding"])
  /\ Embeddings.embed_query zero post self text r
     = (Py.Ok (Embeddings.zero_vector zero), r,
        [Embeddings.LogLine "WARNING" "Empty text provided for embedding"])
  /\ Wire.requests (Eff.events (Embeddings.embed_query zero post self text r)) = [].
Proof.
  intros Hblank.
  pose proof (EmbeddingFacts._embed_blank zero post self text r Hblank) as Hrun.
  pose proof (EmbeddingFacts.embed_query_unfold zero post self text r) as Hq.
  rewrite Hrun in Hq. by rewrite Hq.
Qed.

Lemma embed_blank_text_sends_nothing_witness :
  Eff.final (Embeddings.embed_query 0%Z Demo.flaky_post Demo.minilm "   " 0) = 0.
Proof.
  assert (Text.str_strip "   " = "") as Hblank by by vm_compute.
  destruct (embed_blank_text_sends_nothing
              0%Z Demo.flaky_post Demo.minilm "   " 0 Hblank) as (_ & -> & _).
  reflexivity.
Defined.

(** X10: whitespace around a text does not matter to [_embed]: the
    call on the stripped text does the same and returns the same. *)
Theorem embed_ignores_surrounding_whitespace
    {F Remote : Type} (zero : F)
    (post : string -> string -> string -> Remote
            -> Py.result (@Embeddings.response F) * Remote)
    (self : Embeddings.OllamaEmbeddings) (text : string) (r : Remote) :
  Embeddings._embed zero post self (Text.str_strip text) r
  = Embeddings._embed zero post self text r.
Proof. apply WireFacts._embed_strip_invariant. Qed.

(** X11: [embed_documents] sends one request for each text that is not
    blank, in the order of the texts, each with the stripped text; it
    sends none for a blank text and never retries. *)
Theorem embed_documents_sends_one_request_per_text
    {F Remote : Type} (zero : F)
    (post : string -> string -> string -> Remote
            -> Py.result (@Embeddings.response F) * Remote)
    (self : Embeddings.OllamaEmbeddings) (texts : list string) (r : Remote) :
  Wire.requests (Eff.events (Embeddings.embed_documents zero post self texts r))
  = map (fun text => (Embeddings.endpoint self, Embeddings.model self,
                      Text.str_strip text))
        (List.filter (fun text => negb (Wire.is_blank text)) texts).
Proof. apply WireFacts.requests_embed_each. Qed.

(** X12: [is_available] never raises.  It sends exactly one request,
    with the prompt [test], and returns [True] exactly when the reply to
    it has status 200 and a body that holds a non-empty list under
    [embedding]. *)
Theorem is_available_reflects_one_test_request
    {F Remote : Type} (zero : F)
    (post : string -> string -> string -> Remote
            -> Py.result (@Embeddings.response F) * Remote)
    (self : Embeddings.OllamaEmbeddings) (r : Remote) :
  let sent := post (Embeddings.endpoint self) (Embeddings.model self) "test" r in
  let run := Embeddings.is_available zero post self r in
  Eff.outcome run = Py.Ok (bool_decide (is_Some (Wire.usable (fst sent))))
  /\ Eff.final run = snd sent
  /\ Wire.requests (Eff.events run)
     = [(Embeddings.endpoint self, Embeddings.model self, "test")].
Proof. apply WireFacts.is_available_run. Qed.


(** ** [ingest_file.py] *)

(** X13: [load_and_split] raises only what the temporary file raises.
    When the file cannot be created or written, that exception is raised
    before any loader runs and nothing is logged.  Otherwise the loader
    runs under the [try]: whatever it does with the bytes, one line is
    logged when it raised and nothing otherwise; then either closing the
    temporary file raises, or a list of chunks is returned.  The cluster
    is left as it was in every case. *)
Theorem load_and_split_raises_only_for_temporary_file
    (env : Store.Env) (file_bytes : list Byte.byte) (filename : string)
    (c : Store.cluster) :
  let run := Ingest.load_and_split env file_bytes filename c in
  let suffix := Store.suffix_lower env filename in
  let load_log :=
    match Ingest.load_documents env file_bytes filename with
    | Py.Ok _ => []
    | Py.Raise e =>
        [Store.Log ("Error loading " +:+ filename +:+ ": " +:+ Py.message e)]
    end in
  Eff.final run = c
  /\ match Store.temp_fault env suffix file_bytes with
     | Some e => Eff.outcome run = Py.Raise e /\ Eff.events run = []
     | None =>
         Eff.events run = load_log
         /\ match Store.temp_close_fault env suffix with
            | Some e => Eff.outcome run = Py.Raise e
            | None => exists chunks, Eff.outcome run = Py.Ok chunks
            end
     end.
Proof.
  cbv zeta. rewrite OutlineFacts.load_and_split_run.
  destruct (Store.temp_fault env (Store.suffix_lower env filename) file_bytes);
    [done|].
  destruct (Store.temp_close_fault env (Store.suffix_lower env filename));
    split_and!; eauto.
Qed.

(** A file system that refuses long file names: the upload of a file
    whose suffix has 300 characters raises its error, out of
    [load_and_split] and out of [ingest_file_bytes], and nothing is
    handed to the store. *)
Lemma long_suffix_upload_raises :
  let filename := "notes." +:+ String.concat "" (replicate 300 "x") in
  let bytes := Demo.bytes_of_text "Revenue grew." in
  let run := Ingest.ingest_file_bytes Samples.strict_names_env bytes filename
                                      "acme" ∅ in
  Eff.outcome (Ingest.load_and_split Samples.strict_names_env bytes filename ∅)
  = Py.Raise (Py.OtherError "[Errno 36] File name too long")
  /\ Eff.outcome run = Py.Raise (Py.OtherError "[Errno 36] File name too long")
  /\ Store.submitted (Eff.events run) = [].
Proof. by vm_compute. Qed.

(** X14: the cleaning loop of [load_and_split] keeps exactly the
    documents whose normalized text is not empty, in their order, with the
    normalized text and the metadata untouched (its two tests, on the raw
    and on the stripped normalized text, come to this one).  So no kept
    document has an empty text, and a document whose text has a word
    character is always kept. *)
Theorem cleaning_loop_keeps_documents_with_content (docs : list Store.Document) :
  Ingest.process_docs docs [] = omap Outline.normalized docs
  /\ Forall (fun doc => Store.page_content doc <> "") (Ingest.process_docs docs [])
  /\ (forall doc,
        doc ∈ docs ->
        Text.keep_words (Text.of_string (Store.page_content doc)) <> [] ->
        {| Store.page_content := Normalizer.clean_text (Store.page_content doc) false;
           Store.metadata := Store.metadata doc |} ∈ Ingest.process_docs docs []).
Proof.
  rewrite OutlineFacts.process_docs_normalized. cbn [app]. split_and!.
  - reflexivity.
  - apply Forall_forall. intros d Hd.
    apply list_elem_of_omap in Hd as (doc & _ & Hn).
    unfold Outline.normalized in Hn. case_decide; [done|].
    injection Hn as <-. done.
  - intros doc Hdoc Hwords. apply list_elem_of_omap. exists doc. split; [done|].
    unfold Outline.normalized.
    destruct (NormalizerFacts.clean_text_not_blank _ Hwords) as [Hne _].
    by rewrite decide_False.
Qed.

(** X15: the metadata that [ingest_file_bytes] gives a chunk: the key
    [source_file] holds the uploaded file's name and [type] holds
    [document], whatever the loader had put there; under every other key
    no value is [None] or a blank text: such a key holds what the
    loader's metadata held, if that value is neither, and is absent
    otherwise. *)
Theorem ingested_chunk_metadata (filename : string) (doc : Store.Document) :
  NoDup (map fst (Store.metadata doc)) ->
  let m := Store.metadata (Ingest.annotate filename doc) in
  Py.lookup m "source_file" = Some (Py.VStr filename)
  /\ Py.lookup m "type" = Some (Py.VStr "document")
  /\ (forall k v, k <> "source_file" -> Py.lookup m k = Some v -> Ingest.filled v)
  /\ (forall k, k <> "source_file" -> k <> "type" ->
        Py.lookup m k = match Py.lookup (Store.metadata doc) k with
                        | Some v => if Outline.keeps v then Some v else None
                        | None => None
                        end).
Proof.
  intros Hnd m. subst m. unfold Ingest.annotate, Py.update. cbn [Store.metadata fold_left fst snd].
  split_and!.
  - rewrite !IngestFacts.lookup_set.
    destruct (decide ("type" = "source_file")); [discriminate|].
    by rewrite decide_True.
  - rewrite !IngestFacts.lookup_set. by rewrite decide_True.
  - intros k v Hk. rewrite !IngestFacts.lookup_set.
    destruct (decide ("type" = k)); [by intros [= <-]|].
    rewrite decide_False by done.
    apply IngestFacts.clean_metadata_filled. by intros k' v'.
  - intros k Hs Ht. rewrite !IngestFacts.lookup_set.
    rewrite !decide_False by done.
    rewrite OutlineFacts.lookup_clean_metadata by done.
    by destruct (Py.lookup (Store.metadata doc) k).
Qed.

(** A chunk with a blank title, no author, a page number and the path of
    the temporary file. *)
Lemma ingested_chunk_metadata_witness :
  Store.metadata (Ingest.annotate "q3.pdf" Samples.raw_chunk)
  = [("page", Py.VInt 4); ("source_file", Py.VStr "q3.pdf");
     ("type", Py.VStr "document")]
  /\ Py.lookup (Store.metadata (Ingest.annotate "q3.pdf" Samples.raw_chunk)) "title"
     = None.
Proof.
  assert (NoDup (map fst (Store.metadata Samples.raw_chunk))) as Hnd.
  { cbn. repeat (constructor; [rewrite ?not_elem_of_cons; split_and?; try discriminate;
                               apply not_elem_of_nil|]). constructor. }
  destruct (ingested_chunk_metadata "q3.pdf" Samples.raw_chunk Hnd)
    as (_ & _ & _ & Hkeys).
  split; [by vm_compute|].
  rewrite Hkeys by discriminate. by vm_compute.
Defined.

(** X16: when no write to the tenant's document index is rejected,
    [ingest_file_bytes] returns the number of chunks that [load_and_split]
    produced, and the index has gained exactly these chunks, annotated, in
    their order, after the documents it held: the batches lose, repeat and
    reorder nothing.  No other index changes. *)
Theorem ingest_into_healthy_store
    (env : Store.Env) (file_bytes : list Byte.byte) (filename tenant_id : string)
    (c : Store.cluster) (chunks : list Store.Document) :
  Eff.outcome (Ingest.load_and_split env file_bytes filename c) = Py.Ok chunks ->
  (forall batch, Store.write_fault env (Store.doc_index tenant_id) batch = None) ->
  let run := Ingest.ingest_file_bytes env file_bytes filename tenant_id c in
  Eff.outcome run = Py.Ok (length chunks)
  /\ Store.contents (Eff.final run) (Store.doc_index tenant_id)
     = Store.contents c (Store.doc_index tenant_id)
       ++ map (Ingest.annotate filename) chunks
  /\ (forall n, n <> Store.doc_index tenant_id ->
                Store.contents (Eff.final run) n = Store.contents c n).
Proof.
  intros Hload Hhealthy run. subst run.
  pose proof (OutlineFacts.ingest_file_bytes_run env file_bytes filename tenant_id c)
    as Hrun.
  cbv zeta in Hrun. rewrite Hload in Hrun. destruct Hrun as (Hout & Hfin & _).
  destruct (OutlineFacts.writes_healthy env (Store.doc_index tenant_id)
              (Outline.batches (map (Ingest.annotate filename) chunks)) Hhealthy)
    as (Hrej & Hacc & _).
  rewrite Hrej in Hout. rewrite Hacc, OutlineFacts.batches_concat in Hfin.
  split_and!.
  - exact Hout.
  - by rewrite Hfin, decide_True.
  - intros n Hn. by rewrite Hfin, decide_False.
Qed.

(** A text file uploaded to an empty, healthy cluster. *)
Lemma ingest_into_healthy_store_witness :
  let run := Ingest.ingest_file_bytes Demo.healthy_env
               (Demo.bytes_of_text "Revenue   grew , they say.") "notes.txt"
               "acme" ∅ in
  Eff.outcome run = Py.Ok 1
  /\ Store.contents (Eff.final run) (Store.doc_index "acme")
     = [{| Store.page_content := "Revenue grew, they say.";
           Store.metadata := [("source", Py.VStr "/tmp/upload.txt");
                              ("source_file", Py.VStr "notes.txt");
                              ("type", Py.VStr "document")] |}].
Proof.
  intros run.
  assert (Eff.outcome (Ingest.load_and_split Demo.healthy_env
                         (Demo.bytes_of_text "Revenue   grew , they say.")
                         "notes.txt" ∅)
          = Py.Ok [{| Store.page_content := "Revenue grew, they say.";
                      Store.metadata := [("source", Py.VStr "/tmp/upload.txt")] |}])
    as Hload by by vm_compute.
  destruct (ingest_into_healthy_store Demo.healthy_env _ "notes.txt" "acme" ∅ _
              Hload (fun _ => eq_refl)) as (Hout & Hfin & _).
  split; [exact Hout|]. subst run. rewrite Hfin. by vm_compute.
Defined.

(** X17: every batch that [ingest_file_bytes] hands to the store goes to
    the tenant's document index, is not empty and has at most 100 chunks;
    the batches are consecutive slices of the annotated chunks, from the
    first chunk on.  When no write is rejected, they cover all the
    chunks, and there are [ceil(n / 100)] of them for [n] chunks. *)
Theorem ingest_submits_batches_of_at_most_100
    (env : Store.Env) (file_bytes : list Byte.byte) (filename tenant_id : string)
    (c : Store.cluster) (chunks : list Store.Document) :
  Eff.outcome (Ingest.load_and_split env file_bytes filename c) = Py.Ok chunks ->
  let run := Ingest.ingest_file_bytes env file_bytes filename tenant_id c in
  let handed := Store.submitted (Eff.events run) in
  Forall (fun ib => fst ib = Store.doc_index tenant_id
                    /\ 0 < length (snd ib) <= 100) handed
  /\ (exists rest,
        map (Ingest.annotate filename) chunks = concat (map snd handed) ++ rest)
  /\ ((forall batch, Store.write_fault env (Store.doc_index tenant_id) batch = None) ->
      concat (map snd handed) = map (Ingest.annotate filename) chunks
      /\ length handed = (length chunks + 99) / 100).
Proof.
  intros Hload run handed. subst run handed.
  pose proof (OutlineFacts.ingest_file_bytes_run env file_bytes filename tenant_id c)
    as Hrun.
  cbv zeta in Hrun. rewrite Hload in Hrun. destruct Hrun as (_ & _ & Hsub).
  rewrite Hsub.
  set (bs := Outline.batches (map (Ingest.annotate filename) chunks)).
  destruct (OutlineFacts.sent_prefix env (Store.doc_index tenant_id) bs)
    as [rest Hprefix].
  rewrite map_map. cbn [snd]. rewrite map_id.
  split_and!.
  - apply Forall_map. cbn [fst snd].
    pose proof (OutlineFacts.batches_sizes (map (Ingest.annotate filename) chunks))
      as Hsizes.
    fold bs in Hsizes. rewrite Hprefix in Hsizes.
    apply Forall_app in Hsizes as [Hsizes _].
    eapply Forall_impl; [exact Hsizes|]. by intros b Hb.
  - exists (concat rest).
    rewrite <- (OutlineFacts.batches_concat (map (Ingest.annotate filename) chunks)).
    fold bs. rewrite Hprefix at 1. apply concat_app.
  - intros Hhealthy.
    destruct (OutlineFacts.writes_healthy env (Store.doc_index tenant_id) bs Hhealthy)
      as (_ & _ & ->).
    split; [apply OutlineFacts.batches_concat|].
    rewrite length_map. unfold bs.
    by rewrite OutlineFacts.batches_length, length_map.
Qed.

(** A file cut into 150 chunks: two batches are handed over, of 100 and
    of 50 chunks. *)
Lemma ingest_submits_batches_of_at_most_100_witness :
  let handed :=
    Store.submitted
      (Eff.events (Ingest.ingest_file_bytes Samples.full_batches_env
                     (Demo.bytes_of_text "Revenue grew.") "notes.txt" "acme" ∅)) in
  Forall (fun ib => fst ib = Store.doc_index "acme" /\ 0 < length (snd ib) <= 100)
         handed
  /\ map (fun ib => length (snd ib)) handed = [100; 50].
Proof.
  assert (Eff.outcome (Ingest.load_and_split Samples.full_batches_env
                         (Demo.bytes_of_text "Revenue grew.") "notes.txt" ∅)
          = Py.Ok (replicate 150
                     {| Store.page_content := "Revenue grew.";
                        Store.metadata := [("source", Py.VStr "/tmp/upload.txt")] |}))
    as Hload by by vm_compute.
  intros handed.
  destruct (ingest_submits_batches_of_at_most_100 Samples.full_batches_env _
              "notes.txt" "acme" ∅ _ Hload) as (Hsizes & _ & _).
  split; [exact Hsizes|by vm_compute].
Defined.

(** X18: when the store rejects a batch, [ingest_file_bytes] raises the
    store's exception; the batches written before it stay in the index
    (nothing is rolled back), the rejected batch is the last one handed
    over, and the batches after it are never sent. *)
Theorem ingest_failure_keeps_earlier_batches
    (env : Store.Env) (file_bytes : list Byte.byte) (filename tenant_id : string)
    (c : Store.cluster) (chunks : list Store.Document)
    (done rest : list (list Store.Document)) (failing : list Store.Document)
    (e : Py.exn) :
  Eff.outcome (Ingest.load_and_split env file_bytes filename c) = Py.Ok chunks ->
  Outline.batches (map (Ingest.annotate filename) chunks) = done ++ failing :: rest ->
  (forall b, b ∈ done -> Store.write_fault env (Store.doc_index tenant_id) b = None) ->
  Store.write_fault env (Store.doc_index tenant_id) failing = Some e ->
  let run := Ingest.ingest_file_bytes env file_bytes filename tenant_id c in
  Eff.outcome run = Py.Raise e
  /\ Store.contents (Eff.final run) (Store.doc_index tenant_id)
     = Store.contents c (Store.doc_index tenant_id) ++ concat done
  /\ Store.submitted (Eff.events run)
     = map (fun b => (Store.doc_index tenant_id, b)) (done ++ [failing]).
Proof.
  intros Hload Hbatches Hdone Hfail run. subst run.
  pose proof (OutlineFacts.ingest_file_bytes_run env file_bytes filename tenant_id c)
    as Hrun.
  cbv zeta in Hrun. rewrite Hload in Hrun. destruct Hrun as (Hout & Hfin & Hsub).
  rewrite Hbatches in Hout, Hfin, Hsub.
  destruct (OutlineFacts.writes_split env (Store.doc_index tenant_id) done rest
              failing e Hdone Hfail) as (Hrej & Hacc & Hsent).
  rewrite Hrej in Hout. rewrite Hacc in Hfin. rewrite Hsent in Hsub.
  split_and!; [exact Hout| |exact Hsub].
  by rewrite Hfin, decide_True.
Qed.

(** A file cut into 150 chunks, and a store that accepts full batches
    only: the first 100 chunks are indexed, the write of the other 50
    is raised. *)
Lemma ingest_failure_keeps_earlier_batches_witness :
  let run := Ingest.ingest_file_bytes Samples.full_batches_env
               (Demo.bytes_of_text "Revenue grew.") "notes.txt" "acme" ∅ in
  Eff.outcome run = Py.Raise (Py.OtherError "RequestError(400, 'partial batch')")
  /\ length (Store.contents (Eff.final run) (Store.doc_index "acme")) = 100.
Proof.
  intros run.
  set (chunk := {| Store.page_content := "Revenue grew.";
                   Store.metadata := [("source", Py.VStr "/tmp/upload.txt")] |}).
  assert (Eff.outcome (Ingest.load_and_split Samples.full_batches_env
                         (Demo.bytes_of_text "Revenue grew.") "notes.txt" ∅)
          = Py.Ok (replicate 150 chunk)) as Hload by by vm_compute.
  assert (Outline.batches (map (Ingest.annotate "notes.txt") (replicate 150 chunk))
          = [replicate 100 (Ingest.annotate "notes.txt" chunk)]
            ++ replicate 50 (Ingest.annotate "notes.txt" chunk) :: [])
    as Hbatches by by vm_compute.
  destruct (ingest_failure_keeps_earlier_batches Samples.full_batches_env _
              "notes.txt" "acme" ∅ _ _ _ _
              (Py.OtherError "RequestError(400, 'partial batch')")
              Hload Hbatches) as (Hout & Hfin & _).
  - intros b Hb. apply list_elem_of_singleton in Hb as ->. by vm_compute.
  - by vm_compute.
  - split; [exact Hout|]. subst run. rewrite Hfin. by vm_compute.
Defined.


(** ** [main.py]: retrieval and the endpoints *)

(** X19: [get_relevant_history] never raises and changes nothing.  When
    the search of the tenant's chat-history index raises, or finds no
    record, it returns the sentence [No relevant previous conversation
    history available.]; otherwise the heading [Relevant previous
    conversations:] and, one per line, the texts of the records found. *)
Theorem history_lookup_never_fails
    (env : Store.Env) (query tenant_id : string) (k : nat) (c : Store.cluster) :
  let found := Store.rank env (Store.chat_history_index tenant_id)
                 (Store.contents c (Store.chat_history_index tenant_id)) query k in
  let run := Rag.get_relevant_history env query tenant_id k c in
  Eff.outcome run
  = Py.Ok match found with
          | Py.Ok (doc :: docs) =>
              "Relevant previous conversations:" +:+ Text.nl
              +:+ Text.str_join Text.nl (map Store.page_content (doc :: docs))
          | _ => "No relevant previous conversation history available."
          end
  /\ Eff.final run = c
  /\ Store.quiet (Eff.events run).
Proof.
  cbv zeta. rewrite OutlineFacts.get_relevant_history_exact.
  unfold Eff.outcome, Eff.final, Eff.events. cbn [fst snd]. split_and!.
  - by destruct (Store.rank env _ _ query k) as [[|doc docs]|e].
  - reflexivity.
  - apply OutlineFacts.quiet_app; [apply StoreFacts.provision_log_quiet|].
    destruct (Store.rank env _ _ query k); by repeat constructor.
Qed.

(** X20: [stream_rag_response] raises exactly when the retrieval of the
    documents ([get_relevant_documents] on the cluster as it is) raises,
    and then the same exception: the model is not invoked, nothing is
    yielded, nothing is stored.  In every other case it returns, having
    invoked the model once: a failure of the history search, of the model
    stream or of the history write never reaches the caller. *)
Theorem answer_fails_only_with_document_search
    (env : Store.Env) (query tenant_id : string) (c : Store.cluster) :
  let run := Rag.stream_rag_response env query tenant_id c in
  match Eff.outcome (Rag.get_relevant_documents env query tenant_id 10 c) with
  | Py.Ok _ =>
      Eff.outcome run = Py.Ok tt
      /\ length (Store.invocations (Eff.events run)) = 1
  | Py.Raise e =>
      Eff.outcome run = Py.Raise e
      /\ Eff.final run = c
      /\ Store.invocations (Eff.events run) = []
      /\ Store.yielded (Eff.events run) = []
      /\ Store.submitted (Eff.events run) = []
  end.
Proof. apply OutlineFacts.stream_rag_response_outcome. Qed.

(** X21: when one of the chunks that the search returns has a text
    under [page], [get_relevant_documents] raises the [TypeError] of
    [page + 1], and so does [stream_rag_response], before the model is
    invoked. *)
Theorem text_page_breaks_retrieval
    (env : Store.Env) (query tenant_id : string) (c : Store.cluster)
    (docs : list Store.Document) :
  Store.rank env (Store.doc_index tenant_id)
             (Store.contents c (Store.doc_index tenant_id)) query 10 = Py.Ok docs ->
  Exists (fun doc => exists s, Py.get (Store.metadata doc) "page" Py.VNone = Py.VStr s)
         docs ->
  let run := Rag.stream_rag_response env query tenant_id c in
  Eff.outcome (Rag.get_relevant_documents env query tenant_id 10 c)
  = Py.Raise (Py.TypeError ("can only concatenate str (not " +:+ Py.dq +:+ "int"
                            +:+ Py.dq +:+ ") to str"))
  /\ Eff.outcome run
     = Py.Raise (Py.TypeError ("can only concatenate str (not " +:+ Py.dq +:+ "int"
                               +:+ Py.dq +:+ ") to str"))
  /\ Store.invocations (Eff.events run) = [].
Proof.
  intros Hrank Hex run. subst run.
  assert (Eff.outcome (Rag.get_relevant_documents env query tenant_id 10 c)
          = Py.Raise Outline.text_page_error) as Hdocs.
  { apply (OutlineFacts.get_relevant_documents_text_page env _ _ _ _ docs Hrank).
    eapply Exists_impl; [exact Hex|]. intros doc [s Hs].
    unfold Rag.page_is_number. rewrite Hs. tauto. }
  pose proof (OutlineFacts.stream_rag_response_outcome env query tenant_id c) as Hrun.
  cbv zeta in Hrun. rewrite Hdocs in Hrun.
  destruct Hrun as (Hout & _ & Hinv & _). by split_and!.
Qed.

(** The second chunk of the tenant's index has the page ["3"]. *)
Lemma text_page_breaks_retrieval_witness :
  Eff.outcome (Rag.stream_rag_response Demo.healthy_env "What fell?" "acme"
                 Samples.ledger_cluster)
  = Py.Raise (Py.TypeError ("can only concatenate str (not " +:+ Py.dq +:+ "int"
                            +:+ Py.dq +:+ ") to str")).
Proof.
  assert (Store.rank Demo.healthy_env (Store.doc_index "acme")
            (Store.contents Samples.ledger_cluster (Store.doc_index "acme"))
            "What fell?" 10
          = Py.Ok [Demo.report_chunk; Samples.text_page_chunk]) as Hrank
    by by vm_compute.
  destruct (text_page_breaks_retrieval Demo.healthy_env "What fell?" "acme"
              Samples.ledger_cluster _ Hrank) as (_ & Hout & _).
  - apply Exists_cons_tl, Exists_cons_hd. by exists "3".
  - exact Hout.
Defined.

(** X22: the two endpoints refuse an empty tenant id with the HTTP error
    400 [Tenant ID is required.] before they do anything.  With a tenant
    id, [ingest_multiple_files_api] never raises, whatever happens to the
    files: it returns the report [Ingestion completed], with at most one
    error line per uploaded file. *)
Theorem endpoints_require_tenant
    (env : Store.Env) (query tenantId : string) (files : list Rag.UploadFile)
    (c : Store.cluster) :
  Rag.stream_response env query "" c
  = (Py.Raise (Py.HTTPException 400 "Tenant ID is required."), c, [])
  /\ Rag.ingest_multiple_files_api env "" files c
     = (Py.Raise (Py.HTTPException 400 "Tenant ID is required."), c, [])
  /\ match Eff.outcome (Rag.ingest_multiple_files_api env tenantId files c) with
     | Py.Ok report =>
         tenantId <> ""
         /\ Rag.report_message report = "Ingestion completed"
         /\ length (Rag.report_errors report) <= length files
     | Py.Raise _ => tenantId = ""
     end.
Proof.
  split_and!; [reflexivity|reflexivity|].
  destruct (decide (tenantId = "")) as [->|Hne]; [reflexivity|].
  rewrite OutlineFacts.ingest_multiple_files_api_named by done.
  destruct (OutlineFacts.ingest_files_run env tenantId files 0 [] c)
    as (added & new_errors & Hout & Hlen & _).
  destruct (Rag.ingest_files env tenantId files 0 [] c) as [[[totals|e] c'] log];
    unfold Eff.outcome in *; cbn [fst] in *; [|discriminate].
  injection Hout as ->. cbn. done.
Qed.

(** X23: in the report of [ingest_multiple_files_api], [total_chunks]
    counts documents that the tenant's document index has gained: the
    index has grown by at least that many documents, and by exactly that
    many when the report lists no error (a failed file may leave the
    batches written before its failure).  No other index has changed. *)
Theorem upload_total_matches_index_growth
    (env : Store.Env) (tenantId : string) (files : list Rag.UploadFile)
    (c : Store.cluster) (report : Rag.IngestionReport) :
  let run := Rag.ingest_multiple_files_api env tenantId files c in
  Eff.outcome run = Py.Ok report ->
  length (Store.contents c (Store.doc_index tenantId))
    + Rag.report_total_chunks report
  <= length (Store.contents (Eff.final run) (Store.doc_index tenantId))
  /\ (Rag.report_errors report = [] ->
      length (Store.contents (Eff.final run) (Store.doc_index tenantId))
      = length (Store.contents c (Store.doc_index tenantId))
        + Rag.report_total_chunks report)
  /\ (forall n, n <> Store.doc_index tenantId ->
                Store.contents (Eff.final run) n = Store.contents c n).
Proof.
  intros run Hout. subst run.
  destruct (decide (tenantId = "")) as [->|Hne]; [discriminate|].
  rewrite OutlineFacts.ingest_multiple_files_api_named in * by done.
  destruct (OutlineFacts.ingest_files_run env tenantId files 0 [] c)
    as (added & new_errors & Hrun & _ & Hother & Hge & Heq).
  destruct (Rag.ingest_files env tenantId files 0 [] c) as [[[totals|e] c'] log];
    unfold Eff.outcome, Eff.final in *; cbn [fst snd] in *; [|discriminate].
  injection Hrun as ->. injection Hout as <-. cbn. split_and!; done.
Qed.

(** Two text files and a Markdown file uploaded to an empty, healthy
    cluster: two chunks are counted and the index holds two documents,
    although the report lists an error. *)
Lemma upload_total_matches_index_growth_witness :
  let files :=
    [{| Rag.filename := "a.txt"; Rag.file_bytes := Demo.bytes_of_text "Alpha." |};
     {| Rag.filename := "b.md"; Rag.file_bytes := Demo.bytes_of_text "# Beta" |};
     {| Rag.filename := "c.txt"; Rag.file_bytes := Demo.bytes_of_text "Gamma." |}] in
  let run := Rag.ingest_multiple_files_api Demo.healthy_env "acme" files ∅ in
  2 <= length (Store.contents (Eff.final run) (Store.doc_index "acme")).
Proof.
  intros files run.
  assert (Eff.outcome run
          = Py.Ok {| Rag.report_message := "Ingestion completed";
                     Rag.report_total_chunks := 2;
                     Rag.report_errors := ["Unsupported file type: b.md"] |})
    as Hout by by vm_compute.
  destruct (upload_total_matches_index_growth Demo.healthy_env "acme" files ∅ _ Hout)
    as (Hge & _ & _).
  exact Hge.
Defined.


(** ** [ollama_multimodel.py] and the image endpoint *)

Section ImageClient.
Context {Value Remote : Type}.
Context (decode_utf8 : list Byte.byte -> Py.result string).
Context (json_loads : string -> Multimodal.parsed Value).
Context (fields_of : Value -> option (Py.dict Value)).
Context (truth : Value -> bool).
Context (misuse : Value -> Py.exn).
Context (session_post : string -> Multimodal.payload -> Remote
                        -> Py.result Multimodal.reply * Remote).
Context (b64encode : list Byte.byte -> string).

Local Abbreviation read_lines :=
  (Multimodal.read_lines (Remote := Remote)
     decode_utf8 json_loads fields_of truth misuse).
Local Abbreviation is_last :=
  (Multimodal.is_last decode_utf8 json_loads fields_of truth).
Local Abbreviation responses :=
  (Multimodal.responses decode_utf8 json_loads fields_of truth).
Local Abbreviation stream :=
  (Multimodal.stream decode_utf8 json_loads fields_of truth misuse session_post).
Local Abbreviation generate_response :=
  (Multimodal.generate_response decode_utf8 json_loads fields_of truth misuse
     session_post).
Local Abbreviation ask_image :=
  (Multimodal.ask_image decode_utf8 json_loads fields_of truth misuse session_post
     b64encode).

(** X24: no line of the reply can make the reading loop of [stream]
    raise: an empty or blank line, a line that is no UTF-8, no JSON or no
    JSON object is passed over.  The loop sends no request, and it yields
    the values under [response] of the JSON objects, in the order of the
    lines, up to and including the first object whose [done] is true;
    the lines after that one are not looked at. *)
Theorem reply_lines_never_break_the_stream
    (lines : list (list Byte.byte)) (r : Remote) :
  let run := read_lines lines r in
  Eff.outcome run = Py.Ok (existsb is_last lines)
  /\ Eff.final run = r
  /\ Multimodal.posts (Eff.events run) = []
  /\ Multimodal.chunks (Eff.events run) = responses lines
  /\ (forall before line after,
        lines = before ++ line :: after -> is_last line = true ->
        run = read_lines (before ++ [line]) r).
Proof.
  cbv zeta.
  destruct (MultimodalFacts.read_lines_run decode_utf8 json_loads fields_of truth
              misuse lines r) as (log & Hrun & Hchunks & Hposts).
  rewrite Hrun. split_and!; try done.
  intros before line after -> Hlast. rewrite <- Hrun.
  by apply MultimodalFacts.read_lines_stop.
Qed.

(** X25: on a reply with status 200, [stream] has sent one request (the
    model, the prompt, the images and [stream: true]) and yields the
    values under [response] of the lines, up to the first line whose
    [done] is true.  It returns normally when such a line arrives or when
    the body ends; it raises only when reading the body fails before such
    a line. *)
Theorem image_stream_yields_until_done
    (self : Multimodal.OllamaMultimodal) (images : list string) (prompt : string)
    (r r' : Remote) (resp : Multimodal.reply) :
  let body := {| Multimodal.payload_model := Multimodal.model self;
                 Multimodal.payload_prompt := prompt;
                 Multimodal.payload_images := images;
                 Multimodal.payload_stream := true |} in
  session_post (Multimodal.api_url self) body r = (Py.Ok resp, r') ->
  Multimodal.status resp = 200%Z ->
  let run := stream self (Multimodal.Images images) prompt r in
  Multimodal.posts (Eff.events run) = [(Multimodal.api_url self, body)]
  /\ Multimodal.chunks (Eff.events run)
     = responses (fst (Multimodal.content resp))
  /\ Eff.final run = r'
  /\ Eff.outcome run
     = if existsb is_last (fst (Multimodal.content resp)) then Py.Ok tt
       else match snd (Multimodal.content resp) with
            | Some e => Py.Raise e
            | None => Py.Ok tt
            end.
Proof.
  intros body Hpost Hstatus run. subst run.
  destruct (MultimodalFacts.stream_unfold decode_utf8 json_loads fields_of truth
              misuse session_post self (Multimodal.Images images) prompt r)
    as (log & Hchunks & Hposts & Hrun).
  cbv beta iota zeta in Hchunks, Hposts, Hrun. fold body in Hchunks, Hposts, Hrun.
  rewrite Hpost in Hchunks, Hrun. cbn [fst snd] in Hchunks, Hrun.
  destruct (decide (Multimodal.status resp = 200%Z)); [|done].
  rewrite Hrun. by split_and!.
Qed.

(** X26: [stream] yields nothing unless the reply has status 200.  On
    a reply with another status it raises [Ollama API error: <status> -
    <body>] (or what reading the body raised); when the request itself
    raises, that exception is raised.  In both cases the one request is
    all that has happened. *)
Theorem image_stream_error_status
    (self : Multimodal.OllamaMultimodal) (images : list string) (prompt : string)
    (r : Remote) :
  let body := {| Multimodal.payload_model := Multimodal.model self;
                 Multimodal.payload_prompt := prompt;
                 Multimodal.payload_images := images;
                 Multimodal.payload_stream := true |} in
  let run := stream self (Multimodal.Images images) prompt r in
  match session_post (Multimodal.api_url self) body r with
  | (Py.Ok resp, r') =>
      Multimodal.status resp <> 200%Z ->
      run = (match Multimodal.text resp with
             | Py.Ok error_text =>
                 Py.Raise (Py.OtherError
                             ("Ollama API error: " +:+ pretty (Multimodal.status resp)
                              +:+ " - " +:+ error_text))
             | Py.Raise e => Py.Raise e
             end, r', [Multimodal.Post (Multimodal.api_url self) body])
  | (Py.Raise e, r') =>
      run = (Py.Raise e, r', [Multimodal.Post (Multimodal.api_url self) body])
  end.
Proof.
  cbv zeta. unfold Multimodal.stream, Multimodal.post, Eff.bind, Eff.lift, Eff.raise.
  destruct (session_post (Multimodal.api_url self) _ r) as [[resp|e] r'];
    [|reflexivity].
  intros Hstatus. destruct (decide (Multimodal.status resp ≠ 200%Z)); [|done].
  by destruct (Multimodal.text resp).
Qed.

(** X27: [ask_image] raises nothing but an [HTTPException], and only
    before any request is sent to the model; once the request is sent it
    returns. *)
Theorem ask_image_fails_only_before_streaming
    (query : string) (images : list Multimodal.ImageUpload) (r : Remote) :
  let run := ask_image query images r in
  match Eff.outcome run with
  | Py.Raise e =>
      (exists status_code detail, e = Py.HTTPException status_code detail)
      /\ Eff.final run = r
      /\ Eff.events run = []
  | Py.Ok _ => length (Multimodal.posts (Eff.events run)) = 1
  end.
Proof.
  cbv zeta. rewrite MultimodalFacts.ask_image_unfold.
  destruct (Multimodal.as_http_error (Multimodal.checked_images b64encode query images))
    as [images_data|e] eqn:Hcheck.
  - rewrite MultimodalFacts.generate_response_run.
    cbv zeta. unfold Eff.outcome at 1. cbn [fst]. unfold Eff.events at 1. cbn [snd].
    destruct (MultimodalFacts.stream_unfold decode_utf8 json_loads fields_of truth
                misuse session_post Multimodal.multimodal_llm
                (Multimodal.Images images_data) query r)
      as (log & _ & Hposts & Hrun).
    cbv zeta in Hposts, Hrun. rewrite Hrun.
    unfold Eff.events at 1. cbn [snd].
    rewrite MultimodalFacts.posts_app, Hposts.
    unfold Eff.outcome. cbn [fst].
    match goal with
    | |- context [match ?o with Py.Ok _ => [] | Py.Raise _ => _ end] => by destruct o
    end.
  - apply MultimodalFacts.as_http_error_raises in Hcheck. done.
Qed.

(** X28: the checks of [ask_image], in their order: a blank query is
    refused with 400 [Query is required]; then an empty list of images
    with 400 [At least one image is required]; then a list in which no
    image has a file name with 400 [No valid images found]. *)
Theorem ask_image_rejects_incomplete_requests
    (query : string) (images : list Multimodal.ImageUpload) (r : Remote) :
  let run := ask_image query images r in
  (Text.str_strip query = "" ->
   Eff.outcome run = Py.Raise (Py.HTTPException 400 "Query is required"))
  /\ (Text.str_strip query <> "" -> images = [] ->
      Eff.outcome run
      = Py.Raise (Py.HTTPException 400 "At least one image is required"))
  /\ (Text.str_strip query <> "" -> images <> [] ->
      Forall (fun file => Multimodal.image_filename file = None
                          \/ Multimodal.image_filename file = Some "") images ->
      Eff.outcome run = Py.Raise (Py.HTTPException 400 "No valid images found")).
Proof.
  cbv zeta. rewrite MultimodalFacts.ask_image_unfold.
  unfold Multimodal.checked_images. split_and!.
  - intros Hq. by rewrite decide_True.
  - intros Hq ->. by rewrite decide_False.
  - intros Hq Hne Hunnamed. rewrite decide_False by done.
    destruct images as [|file images]; [done|].
    by rewrite MultimodalFacts.encode_images_unnamed.
Qed.

(** X29: the body of the streaming response of [ask_image] never
    raises: it passes on what [stream] yields and, when [stream] raises,
    ends with the one text chunk [Error: <message>]; what was yielded
    before the failure stays. *)
Theorem image_answer_reports_failure_as_chunk
    (images_data : list string) (query : string) (r : Remote) :
  let streamed := stream Multimodal.multimodal_llm (Multimodal.Images images_data)
                         query r in
  let run := generate_response images_data query r in
  Eff.outcome run = Py.Ok tt
  /\ Eff.final run = Eff.final streamed
  /\ Eff.events run
     = Eff.events streamed
       ++ match Eff.outcome streamed with
          | Py.Ok _ => []
          | Py.Raise e => [Multimodal.TextChunk ("Error: " +:+ Py.message e)]
          end.
Proof.
  cbv zeta. by rewrite MultimodalFacts.generate_response_run.
Qed.

End ImageClient.

(** The sample server with capacity for one request: three parts of the
    answer are yielded; the blank line, the broken line and the line
    [true] are passed over; the line after the closing one is ignored. *)
Lemma image_stream_yields_until_done_witness :
  Multimodal.chunks
    (Eff.events
       (Multimodal.stream Samples.decode_utf8 Samples.json_loads Samples.fields_of
          Samples.truth Samples.misuse Samples.session_post
          Multimodal.multimodal_llm (Multimodal.Images ["b64:7"])
          "What is in the picture?" 1))
  = [Samples.JText "A cat"; Samples.JText " on a mat"; Samples.JText "."].
Proof.
  destruct (image_stream_yields_until_done Samples.decode_utf8 Samples.json_loads
              Samples.fields_of Samples.truth Samples.misuse Samples.session_post
              Multimodal.multimodal_llm ["b64:7"] "What is in the picture?" 1 0
              {| Multimodal.status := 200;
                 Multimodal.text := Py.Ok "";
                 Multimodal.content := (Samples.body_lines, None) |}
              eq_refl eq_refl) as (_ & Hchunks & _).
  rewrite Hchunks. by vm_compute.
Defined.

(** The sample server without capacity answers 503. *)
Lemma image_stream_error_status_witness :
  Eff.outcome
    (Multimodal.stream Samples.decode_utf8 Samples.json_loads Samples.fields_of
       Samples.truth Samples.misuse Samples.session_post
       Multimodal.multimodal_llm (Multimodal.Images ["b64:7"])
       "What is in the picture?" 0)
  = Py.Raise (Py.OtherError "Ollama API error: 503 - model is loading").
Proof.
  pose proof (image_stream_error_status Samples.decode_utf8 Samples.json_loads
                Samples.fields_of Samples.truth Samples.misuse Samples.session_post
                Multimodal.multimodal_llm ["b64:7"] "What is in the picture?" 0)
    as Hrun.
  cbv zeta in Hrun. cbn [Samples.session_post] in Hrun.
  rewrite Hrun by discriminate. by vm_compute.
Defined.

(** A query of blanks; no image; an image without a file name. *)
Lemma ask_image_rejects_incomplete_requests_witness :
  Eff.outcome
    (Multimodal.ask_image Samples.decode_utf8 Samples.json_loads Samples.fields_of
       Samples.truth Samples.misuse Samples.session_post Samples.b64encode
       "  " [Samples.photo] 1)
  = Py.Raise (Py.HTTPException 400 "Query is required")
  /\ Eff.outcome
       (Multimodal.ask_image Samples.decode_utf8 Samples.json_loads Samples.fields_of
          Samples.truth Samples.misuse Samples.session_post Samples.b64encode
          "What is it?" [] 1)
     = Py.Raise (Py.HTTPException 400 "At least one image is required")
  /\ Eff.outcome
       (Multimodal.ask_image Samples.decode_utf8 Samples.json_loads Samples.fields_of
          Samples.truth Samples.misuse Samples.session_post Samples.b64encode
          "What is it?" [Samples.unnamed_photo] 1)
     = Py.Raise (Py.HTTPException 400 "No valid images found").
Proof.
  split_and!.
  - apply (ask_image_rejects_incomplete_requests Samples.decode_utf8
             Samples.json_loads Samples.fields_of Samples.truth Samples.misuse
             Samples.session_post Samples.b64encode "  " [Samples.photo] 1).
    by vm_compute.
  - apply (ask_image_rejects_incomplete_requests Samples.decode_utf8
             Samples.json_loads Samples.fields_of Samples.truth Samples.misuse
             Samples.session_post Samples.b64encode "What is it?" [] 1);
      [by vm_compute|reflexivity].
  - apply (ask_image_rejects_incomplete_requests Samples.decode_utf8
             Samples.json_loads Samples.fields_of Samples.truth Samples.misuse
             Samples.session_post Samples.b64encode "What is it?"
             [Samples.unnamed_photo] 1); [by vm_compute|discriminate|].
    repeat constructor.
Defined.
